(** * SceneManager: texture registry, material registry and the scripted scene

    A shallow embedding of [Source/SceneManager.cpp].  The member functions of
    [SceneManager] become state-passing functions over a [World]: the fields
    of the object, the part of the host the code reads (image files, the
    texture names the driver hands out) and the sequence of calls made on the
    collaborators (OpenGL, stb_image, [ShaderManager], [ShapeMeshes],
    [std::cout]).  Reading or writing outside an array and calling through a
    null pointer are undefined behaviour in C++; the embedding makes them an
    explicit outcome, [Undefined]. *)

From Stdlib Require Import ZArith QArith Lia.
From stdpp Require Import base list strings.

Local Open Scope string_scope.
Local Open Scope list_scope.
Local Open Scope Z_scope.

(** ** Values *)

(** The [float] literals of the source are kept as the decimal numbers they
    are written as; this layer performs no arithmetic on them, it only hands
    them to the shader. *)
Definition float : Type := Q.

Record vec2 : Type := Vec2 { vec2_x : float; vec2_y : float }.
Record vec3 : Type := Vec3 { vec3_x : float; vec3_y : float; vec3_z : float }.
Record vec4 : Type :=
  Vec4 { vec4_r : float; vec4_g : float; vec4_b : float; vec4_a : float }.

Arguments Vec2 (_ _)%_Q.
Arguments Vec3 (_ _ _)%_Q.
Arguments Vec4 (_ _ _ _)%_Q.

(** Equality of vectors as numbers ([2.50] and [2.5] are the same scalar). *)
Definition vec3_eq (a b : vec3) : Prop :=
  (vec3_x a == vec3_x b)%Q /\ (vec3_y a == vec3_y b)%Q /\ (vec3_z a == vec3_z b)%Q.

(** glm's matrix builders are external and work on floating point numbers;
    the matrices they return are kept as terms. *)
Inductive mat4 : Type :=
| glm_scale (v : vec3)
| glm_rotate (degrees : float) (axis : vec3)   (* glm::rotate(glm::radians(degrees), axis) *)
| glm_translate (v : vec3)
| mat4_mul (a b : mat4).

(** [GLuint] is an unsigned 32-bit integer, [int] a signed one. *)
Definition GLuint : Type := Z.

(** The conversion applied when a [GLuint] is assigned to an [int]. *)
Definition int_of_GLuint (n : GLuint) : Z := (n + 2 ^ 31) mod 2 ^ 32 - 2 ^ 31.

Record TEXTURE_INFO : Type := { ID : GLuint; tag : string }.

(** The [tag] field of [OBJECT_MATERIAL] is named [material_tag] here, since
    [tag] already names the field of [TEXTURE_INFO]. *)
Record OBJECT_MATERIAL : Type := {
  ambientColor : vec3;
  ambientStrength : float;
  diffuseColor : vec3;
  specularColor : vec3;
  shininess : float;
  material_tag : string
}.

(** What [stbi_load] reports about a decoded image. *)
Record Image : Type := { width : Z; height : Z; colorChannels : Z }.

Inductive Mesh : Type :=
| PlaneMesh | TaperedCylinderMesh | TorusMesh | CylinderMesh | BoxMesh | PrismMesh.

Inductive GLenum : Type :=
| GL_TEXTURE_2D | GL_TEXTURE_WRAP_S | GL_TEXTURE_WRAP_T | GL_REPEAT
| GL_TEXTURE_MIN_FILTER | GL_TEXTURE_MAG_FILTER | GL_LINEAR
| GL_RGB8 | GL_RGB | GL_RGBA8 | GL_RGBA | GL_UNSIGNED_BYTE.

(** The first texture unit, as <GL/glew.h> defines it. *)
Definition GL_TEXTURE0 : Z := 0x84C0.

(** ** Calls on the collaborators *)

Inductive Call : Type :=
(* std::cout *)
| cout_loaded (filename : string) (w h channels : Z)
| cout_not_implemented (channels : Z)
| cout_could_not_load (filename : string)
(* stb_image *)
| stbi_set_flip_vertically_on_load (flag : bool)
| stbi_image_free (image : Image)
(* OpenGL; [glDeleteTextures] is the call that frees a texture *)
| glGenTextures (name : GLuint)
| glDeleteTextures (name : GLuint)
| glBindTexture (target : GLenum) (name : GLuint)
| glTexParameteri (target pname param : GLenum)
| glTexImage2D (target : GLenum) (level : Z) (internalformat : GLenum)
               (w h border : Z) (format type : GLenum) (image : Image)
| glGenerateMipmap (target : GLenum)
| glActiveTexture (unit : Z)
(* ShaderManager *)
| setMat4Value (name : string) (m : mat4)
| setIntValue (name : string) (v : Z)
| setBoolValue (name : string) (v : bool)
| setFloatValue (name : string) (v : float)
| setVec2Value (name : string) (v : vec2)
| setVec3Value (name : string) (v : vec3)
| setVec4Value (name : string) (v : vec4)
| setSampler2DValue (name : string) (slot : Z)
(* ShapeMeshes *)
| LoadMesh (m : Mesh)
| DrawMesh (m : Mesh).

(** ** The object and its world *)

Inductive pointer : Type := NULL | Object.

Record SceneManager : Type := {
  m_pShaderManager : pointer;
  m_loadedTextures : Z;
  m_textureIDs : list TEXTURE_INFO;
  m_objectMaterials : list OBJECT_MATERIAL
}.

(** Modelled from the spec: the bound of the array [m_textureIDs] is declared
    in SceneManager.h, which is not among the sources.  The specification
    calls it a fixed-size array, and the comments of [BindGLTextures] and
    [LoadSceneTextures] give its size: 16 slots. *)
Definition TEXTURE_SLOTS : nat := 16.

(** What the code reads from its host: the image [stbi_load] finds under a
    file name (if any), the name the driver returns at the k-th call of
    [glGenTextures], and the content of a local [OBJECT_MATERIAL] that was
    declared without an initialiser. *)
Record Host : Type := {
  image_files : string -> option Image;
  texture_names : nat -> GLuint;
  uninitialised_material : OBJECT_MATERIAL
}.

Record World : Type := {
  self : SceneManager;
  host : Host;
  names_generated : nat;
  calls : list Call          (* oldest first *)
}.

(** ** A state and error monad *)

Inductive outcome (A : Type) : Type :=
| Ok (a : A)
| Undefined      (* undefined behaviour of the C++ program *)
| OutOfFuel.     (* a loop of the model was cut short *)
Arguments Ok {A} a.
Arguments Undefined {A}.
Arguments OutOfFuel {A}.

Definition M (A : Type) : Type := World -> outcome (A * World).

Definition ret {A} (a : A) : M A := fun w => Ok (a, w).

Definition bind {A B} (m : M A) (f : A -> M B) : M B :=
  fun w => match m w with
           | Ok (a, w') => f a w'
           | Undefined => Undefined
           | OutOfFuel => OutOfFuel
           end.

Declare Scope scene_scope.
Delimit Scope scene_scope with scene.
Notation "x <- m ;; k" := (bind m (fun x => k))
  (at level 100, m at next level, right associativity) : scene_scope.
Notation "m ;; k" := (bind m (fun _ => k))
  (at level 100, right associativity) : scene_scope.
Local Open Scope scene_scope.

Definition undefined {A} : M A := fun _ => Undefined.

Definition get_self : M SceneManager := fun w => Ok (self w, w).

Definition put_self (s : SceneManager) : M unit :=
  fun w => Ok (tt, {| self := s; host := host w;
                      names_generated := names_generated w; calls := calls w |}).

Definition get_host : M Host := fun w => Ok (host w, w).

Definition add_calls (cs : list Call) (w : World) : World :=
  {| self := self w; host := host w;
     names_generated := names_generated w; calls := calls w ++ cs |}.

Definition emit (c : Call) : M unit := fun w => Ok (tt, add_calls [c] w).

(** [while (cond) body] over the local variables [L]. *)
Fixpoint while {L} (fuel : nat) (cond : L -> SceneManager -> bool)
    (body : L -> M L) (l : L) : M L :=
  match fuel with
  | O => fun _ => OutOfFuel
  | S fuel' =>
      s <- get_self ;;
      if cond l s then (l' <- body l ;; while fuel' cond body l') else ret l
  end.

(** ** Access to the collaborators and to the arrays *)

(** [m_pShaderManager->f(...)] *)
Definition shader (c : Call) : M unit :=
  s <- get_self ;;
  match m_pShaderManager s with
  | NULL => undefined
  | Object => emit c
  end.

(** [if (NULL != m_pShaderManager) { ... }] *)
Definition if_shader (body : M unit) : M unit :=
  s <- get_self ;;
  match m_pShaderManager s with
  | NULL => ret tt
  | Object => body
  end.

(** [m_textureIDs[i]], read *)
Definition texture_at (i : Z) : M TEXTURE_INFO :=
  s <- get_self ;;
  if i <? 0 then undefined
  else match m_textureIDs s !! Z.to_nat i with
       | Some e => ret e
       | None => undefined
       end.

(** [m_textureIDs[i]], written through [f] *)
Definition set_texture_at (i : Z) (f : TEXTURE_INFO -> TEXTURE_INFO) : M unit :=
  e <- texture_at i ;;
  s <- get_self ;;
  put_self {| m_pShaderManager := m_pShaderManager s;
              m_loadedTextures := m_loadedTextures s;
              m_textureIDs := <[Z.to_nat i := f e]> (m_textureIDs s);
              m_objectMaterials := m_objectMaterials s |}.

Definition set_loadedTextures (n : Z) : M unit :=
  s <- get_self ;;
  put_self {| m_pShaderManager := m_pShaderManager s;
              m_loadedTextures := n;
              m_textureIDs := m_textureIDs s;
              m_objectMaterials := m_objectMaterials s |}.

(** [m_objectMaterials[i]] *)
Definition material_at (i : Z) : M OBJECT_MATERIAL :=
  s <- get_self ;;
  if i <? 0 then undefined
  else match m_objectMaterials s !! Z.to_nat i with
       | Some e => ret e
       | None => undefined
       end.

(** [m_objectMaterials.push_back(m)] *)
Definition push_back_material (m : OBJECT_MATERIAL) : M unit :=
  s <- get_self ;;
  put_self {| m_pShaderManager := m_pShaderManager s;
              m_loadedTextures := m_loadedTextures s;
              m_textureIDs := m_textureIDs s;
              m_objectMaterials := m_objectMaterials s ++ [m] |}.

(** [stbi_load(filename, &width, &height, &colorChannels, 0)] *)
Definition stbi_load (filename : string) : M (option Image) :=
  h <- get_host ;; ret (image_files h filename).

(** [glGenTextures(1, &name)]: the driver returns its next name. *)
Definition glGenTextures_1 : M GLuint :=
  fun w =>
    let name := texture_names (host w) (names_generated w) in
    Ok (name, {| self := self w; host := host w;
                 names_generated := S (names_generated w);
                 calls := calls w ++ [glGenTextures name] |}).

(** ** Names of the shader uniforms *)

Definition g_ModelName : string := "model".
Definition g_ColorValueName : string := "objectColor".
Definition g_TextureValueName : string := "objectTexture".
Definition g_UseTextureName : string := "bUseTexture".
Definition g_UseLightingName : string := "bUseLighting".

(** ** Texture registry *)

Definition with_ID (id : GLuint) (e : TEXTURE_INFO) : TEXTURE_INFO :=
  {| ID := id; tag := tag e |}.
Definition with_tag (t : string) (e : TEXTURE_INFO) : TEXTURE_INFO :=
  {| ID := ID e; tag := t |}.

(** [m_loadedTextures++] is written without wrap-around: the write to
    [m_textureIDs[m_loadedTextures]] just before it is already undefined for
    every index outside the array. *)
Definition CreateGLTexture (filename tag : string) : M bool :=
  emit (stbi_set_flip_vertically_on_load true) ;;
  image <- stbi_load filename ;;
  match image with
  | Some img =>
      emit (cout_loaded filename (width img) (height img) (colorChannels img)) ;;
      textureID <- glGenTextures_1 ;;
      emit (glBindTexture GL_TEXTURE_2D textureID) ;;
      emit (glTexParameteri GL_TEXTURE_2D GL_TEXTURE_WRAP_S GL_REPEAT) ;;
      emit (glTexParameteri GL_TEXTURE_2D GL_TEXTURE_WRAP_T GL_REPEAT) ;;
      emit (glTexParameteri GL_TEXTURE_2D GL_TEXTURE_MIN_FILTER GL_LINEAR) ;;
      emit (glTexParameteri GL_TEXTURE_2D GL_TEXTURE_MAG_FILTER GL_LINEAR) ;;
      let register_texture : M bool :=
        emit (glGenerateMipmap GL_TEXTURE_2D) ;;
        emit (stbi_image_free img) ;;
        emit (glBindTexture GL_TEXTURE_2D 0) ;;
        s <- get_self ;;
        set_texture_at (m_loadedTextures s) (with_ID textureID) ;;
        set_texture_at (m_loadedTextures s) (with_tag tag) ;;
        set_loadedTextures (m_loadedTextures s + 1) ;;
        ret true in
      if colorChannels img =? 3 then
        emit (glTexImage2D GL_TEXTURE_2D 0 GL_RGB8 (width img) (height img) 0
                           GL_RGB GL_UNSIGNED_BYTE img) ;;
        register_texture
      else if colorChannels img =? 4 then
        emit (glTexImage2D GL_TEXTURE_2D 0 GL_RGBA8 (width img) (height img) 0
                           GL_RGBA GL_UNSIGNED_BYTE img) ;;
        register_texture
      else
        emit (cout_not_implemented (colorChannels img)) ;;
        ret false
  | None =>
      emit (cout_could_not_load filename) ;;
      ret false
  end.

(** The loops test their condition at most [m_loadedTextures + 1] times (the
    material search, [m_objectMaterials.size() + 1] times): every pass but a
    last one moves the index forward.  The lemmas [FindTextureSlot_fuel],
    [FindTextureID_fuel], [FindMaterial_fuel], [BindGLTextures_fuel] and
    [DestroyGLTextures_fuel] show that this bound is never what stops them. *)
Definition loop_fuel (n : Z) : nat := S (Z.to_nat n).

Definition BindGLTextures : M unit :=
  s <- get_self ;;
  while (loop_fuel (m_loadedTextures s))
    (fun i s => i <? m_loadedTextures s)
    (fun i =>
       emit (glActiveTexture (GL_TEXTURE0 + i)) ;;
       e <- texture_at i ;;
       emit (glBindTexture GL_TEXTURE_2D (ID e)) ;;
       ret (i + 1))
    0 ;;
  ret tt.

Definition DestroyGLTextures : M unit :=
  s <- get_self ;;
  while (loop_fuel (m_loadedTextures s))
    (fun i s => i <? m_loadedTextures s)
    (fun i =>
       texture_at i ;;
       name <- glGenTextures_1 ;;
       set_texture_at i (with_ID name) ;;
       ret (i + 1))
    0 ;;
  ret tt.

(** The local variables of the three search loops. *)
Record search (R : Type) : Type :=
  Search { found : R; index : Z; bFound : bool }.
Arguments Search {R} _ _ _.
Arguments found {R} _.
Arguments index {R} _.
Arguments bFound {R} _.

Definition FindTextureID (tag' : string) : M Z :=
  s <- get_self ;;
  l <- while (loop_fuel (m_loadedTextures s))
         (fun l s => (index l <? m_loadedTextures s) && negb (bFound l))
         (fun l =>
            e <- texture_at (index l) ;;
            if String.eqb (tag e) tag'
            then ret (Search (int_of_GLuint (ID e)) (index l) true)
            else ret (Search (found l) (index l + 1) (bFound l)))
         (Search (-1) 0 false) ;;
  ret (found l).

Definition FindTextureSlot (tag' : string) : M Z :=
  s <- get_self ;;
  l <- while (loop_fuel (m_loadedTextures s))
         (fun l s => (index l <? m_loadedTextures s) && negb (bFound l))
         (fun l =>
            e <- texture_at (index l) ;;
            if String.eqb (tag e) tag'
            then ret (Search (index l) (index l) true)
            else ret (Search (found l) (index l + 1) (bFound l)))
         (Search (-1) 0 false) ;;
  ret (found l).

(** ** Material registry *)

(** The five assignments of [FindMaterial]; the tag of the output parameter
    is not assigned. *)
Definition copy_material (from to : OBJECT_MATERIAL) : OBJECT_MATERIAL :=
  {| ambientColor := ambientColor from;
     ambientStrength := ambientStrength from;
     diffuseColor := diffuseColor from;
     specularColor := specularColor from;
     shininess := shininess from;
     material_tag := material_tag to |}.

Definition materials_size (s : SceneManager) : Z :=
  Z.of_nat (length (m_objectMaterials s)).

(** The reference parameter [material] is passed in and returned. *)
Definition FindMaterial (tag' : string) (material : OBJECT_MATERIAL)
  : M (bool * OBJECT_MATERIAL) :=
  s <- get_self ;;
  if materials_size s =? 0 then ret (false, material)
  else
    l <- while (loop_fuel (materials_size s))
           (fun l s => (index l <? materials_size s) && negb (bFound l))
           (fun l =>
              e <- material_at (index l) ;;
              if String.eqb (material_tag e) tag'
              then ret (Search (copy_material e (found l)) (index l) true)
              else ret (Search (found l) (index l + 1) (bFound l)))
           (Search material 0 false) ;;
    ret (true, found l).

(** ** Shader state *)

(** [translation * rotationX * rotationY * rotationZ * scale] *)
Definition modelView (scaleXYZ : vec3)
    (XrotationDegrees YrotationDegrees ZrotationDegrees : float)
    (positionXYZ : vec3) : mat4 :=
  let scale := glm_scale scaleXYZ in
  let rotationX := glm_rotate XrotationDegrees (Vec3 1.0 0.0 0.0) in
  let rotationY := glm_rotate YrotationDegrees (Vec3 0.0 1.0 0.0) in
  let rotationZ := glm_rotate ZrotationDegrees (Vec3 0.0 0.0 1.0) in
  let translation := glm_translate positionXYZ in
  mat4_mul (mat4_mul (mat4_mul (mat4_mul translation rotationX) rotationY)
                     rotationZ) scale.
Arguments modelView _ (_ _ _)%_Q _.

Definition SetTransformations (scaleXYZ : vec3)
    (XrotationDegrees YrotationDegrees ZrotationDegrees : float)
    (positionXYZ : vec3) : M unit :=
  if_shader (
    shader (setMat4Value g_ModelName
              (modelView scaleXYZ XrotationDegrees YrotationDegrees
                         ZrotationDegrees positionXYZ))).
Arguments SetTransformations _ (_ _ _)%_Q _.

Definition SetShaderColor
    (redColorValue greenColorValue blueColorValue alphaValue : float) : M unit :=
  let currentColor :=
    Vec4 redColorValue greenColorValue blueColorValue alphaValue in
  if_shader (
    shader (setIntValue g_UseTextureName 0) ;;
    shader (setVec4Value g_ColorValueName currentColor)).
Arguments SetShaderColor (_ _ _ _)%_Q.

Definition SetShaderTexture (textureTag : string) : M unit :=
  if_shader (
    shader (setIntValue g_UseTextureName 1) ;;
    textureID <- FindTextureSlot textureTag ;;
    shader (setSampler2DValue g_TextureValueName textureID)).

Definition SetTextureUVScale (u v : float) : M unit :=
  if_shader (shader (setVec2Value "UVscale" (Vec2 u v))).
Arguments SetTextureUVScale (_ _)%_Q.

Definition SetShaderMaterial (materialTag : string) : M unit :=
  s <- get_self ;;
  if 0 <? materials_size s then
    h <- get_host ;;
    r <- FindMaterial materialTag (uninitialised_material h) ;;
    let '(bReturn, material) := r in
    if bReturn then
      shader (setVec3Value "material.ambientColor" (ambientColor material)) ;;
      shader (setFloatValue "material.ambientStrength" (ambientStrength material)) ;;
      shader (setVec3Value "material.diffuseColor" (diffuseColor material)) ;;
      shader (setVec3Value "material.specularColor" (specularColor material)) ;;
      shader (setFloatValue "material.shininess" (shininess material))
    else ret tt
  else ret tt.

(** ** Preparing the scene *)

Definition LoadSceneTextures : M unit :=
  CreateGLTexture "../../Utilities/textures/granite1.jpg" "counter" ;;
  CreateGLTexture "../../Utilities/textures/tiles.jpg" "wall" ;;
  CreateGLTexture "../../Utilities/textures/Rubiks_white.jpg" "box_white" ;;
  CreateGLTexture "../../Utilities/textures/Rubiks_red.jpg" "box_red" ;;
  CreateGLTexture "../../Utilities/textures/Rubiks_blue.jpg" "box_blue" ;;
  CreateGLTexture "../../Utilities/textures/cardboard.jpg" "paperbag" ;;
  CreateGLTexture "../../Utilities/textures/wood.jpg" "bagclip" ;;
  CreateGLTexture "../../Utilities/textures/bagtag.jpg" "label" ;;
  CreateGLTexture "../../Utilities/textures/wax.jpg" "candlewax" ;;
  CreateGLTexture "../../Utilities/textures/ceramic.jpg" "mug" ;;
  BindGLTextures.

Definition glassMaterial : OBJECT_MATERIAL :=
  {| ambientColor := Vec3 0.7 0.7 0.7;
     ambientStrength := 0.4%Q;
     diffuseColor := Vec3 0.8 0.8 0.8;
     specularColor := Vec3 0.7 0.7 0.7;
     shininess := 85.0%Q;
     material_tag := "glass" |}.

Definition ceramicMaterial : OBJECT_MATERIAL :=
  {| ambientColor := Vec3 0.3 0.3 0.3;
     ambientStrength := 0.5%Q;
     diffuseColor := Vec3 0.4 0.4 0.4;
     specularColor := Vec3 0.2 0.2 0.2;
     shininess := 25.0%Q;
     material_tag := "ceramic" |}.

Definition cardboardMaterial : OBJECT_MATERIAL :=
  {| ambientColor := Vec3 0.2 0.2 0.2;
     ambientStrength := 0.2%Q;
     diffuseColor := Vec3 0.1 0.1 0.1;
     specularColor := Vec3 0.0 0.0 0.0;
     shininess := 0.0%Q;
     material_tag := "cardboard" |}.

Definition DefineObjectMaterials : M unit :=
  push_back_material glassMaterial ;;
  push_back_material ceramicMaterial ;;
  push_back_material cardboardMaterial.

Definition SetupSceneLights : M unit :=
  shader (setBoolValue g_UseLightingName true) ;;
  shader (setVec3Value "lightSources[0].position" (Vec3 0.0 10.0 6.0)) ;;
  shader (setVec3Value "lightSources[0].ambientColor" (Vec3 0.2 0.2 0.2)) ;;
  shader (setVec3Value "lightSources[0].diffuseColor" (Vec3 1.0 1.0 1.0)) ;;
  shader (setVec3Value "lightSources[0].specularColor" (Vec3 1.0 1.0 1.0)) ;;
  shader (setFloatValue "lightSources[0].focalStrength" 5.0%Q) ;;
  shader (setFloatValue "lightSources[0].specularIntensity" 5.0%Q) ;;
  shader (setVec3Value "lightSources[1].position" (Vec3 (-10.0) 10.0 6.0)) ;;
  shader (setVec3Value "lightSources[1].ambientColor" (Vec3 0.2 0.2 0.2)) ;;
  shader (setVec3Value "lightSources[1].diffuseColor" (Vec3 1.0 0.95 0.6)) ;;
  shader (setVec3Value "lightSources[1].specularColor" (Vec3 1.0 0.95 0.6)) ;;
  shader (setFloatValue "lightSources[1].focalStrength" 15.0%Q) ;;
  shader (setFloatValue "lightSources[1].specularIntensity" 5.0%Q) ;;
  shader (setVec3Value "lightSources[2].position" (Vec3 10.0 10.0 6.0)) ;;
  shader (setVec3Value "lightSources[2].ambientColor" (Vec3 0.2 0.2 0.2)) ;;
  shader (setVec3Value "lightSources[2].diffuseColor" (Vec3 1.0 0.95 0.6)) ;;
  shader (setVec3Value "lightSources[2].specularColor" (Vec3 1.0 0.95 0.6)) ;;
  shader (setFloatValue "lightSources[2].focalStrength" 15.0%Q) ;;
  shader (setFloatValue "lightSources[2].specularIntensity" 5.0%Q).

Definition PrepareScene : M unit :=
  LoadSceneTextures ;;
  DefineObjectMaterials ;;
  SetupSceneLights ;;
  emit (LoadMesh PlaneMesh) ;;
  emit (LoadMesh TaperedCylinderMesh) ;;
  emit (LoadMesh TorusMesh) ;;
  emit (LoadMesh CylinderMesh) ;;
  emit (LoadMesh BoxMesh) ;;
  emit (LoadMesh PrismMesh).

(** ** Rendering the scene *)

Definition RenderCounter : M unit :=
  (* Plane *)
  SetTransformations (Vec3 20.0 1.0 10.0) 0.0 0.0 0.0 (Vec3 0.0 0.0 2.0) ;;
  SetShaderTexture "counter" ;;
  SetShaderMaterial "ceramic" ;;
  SetTextureUVScale 2.0 2.0 ;;
  emit (DrawMesh PlaneMesh).

Definition RenderMug : M unit :=
  (* Tapered Cylinder *)
  SetTransformations (Vec3 2.5 3.0 2.5) 180.0 0.0 0.0 (Vec3 (-7.0) 2.5 0.0) ;;
  SetShaderMaterial "ceramic" ;;
  SetShaderTexture "mug" ;;
  SetTextureUVScale 1.0 1.0 ;;
  emit (DrawMesh TaperedCylinderMesh) ;;
  (* Mug Lip *)
  SetTransformations (Vec3 2.0 2.0 1.75) 90.0 0.0 0.0 (Vec3 (-7.0) 2.50 0.0) ;;
  SetShaderMaterial "ceramic" ;;
  SetShaderTexture "mug" ;;
  SetTextureUVScale 1.0 1.0 ;;
  emit (DrawMesh TorusMesh) ;;
  (* Torus, the handle *)
  SetTransformations (Vec3 1.8 0.9 1.0) 0.0 0.0 (-30.0) (Vec3 (-8.9) 1.5 0.0) ;;
  SetShaderMaterial "ceramic" ;;
  SetShaderTexture "mug" ;;
  SetTextureUVScale 1.0 1.0 ;;
  emit (DrawMesh TorusMesh).

Definition RenderCandle : M unit :=
  (* Candle Wax *)
  SetTransformations (Vec3 1.95 3.25 1.95) 0.0 0.0 0.0 (Vec3 (-2.0) 0.0 0.0) ;;
  SetShaderTexture "candlewax" ;;
  SetTextureUVScale 1.0 1.0 ;;
  emit (DrawMesh CylinderMesh) ;;
  (* Candle Wick *)
  SetTransformations (Vec3 0.1 0.5 0.1) 0.0 0.0 0.0 (Vec3 (-2.0) 3.25 0.0) ;;
  SetShaderColor 0.0 0.0 0.0 1.0 ;;
  emit (DrawMesh CylinderMesh) ;;
  (* Candle Bottom *)
  SetTransformations (Vec3 2.0 3.75 2.0) 0.0 0.0 0.0 (Vec3 (-2.0) 0.0 0.0) ;;
  SetShaderColor 0.7 0.7 0.8 0.3 ;;
  SetShaderMaterial "glass" ;;
  emit (DrawMesh CylinderMesh) ;;
  (* Candle Bottom Taper *)
  SetTransformations (Vec3 2.0 0.5 2.0) 0.0 0.0 0.0 (Vec3 (-2.0) 3.74 0.0) ;;
  SetShaderColor 0.7 0.7 0.8 0.3 ;;
  SetShaderMaterial "glass" ;;
  emit (DrawMesh TaperedCylinderMesh) ;;
  (* Candle Narrow *)
  SetTransformations (Vec3 1.75 0.85 1.75) 0.0 0.0 0.0 (Vec3 (-2.0) 4.1 0.0) ;;
  SetShaderColor 0.95 0.95 0.95 0.7 ;;
  SetShaderMaterial "glass" ;;
  emit (DrawMesh CylinderMesh) ;;
  (* Candle Lip *)
  SetTransformations (Vec3 1.75 0.5 1.75) 0.0 0.0 0.0 (Vec3 (-2.0) 4.95 0.0) ;;
  SetShaderColor 0.7 0.7 0.8 0.3 ;;
  SetShaderMaterial "glass" ;;
  emit (DrawMesh TaperedCylinderMesh) ;;
  (* Candle Lid *)
  SetTransformations (Vec3 1.0 1.0 3.0) 90.0 0.0 0.0 (Vec3 (-2.0) 5.40 0.0) ;;
  SetShaderColor 0.7 0.7 0.8 0.3 ;;
  SetShaderMaterial "glass" ;;
  emit (DrawMesh TorusMesh).

Definition RenderRubiks : M unit :=
  SetTransformations (Vec3 2.00 2.00 2.00) 0.0 45.0 0.0 (Vec3 3.0 1.0 2.0) ;;
  SetShaderTexture "box_white" ;;
  SetTextureUVScale 1.0 1.0 ;;
  emit (DrawMesh BoxMesh) ;;
  SetTransformations (Vec3 1.00 1.00 1.00) 90.0 0.0 135.0 (Vec3 3.75 1.0 2.71) ;;
  SetShaderTexture "box_red" ;;
  SetTextureUVScale 1.0 1.0 ;;
  emit (DrawMesh PlaneMesh) ;;
  SetTransformations (Vec3 1.00 1.00 1.00) 0.0 45.0 0.0 (Vec3 3.0 2.01 2.0) ;;
  SetShaderTexture "box_blue" ;;
  SetTextureUVScale 1.0 1.0 ;;
  emit (DrawMesh PlaneMesh).

Definition RenderBag : M unit :=
  (* Box *)
  SetTransformations (Vec3 3.95 2.60 2.30) 0.0 (-20.0) 0.0 (Vec3 6.5 1.25 0.0) ;;
  SetShaderTexture "paperbag" ;;
  SetShaderMaterial "cardboard" ;;
  SetTextureUVScale 1.0 1.0 ;;
  emit (DrawMesh BoxMesh) ;;
  (* Prism *)
  SetTransformations (Vec3 2.35 3.95 4.5) (-90.0) 0.0 (-110.0) (Vec3 6.5 4.55 0.0) ;;
  SetShaderTexture "paperbag" ;;
  SetShaderMaterial "cardboard" ;;
  SetTextureUVScale 1.0 1.0 ;;
  emit (DrawMesh PrismMesh) ;;
  (* Label *)
  SetTransformations (Vec3 1.2 0.0 1.6) 78.0 (-5.0) 20.0 (Vec3 6.2 4.5 0.65) ;;
  SetShaderTexture "label" ;;
  SetTextureUVScale 1.0 1.0 ;;
  emit (DrawMesh PlaneMesh) ;;
  (* Bag Clip1 *)
  SetTransformations (Vec3 0.4 0.0 0.15) 78.0 (-5.0) 20.0 (Vec3 4.9 6.25 (-0.3)) ;;
  SetShaderTexture "bagclip" ;;
  SetTextureUVScale 1.0 1.0 ;;
  emit (DrawMesh PlaneMesh) ;;
  (* Bag Clip2 *)
  SetTransformations (Vec3 0.4 0.0 0.15) 78.0 (-5.0) 20.0 (Vec3 7.91 6.25 0.72) ;;
  SetShaderTexture "bagclip" ;;
  SetTextureUVScale 1.0 1.0 ;;
  emit (DrawMesh PlaneMesh).

Definition RenderWall : M unit :=
  (* Plane *)
  SetTransformations (Vec3 20.0 1.0 10.0) 90.0 0.0 0.0 (Vec3 0.0 5.0 (-4.0)) ;;
  SetShaderMaterial "ceramic" ;;
  SetShaderTexture "wall" ;;
  SetTextureUVScale 1.0 1.0 ;;
  emit (DrawMesh PlaneMesh).

Definition RenderScene : M unit :=
  RenderCounter ;;
  RenderWall ;;
  RenderMug ;;
  RenderCandle ;;
  RenderBag ;;
  RenderRubiks.

(** ** What the claims speak about *)

(** The registered entries: the first [m_loadedTextures] slots of the array. *)
Definition registered (s : SceneManager) : list TEXTURE_INFO :=
  take (Z.to_nat (m_loadedTextures s)) (m_textureIDs s).

(** The registry is within its array. *)
Definition within_array (s : SceneManager) : Prop :=
  m_loadedTextures s <= Z.of_nat (length (m_textureIDs s)).

(** [e] at position [i] is the first entry of [l] that satisfies [P]. *)
Definition first_at {E} (P : E -> Prop) (l : list E) (i : nat) (e : E) : Prop :=
  l !! i = Some e /\ P e /\ forall j e', (j < i)%nat -> l !! j = Some e' -> ~ P e'.

(** The calls a function has added to the world. *)
Definition new_calls (before after : World) : list Call :=
  drop (length (calls before)) (calls after).

(** The state a scene is rendered in: a shader manager is attached and the
    registry is within its array. *)
Definition ready (s : SceneManager) : Prop :=
  m_pShaderManager s = Object /\ within_array s.

(** [m], run in a ready state, leaves the object as it is and adds the calls
    [f] computes from the object and the host. *)
Definition emits (m : M unit) (f : SceneManager -> Host -> list Call) : Prop :=
  forall w, ready (self w) ->
    m w = Ok (tt, add_calls (f (self w) (host w)) w).

(** The slot [SetShaderTexture] finds for a tag. *)
Definition texture_slot (s : SceneManager) (t : string) : Z :=
  match list_find (fun e => tag e = t) (registered s) with
  | Some (i, _) => Z.of_nat i
  | None => -1
  end.

(** The material [SetShaderMaterial] hands to the shader for a tag. *)
Definition material_for (s : SceneManager) (h : Host) (t : string)
  : OBJECT_MATERIAL :=
  match list_find (fun e => material_tag e = t) (m_objectMaterials s) with
  | Some (_, e) => copy_material e (uninitialised_material h)
  | None => uninitialised_material h
  end.

Definition material_calls (m : OBJECT_MATERIAL) : list Call :=
  [ setVec3Value "material.ambientColor" (ambientColor m);
    setFloatValue "material.ambientStrength" (ambientStrength m);
    setVec3Value "material.diffuseColor" (diffuseColor m);
    setVec3Value "material.specularColor" (specularColor m);
    setFloatValue "material.shininess" (shininess m) ].

(** The scene as a script: one step per drawn mesh, with the constants of its
    transformation, the texture, colour, material and UV scale set for it, in
    the order they are set, and the mesh. *)
Inductive Look : Type :=
| Texture (t : string)
| Material (t : string)
| Color (r g b a : float)
| UVScale (u v : float).
Arguments Color (_ _ _ _)%_Q.
Arguments UVScale (_ _)%_Q.

Record Step : Type := MkStep {
  step_scale : vec3;
  step_X : float;
  step_Y : float;
  step_Z : float;
  step_position : vec3;
  step_look : list Look;
  step_mesh : Mesh
}.
Arguments MkStep _ (_ _ _)%_Q _ _ _.

Definition look_calls (s : SceneManager) (h : Host) (l : Look) : list Call :=
  match l with
  | Texture t =>
      [ setIntValue g_UseTextureName 1;
        setSampler2DValue g_TextureValueName (texture_slot s t) ]
  | Material t =>
      match m_objectMaterials s with
      | [] => []
      | _ :: _ => material_calls (material_for s h t)
      end
  | Color r g b a =>
      [ setIntValue g_UseTextureName 0;
        setVec4Value g_ColorValueName (Vec4 r g b a) ]
  | UVScale u v => [ setVec2Value "UVscale" (Vec2 u v) ]
  end.

Definition step_calls (s : SceneManager) (h : Host) (st : Step) : list Call :=
  setMat4Value g_ModelName
    (modelView (step_scale st) (step_X st) (step_Y st) (step_Z st)
               (step_position st))
  :: flat_map (look_calls s h) (step_look st) ++ [DrawMesh (step_mesh st)].

Definition counter_steps : list Step :=
  [ MkStep (Vec3 20.0 1.0 10.0) 0.0 0.0 0.0 (Vec3 0.0 0.0 2.0)
      [Texture "counter"; Material "ceramic"; UVScale 2.0 2.0] PlaneMesh ].

Definition wall_steps : list Step :=
  [ MkStep (Vec3 20.0 1.0 10.0) 90.0 0.0 0.0 (Vec3 0.0 5.0 (-4.0))
      [Material "ceramic"; Texture "wall"; UVScale 1.0 1.0] PlaneMesh ].

Definition mug_steps : list Step :=
  [ MkStep (Vec3 2.5 3.0 2.5) 180.0 0.0 0.0 (Vec3 (-7.0) 2.5 0.0)
      [Material "ceramic"; Texture "mug"; UVScale 1.0 1.0] TaperedCylinderMesh;
    MkStep (Vec3 2.0 2.0 1.75) 90.0 0.0 0.0 (Vec3 (-7.0) 2.50 0.0)
      [Material "ceramic"; Texture "mug"; UVScale 1.0 1.0] TorusMesh;
    MkStep (Vec3 1.8 0.9 1.0) 0.0 0.0 (-30.0) (Vec3 (-8.9) 1.5 0.0)
      [Material "ceramic"; Texture "mug"; UVScale 1.0 1.0] TorusMesh ].

Definition candle_steps : list Step :=
  [ MkStep (Vec3 1.95 3.25 1.95) 0.0 0.0 0.0 (Vec3 (-2.0) 0.0 0.0)
      [Texture "candlewax"; UVScale 1.0 1.0] CylinderMesh;
    MkStep (Vec3 0.1 0.5 0.1) 0.0 0.0 0.0 (Vec3 (-2.0) 3.25 0.0)
      [Color 0.0 0.0 0.0 1.0] CylinderMesh;
    MkStep (Vec3 2.0 3.75 2.0) 0.0 0.0 0.0 (Vec3 (-2.0) 0.0 0.0)
      [Color 0.7 0.7 0.8 0.3; Material "glass"] CylinderMesh;
    MkStep (Vec3 2.0 0.5 2.0) 0.0 0.0 0.0 (Vec3 (-2.0) 3.74 0.0)
      [Color 0.7 0.7 0.8 0.3; Material "glass"] TaperedCylinderMesh;
    MkStep (Vec3 1.75 0.85 1.75) 0.0 0.0 0.0 (Vec3 (-2.0) 4.1 0.0)
      [Color 0.95 0.95 0.95 0.7; Material "glass"] CylinderMesh;
    MkStep (Vec3 1.75 0.5 1.75) 0.0 0.0 0.0 (Vec3 (-2.0) 4.95 0.0)
      [Color 0.7 0.7 0.8 0.3; Material "glass"] TaperedCylinderMesh;
    MkStep (Vec3 1.0 1.0 3.0) 90.0 0.0 0.0 (Vec3 (-2.0) 5.40 0.0)
      [Color 0.7 0.7 0.8 0.3; Material "glass"] TorusMesh ].

Definition bag_steps : list Step :=
  [ MkStep (Vec3 3.95 2.60 2.30) 0.0 (-20.0) 0.0 (Vec3 6.5 1.25 0.0)
      [Texture "paperbag"; Material "cardboard"; UVScale 1.0 1.0] BoxMesh;
    MkStep (Vec3 2.35 3.95 4.5) (-90.0) 0.0 (-110.0) (Vec3 6.5 4.55 0.0)
      [Texture "paperbag"; Material "cardboard"; UVScale 1.0 1.0] PrismMesh;
    MkStep (Vec3 1.2 0.0 1.6) 78.0 (-5.0) 20.0 (Vec3 6.2 4.5 0.65)
      [Texture "label"; UVScale 1.0 1.0] PlaneMesh;
    MkStep (Vec3 0.4 0.0 0.15) 78.0 (-5.0) 20.0 (Vec3 4.9 6.25 (-0.3))
      [Texture "bagclip"; UVScale 1.0 1.0] PlaneMesh;
    MkStep (Vec3 0.4 0.0 0.15) 78.0 (-5.0) 20.0 (Vec3 7.91 6.25 0.72)
      [Texture "bagclip"; UVScale 1.0 1.0] PlaneMesh ].

Definition rubiks_steps : list Step :=
  [ MkStep (Vec3 2.00 2.00 2.00) 0.0 45.0 0.0 (Vec3 3.0 1.0 2.0)
      [Texture "box_white"; UVScale 1.0 1.0] BoxMesh;
    MkStep (Vec3 1.00 1.00 1.00) 90.0 0.0 135.0 (Vec3 3.75 1.0 2.71)
      [Texture "box_red"; UVScale 1.0 1.0] PlaneMesh;
    MkStep (Vec3 1.00 1.00 1.00) 0.0 45.0 0.0 (Vec3 3.0 2.01 2.0)
      [Texture "box_blue"; UVScale 1.0 1.0] PlaneMesh ].

Definition scene_script : list Step :=
  counter_steps ++ wall_steps ++ mug_steps ++ candle_steps ++ bag_steps
  ++ rubiks_steps.

Definition scene_calls (s : SceneManager) (h : Host) : list Call :=
  flat_map (step_calls s h) scene_script.

(** An image [CreateGLTexture] registers: it was decoded and has three or
    four colour channels. *)
Definition usable_image (image : option Image) : bool :=
  match image with
  | Some img => (colorChannels img =? 3) || (colorChannels img =? 4)
  | None => false
  end.

(** The value a call returned, if it returned. *)
Definition returned {A} (o : outcome (A * World)) : option A :=
  match o with
  | Ok (a, _) => Some a
  | _ => None
  end.

(** The message a failed load writes to [std::cout]. *)
Definition is_failure_message (c : Call) : Prop :=
  match c with
  | cout_not_implemented _ | cout_could_not_load _ => True
  | _ => False
  end.

(** The calls a run has added to the world it started in; none if it did not
    return. *)
Definition calls_of {A} (w : World) (o : outcome (A * World)) : list Call :=
  match o with
  | Ok (_, w') => new_calls w w'
  | _ => []
  end.

(** The calls that set texture, colour, material or UV scale: uniforms other
    than the model matrix. *)
Definition is_look_call (c : Call) : Prop :=
  match c with
  | setIntValue _ _ | setFloatValue _ _ | setVec2Value _ _ | setVec3Value _ _
  | setVec4Value _ _ | setSampler2DValue _ _ => True
  | _ => False
  end.

(** The mesh a call draws, if it is a draw call. *)
Definition drawn_mesh (c : Call) : option Mesh :=
  match c with
  | DrawMesh m => Some m
  | _ => None
  end.

(** The call right before every draw call is the [setMat4Value] of
    [SetTransformations]. *)
Definition draws_right_after_transform (cs : list Call) : Prop :=
  forall i m, cs !! S i = Some (DrawMesh m) ->
    exists T, cs !! i = Some (setMat4Value g_ModelName T).

(** The uniform a call sets, and the value a sequence of calls leaves in a
    [vec3], [float] or [bool] uniform. *)
Definition uniform_name (c : Call) : option string :=
  match c with
  | setMat4Value n _ | setIntValue n _ | setBoolValue n _ | setFloatValue n _
  | setVec2Value n _ | setVec3Value n _ | setVec4Value n _
  | setSampler2DValue n _ => Some n
  | _ => None
  end.

Definition vec3_uniform (cs : list Call) (name : string) : option vec3 :=
  fold_left (fun acc c =>
               match c with
               | setVec3Value n v => if String.eqb n name then Some v else acc
               | _ => acc
               end) cs None.

Definition bool_uniform (cs : list Call) (name : string) : option bool :=
  fold_left (fun acc c =>
               match c with
               | setBoolValue n v => if String.eqb n name then Some v else acc
               | _ => acc
               end) cs None.

(** The uniform [name] ends up with the value [v]. *)
Definition sets_vec3 (cs : list Call) (name : string) (v : vec3) : Prop :=
  exists v', vec3_uniform cs name = Some v' /\ vec3_eq v' v.

(** The calls of [BindGLTextures] for the entries [l], the first of them in
    slot [i]. *)
Fixpoint binding_calls (i : Z) (l : list TEXTURE_INFO) : list Call :=
  match l with
  | [] => []
  | e :: l' =>
      glActiveTexture (GL_TEXTURE0 + i) :: glBindTexture GL_TEXTURE_2D (ID e)
      :: binding_calls (i + 1) l'
  end.

(** The state between two loads of [LoadSceneTextures], started in [w0]: the
    array has its [TEXTURE_SLOTS] slots, at most [n] of them are registered,
    and calls were only added. *)
Definition loaded_up_to (n : Z) (w0 w : World) : Prop :=
  length (m_textureIDs (self w)) = TEXTURE_SLOTS
  /\ 0 <= m_loadedTextures (self w) <= n
  /\ m_pShaderManager (self w) = m_pShaderManager (self w0)
  /\ m_objectMaterials (self w) = m_objectMaterials (self w0)
  /\ exists cs, calls w = calls w0 ++ cs.

(** The state [PrepareScene] leaves: ready, and every material the scene
    asks for is defined. *)
Definition prepared (s : SceneManager) : Prop :=
  ready s
  /\ forall t, t ∈ ["ceramic"; "glass"; "cardboard"] ->
       exists e, e ∈ m_objectMaterials s /\ material_tag e = t.

(** The shape the three search loops share: the condition
    [index < size && bFound == false], and the body that reads the entry at
    [index] and either records a hit or moves on. *)
Definition search_cond {R} (size : SceneManager -> Z)
    (l : search R) (s : SceneManager) : bool :=
  (index l <? size s) && negb (bFound l).

Definition search_body {E R} (get : Z -> M E) (is_match : E -> bool)
    (hit : Z -> R -> E -> R) (l : search R) : M (search R) :=
  e <- get (index l) ;;
  if is_match e
  then ret (Search (hit (index l) (found l) e) (index l) true)
  else ret (Search (found l) (index l + 1) (bFound l)).

(** ** Sample worlds *)

(** A host on which every file of the textures directory decodes to an RGB
    image, [gray.png] to a one-channel image and nothing else exists; the
    driver numbers its textures from 1. *)
Definition sample_host : Host :=
  {| image_files := fun f =>
       if String.prefix "../../Utilities/textures/" f
       then Some {| width := 512; height := 512; colorChannels := 3 |}
       else if String.eqb f "gray.png"
       then Some {| width := 8; height := 8; colorChannels := 1 |}
       else None;
     texture_names := fun k => Z.of_nat (S k);
     uninitialised_material :=
       {| ambientColor := Vec3 0 0 0; ambientStrength := 0%Q;
          diffuseColor := Vec3 0 0 0; specularColor := Vec3 0 0 0;
          shininess := 0%Q; material_tag := "" |} |}.

(** A manager with a shader attached, an empty registry of [TEXTURE_SLOTS]
    slots and no material. *)
Definition sample_manager : SceneManager :=
  {| m_pShaderManager := Object;
     m_loadedTextures := 0;
     m_textureIDs := replicate TEXTURE_SLOTS {| ID := 0; tag := "" |};
     m_objectMaterials := [] |}.

Definition sample_world : World :=
  {| self := sample_manager; host := sample_host;
     names_generated := 0; calls := [] |}.

(** The world after [PrepareScene]. *)
Definition prepared_world : World :=
  Eval vm_compute in
    match PrepareScene sample_world with
    | Ok (_, w) => w
    | _ => sample_world
    end.

(** The prepared object on another host (no image file, other texture names,
    other content of uninitialised memory), with another history of calls. *)
Definition replayed_world : World :=
  {| self := self prepared_world;
     host := {| image_files := fun _ => None;
                texture_names := fun _ => 0;
                uninitialised_material := glassMaterial |};
     names_generated := 7;
     calls := [DrawMesh TorusMesh] |}.

(** ** Invariants, frames and the loading table *)

(** [m] keeps [I] on the fields of the object whenever it returns. *)
Definition preserves {A} (I : SceneManager -> Prop) (m : M A) : Prop :=
  forall w a w', I (self w) -> m w = Ok (a, w') -> I (self w').

(** [m] leaves the fields of the object as they are whenever it returns. *)
Definition read_only {A} (m : M A) : Prop :=
  forall w a w', m w = Ok (a, w') -> self w' = self w.

(** The registry uses between none and all of the [n] slots of its array. *)
Definition registry_in_bounds (n : nat) (s : SceneManager) : Prop :=
  length (m_textureIDs s) = n /\ 0 <= m_loadedTextures s <= Z.of_nat n.

(** The file names and tags [LoadSceneTextures] passes to [CreateGLTexture],
    in the order of its ten calls. *)
Definition scene_textures : list (string * string) :=
  [ ("../../Utilities/textures/granite1.jpg", "counter");
    ("../../Utilities/textures/tiles.jpg", "wall");
    ("../../Utilities/textures/Rubiks_white.jpg", "box_white");
    ("../../Utilities/textures/Rubiks_red.jpg", "box_red");
    ("../../Utilities/textures/Rubiks_blue.jpg", "box_blue");
    ("../../Utilities/textures/cardboard.jpg", "paperbag");
    ("../../Utilities/textures/wood.jpg", "bagclip");
    ("../../Utilities/textures/bagtag.jpg", "label");
    ("../../Utilities/textures/wax.jpg", "candlewax");
    ("../../Utilities/textures/ceramic.jpg", "mug") ].

(** [CreateGLTexture] called on every row of a table, the results dropped,
    and then [k]: [LoadSceneTextures] is [load_then scene_textures
    BindGLTextures], call for call. *)
Fixpoint load_then (table : list (string * string)) (k : M unit) : M unit :=
  match table with
  | [] => k
  | (filename, t) :: rest => CreateGLTexture filename t ;; load_then rest k
  end.

(** The entries the rows of a table add to the registry on the host [h], the
    driver having handed out [g] names before: a row whose file does not
    decode adds nothing, a row whose image has neither three nor four
    channels adds nothing but uses up a name, any other row adds its tag
    with the next name. *)
Fixpoint loaded_entries (h : Host) (g : nat) (table : list (string * string))
  : list TEXTURE_INFO :=
  match table with
  | [] => []
  | (filename, t) :: rest =>
      match image_files h filename with
      | None => loaded_entries h g rest
      | Some img =>
          if usable_image (Some img)
          then {| ID := texture_names h g; tag := t |}
               :: loaded_entries h (S g) rest
          else loaded_entries h (S g) rest
      end
  end.

(** The calls of [CreateGLTexture] up to the test of the channels, and the
    upload that follows for three or four channels. *)
Definition decode_calls (filename : string) (img : Image) (name : GLuint)
  : list Call :=
  [ stbi_set_flip_vertically_on_load true;
    cout_loaded filename (width img) (height img) (colorChannels img);
    glGenTextures name;
    glBindTexture GL_TEXTURE_2D name;
    glTexParameteri GL_TEXTURE_2D GL_TEXTURE_WRAP_S GL_REPEAT;
    glTexParameteri GL_TEXTURE_2D GL_TEXTURE_WRAP_T GL_REPEAT;
    glTexParameteri GL_TEXTURE_2D GL_TEXTURE_MIN_FILTER GL_LINEAR;
    glTexParameteri GL_TEXTURE_2D GL_TEXTURE_MAG_FILTER GL_LINEAR ].

Definition upload_call (img : Image) : Call :=
  if colorChannels img =? 3
  then glTexImage2D GL_TEXTURE_2D 0 GL_RGB8 (width img) (height img) 0
                    GL_RGB GL_UNSIGNED_BYTE img
  else glTexImage2D GL_TEXTURE_2D 0 GL_RGBA8 (width img) (height img) 0
                    GL_RGBA GL_UNSIGNED_BYTE img.

(** [m], run in a state that satisfies [C], leaves the object as it is and
    adds the calls [cs]. *)
Definition emits_in (C : SceneManager -> Prop) (m : M unit) (cs : list Call)
  : Prop :=
  forall w, C (self w) -> m w = Ok (tt, add_calls cs w).

(** No shader manager is attached and no material is defined. *)
Definition bare (s : SceneManager) : Prop :=
  m_pShaderManager s = NULL /\ m_objectMaterials s = [].

(** The value a call hands to a sampler, and the tag a step asks a texture
    for. *)
Definition sampler_value (c : Call) : option Z :=
  match c with
  | setSampler2DValue _ v => Some v
  | _ => None
  end.

Definition texture_look (l : Look) : option string :=
  match l with
  | Texture t => Some t
  | _ => None
  end.

Definition script_tags (script : list Step) : list string :=
  flat_map (fun st => omap texture_look (step_look st)) script.

(** A manager without a shader. *)
Definition detached (s : SceneManager) : SceneManager :=
  {| m_pShaderManager := NULL;
     m_loadedTextures := m_loadedTextures s;
     m_textureIDs := m_textureIDs s;
     m_objectMaterials := m_objectMaterials s |}.

Definition detached_world : World :=
  {| self := detached (self prepared_world); host := sample_host;
     names_generated := 10; calls := [] |}.

(** A host on which the image of the mug is missing and the one of the wall
    is a grey-scale image. *)
Definition poor_host : Host :=
  {| image_files := fun f =>
       if String.eqb f "../../Utilities/textures/ceramic.jpg" then None
       else if String.eqb f "../../Utilities/textures/tiles.jpg"
       then Some {| width := 8; height := 8; colorChannels := 1 |}
       else image_files sample_host f;
     texture_names := texture_names sample_host;
     uninitialised_material := uninitialised_material sample_host |}.

Definition poor_world : World :=
  {| self := sample_manager; host := poor_host;
     names_generated := 0; calls := [] |}.

(** A registry whose only texture has the largest name a [GLuint] holds. *)
Definition last_name_world : World :=
  {| self := {| m_pShaderManager := Object;
                m_loadedTextures := 1;
                m_textureIDs :=
                  <[0%nat := {| ID := 4294967295; tag := "mug" |}]>
                    (m_textureIDs sample_manager);
                m_objectMaterials := [] |};
     host := sample_host; names_generated := 0; calls := [] |}.

(** * Proofs *)

(** ** The monad and the world *)

Lemma bind_Ok {A B} (m : M A) (f : A -> M B) w a w' :
  m w = Ok (a, w') -> bind m f w = f a w'.
Proof. intros H. unfold bind. now rewrite H. Qed.

Lemma add_calls_nil w : add_calls [] w = w.
Proof. destruct w. unfold add_calls. simpl. now rewrite app_nil_r. Qed.

Lemma add_calls_app cs1 cs2 w :
  add_calls cs2 (add_calls cs1 w) = add_calls (cs1 ++ cs2) w.
Proof. unfold add_calls. simpl. now rewrite app_assoc. Qed.

Lemma new_calls_add w cs : new_calls w (add_calls cs w) = cs.
Proof. unfold new_calls. simpl. apply drop_app_length. Qed.

Lemma while_exit {L} fuel (cond : L -> SceneManager -> bool) body l w :
  cond l (self w) = false -> while (S fuel) cond body l w = Ok (l, w).
Proof. intros H. simpl. unfold bind, get_self, ret. now rewrite H. Qed.

Lemma while_step {L} fuel (cond : L -> SceneManager -> bool) body l w :
  cond l (self w) = true ->
  while (S fuel) cond body l w = bind (body l) (while fuel cond body) w.
Proof. intros H. simpl. unfold bind at 1. unfold get_self. now rewrite H. Qed.

Lemma int_of_GLuint_small n : 0 <= n < 2 ^ 31 -> int_of_GLuint n = n.
Proof.
  intros H. unfold int_of_GLuint.
  rewrite Z.mod_small by lia. lia.
Qed.

(** ** The search loops *)

Section search_loop.
Context {E R : Type}.
Variables (size : SceneManager -> Z) (get : Z -> M E).
Variables (is_match : E -> bool) (hit : Z -> R -> E -> R).
Variables (P : E -> Prop) (w : World) (items : list E).
Context `{!forall e, Decision (P e)}.
Hypothesis is_match_P : forall e, is_match e = true <-> P e.
Hypothesis size_items : Z.to_nat (size (self w)) = length items.
Hypothesis get_items :
  forall i e, items !! i = Some e -> get (Z.of_nat i) w = Ok (e, w).

Lemma search_loop_from rest : forall pre fuel r,
  items = pre ++ rest -> (length rest < fuel)%nat ->
  exists l,
    while fuel (search_cond size) (search_body get is_match hit)
          (Search r (Z.of_nat (length pre)) false) w = Ok (l, w)
    /\ found l = match list_find P rest with
                 | Some (j, e) => hit (Z.of_nat (length pre + j)) r e
                 | None => r
                 end.
Proof.
  induction rest as [|e rest IH]; intros pre fuel r Hitems Hfuel.
  - destruct fuel as [|fuel]; [simpl in Hfuel; lia|].
    eexists. split.
    + apply while_exit. unfold search_cond. simpl.
      rewrite app_nil_r in Hitems. subst pre.
      apply andb_false_intro1, Z.ltb_ge. lia.
    + reflexivity.
  - destruct fuel as [|fuel]; [simpl in Hfuel; lia|]. simpl in Hfuel.
    assert (Hget : get (Z.of_nat (length pre)) w = Ok (e, w)).
    { apply get_items. subst items.
      rewrite lookup_app_r by lia. now rewrite Nat.sub_diag. }
    assert (Hlen : (length pre < length items)%nat).
    { subst items. rewrite length_app. simpl. lia. }
    rewrite while_step.
    2:{ unfold search_cond. simpl. rewrite andb_true_r. apply Z.ltb_lt. lia. }
    unfold bind at 1. unfold search_body at 1. unfold bind at 1. simpl.
    rewrite Hget. destruct (is_match e) eqn:Hm; unfold ret at 1.
    + destruct fuel as [|fuel]; [lia|].
      eexists. split.
      * apply while_exit. unfold search_cond. simpl. apply andb_false_r.
      * simpl. rewrite decide_True by now apply is_match_P.
        now rewrite Nat.add_0_r.
    + destruct (IH (pre ++ [e]) fuel r) as (l & Hl & Hfound).
      { now rewrite <- app_assoc. }
      { lia. }
      exists l. split.
      * rewrite <- Hl. f_equal. f_equal.
        rewrite length_app. simpl. lia.
      * rewrite Hfound. simpl.
        rewrite decide_False.
        2:{ intros HP. apply is_match_P in HP. congruence. }
        destruct (list_find P rest) as [[j e']|]; simpl; [|reflexivity].
        f_equal. rewrite length_app. simpl. lia.
Qed.

Lemma search_loop_all fuel r :
  (length items < fuel)%nat ->
  exists l,
    while fuel (search_cond size) (search_body get is_match hit)
          (Search r 0 false) w = Ok (l, w)
    /\ found l = match list_find P items with
                 | Some (j, e) => hit (Z.of_nat j) r e
                 | None => r
                 end.
Proof.
  intros Hfuel.
  destruct (search_loop_from items [] fuel r eq_refl Hfuel) as (l & Hl & Hf).
  exists l. split; [exact Hl | exact Hf].
Qed.
End search_loop.

(** ** Lookups in the two registries *)

Lemma length_registered s :
  within_array s -> length (registered s) = Z.to_nat (m_loadedTextures s).
Proof.
  unfold within_array, registered. intros H.
  rewrite length_take. lia.
Qed.

Lemma texture_at_Some w i e :
  m_textureIDs (self w) !! i = Some e -> texture_at (Z.of_nat i) w = Ok (e, w).
Proof.
  intros H. unfold texture_at, bind, get_self.
  destruct (Z.of_nat i <? 0) eqn:Hneg; [apply Z.ltb_lt in Hneg; lia|].
  rewrite Nat2Z.id, H. reflexivity.
Qed.

Lemma texture_at_registered w i e :
  registered (self w) !! i = Some e -> texture_at (Z.of_nat i) w = Ok (e, w).
Proof.
  unfold registered. intros [H _]%lookup_take_Some. now apply texture_at_Some.
Qed.

Lemma material_at_Some w i e :
  m_objectMaterials (self w) !! i = Some e ->
  material_at (Z.of_nat i) w = Ok (e, w).
Proof.
  intros H. unfold material_at, bind, get_self.
  destruct (Z.of_nat i <? 0) eqn:Hneg; [apply Z.ltb_lt in Hneg; lia|].
  rewrite Nat2Z.id, H. reflexivity.
Qed.

Lemma tag_eqb_iff t e : String.eqb (tag e) t = true <-> tag e = t.
Proof. apply String.eqb_eq. Qed.

Lemma material_tag_eqb_iff t e :
  String.eqb (material_tag e) t = true <-> material_tag e = t.
Proof. apply String.eqb_eq. Qed.

Lemma FindTextureSlot_run w t :
  within_array (self w) ->
  FindTextureSlot t w = Ok (texture_slot (self w) t, w).
Proof.
  intros Hwf.
  destruct (search_loop_all m_loadedTextures texture_at
              (fun e => String.eqb (tag e) t) (fun i _ _ => i)
              (fun e => tag e = t) w (registered (self w))
              (tag_eqb_iff t)
              (eq_sym (length_registered _ Hwf))
              (texture_at_registered w)
              (loop_fuel (m_loadedTextures (self w))) (-1))
    as (l & Hl & Hfound).
  { rewrite length_registered by assumption. unfold loop_fuel. lia. }
  unfold FindTextureSlot, bind at 1, get_self.
  erewrite bind_Ok by exact Hl.
  unfold ret, texture_slot. rewrite Hfound.
  now destruct (list_find _ _) as [[j e]|].
Qed.

Lemma FindTextureID_run w t :
  within_array (self w) ->
  FindTextureID t w =
    Ok (match list_find (fun e => tag e = t) (registered (self w)) with
        | Some (_, e) => int_of_GLuint (ID e)
        | None => -1
        end, w).
Proof.
  intros Hwf.
  destruct (search_loop_all m_loadedTextures texture_at
              (fun e => String.eqb (tag e) t)
              (fun _ _ e => int_of_GLuint (ID e))
              (fun e => tag e = t) w (registered (self w))
              (tag_eqb_iff t)
              (eq_sym (length_registered _ Hwf))
              (texture_at_registered w)
              (loop_fuel (m_loadedTextures (self w))) (-1))
    as (l & Hl & Hfound).
  { rewrite length_registered by assumption. unfold loop_fuel. lia. }
  unfold FindTextureID, bind at 1, get_self.
  erewrite bind_Ok by exact Hl.
  unfold ret. rewrite Hfound.
  now destruct (list_find _ _) as [[j e]|].
Qed.

Lemma FindMaterial_run w t m :
  FindMaterial t m w =
    Ok (match m_objectMaterials (self w) with
        | [] => (false, m)
        | _ :: _ =>
            (true,
             match list_find (fun e => material_tag e = t)
                             (m_objectMaterials (self w)) with
             | Some (_, e) => copy_material e m
             | None => m
             end)
        end, w).
Proof.
  unfold FindMaterial, bind at 1, get_self.
  destruct (m_objectMaterials (self w)) as [|e0 mats] eqn:Hmats.
  { unfold materials_size. rewrite Hmats. reflexivity. }
  assert (Hsize : (materials_size (self w) =? 0) = false).
  { unfold materials_size. rewrite Hmats. apply Z.eqb_neq. simpl. lia. }
  rewrite Hsize.
  destruct (search_loop_all materials_size material_at
              (fun e => String.eqb (material_tag e) t)
              (fun _ r e => copy_material e r)
              (fun e => material_tag e = t) w (m_objectMaterials (self w))
              (material_tag_eqb_iff t)
              (Nat2Z.id _)
              (material_at_Some w)
              (loop_fuel (materials_size (self w))) m)
    as (l & Hl & Hfound).
  { unfold loop_fuel, materials_size. lia. }
  erewrite bind_Ok by exact Hl.
  unfold ret. rewrite Hfound, Hmats. reflexivity.
Qed.

(** ** Claims on the texture registry *)

(** C2, as the code has it.  For every tag and every registry that lies
    within its array, [FindTextureSlot] returns the index of the first
    registered entry (the first [m_loadedTextures] slots) whose tag is the
    argument, and [FindTextureID] returns the ID stored in that same entry
    converted to the [int] the function returns, which is the ID itself when
    it is below 2^31; both return -1 when no registered entry has the tag. *)
Theorem FindTexture_first_match (w : World) (t : string) :
  within_array (self w) ->
  (exists i e,
      first_at (fun e => tag e = t) (registered (self w)) i e
      /\ FindTextureSlot t w = Ok (Z.of_nat i, w)
      /\ FindTextureID t w = Ok (int_of_GLuint (ID e), w)
      /\ (0 <= ID e < 2 ^ 31 -> FindTextureID t w = Ok (ID e, w)))
  \/ ((forall e, e ∈ registered (self w) -> tag e <> t)
      /\ FindTextureSlot t w = Ok (-1, w)
      /\ FindTextureID t w = Ok (-1, w)).
Proof.
  intros Hwf.
  pose proof (FindTextureSlot_run w t Hwf) as Hslot.
  pose proof (FindTextureID_run w t Hwf) as Hid.
  unfold texture_slot in Hslot.
  destruct (list_find (fun e => tag e = t) (registered (self w)))
    as [[i e]|] eqn:Hfind.
  - left. exists i, e. apply list_find_Some in Hfind as (Hi & Ht & Hleast).
    repeat split; try assumption.
    + intros j e' Hj He'. now apply (Hleast j e').
    + intros Hsmall. now rewrite Hid, int_of_GLuint_small.
  - right. apply list_find_None in Hfind.
    repeat split; try assumption.
    intros e He. revert e He. now apply Forall_forall.
Qed.

Lemma FindTexture_first_match_witness :
  within_array (self prepared_world)
  /\ ((exists i e,
         first_at (fun e => tag e = "mug") (registered (self prepared_world)) i e
         /\ FindTextureSlot "mug" prepared_world = Ok (Z.of_nat i, prepared_world)
         /\ FindTextureID "mug" prepared_world
            = Ok (int_of_GLuint (ID e), prepared_world)
         /\ (0 <= ID e < 2 ^ 31 ->
             FindTextureID "mug" prepared_world = Ok (ID e, prepared_world)))
      \/ ((forall e, e ∈ registered (self prepared_world) -> tag e <> "mug")
          /\ FindTextureSlot "mug" prepared_world = Ok (-1, prepared_world)
          /\ FindTextureID "mug" prepared_world = Ok (-1, prepared_world))).
Proof.
  split; [vm_compute; discriminate|].
  apply (FindTexture_first_match prepared_world "mug").
  vm_compute. discriminate.
Defined.

(** C2 as stated fails: for a registered texture whose ID is 4294967295,
    [FindTextureID] does not return the stored ID but -1, the value it
    returns for a tag that is not registered. *)
Lemma FindTextureID_wraps_last_name :
  within_array (self last_name_world)
  /\ registered (self last_name_world) = [{| ID := 4294967295; tag := "mug" |}]
  /\ returned (FindTextureSlot "mug" last_name_world) = Some 0
  /\ returned (FindTextureID "mug" last_name_world) = Some (-1)
  /\ returned (FindTextureID "mug" last_name_world) <> Some 4294967295
  /\ returned (FindTextureID "marble" last_name_world) = Some (-1).
Proof.
  split; [vm_compute; discriminate|].
  repeat split; try reflexivity. vm_compute. discriminate.
Qed.

Lemma set_texture_at_run w i e f :
  m_textureIDs (self w) !! i = Some e ->
  set_texture_at (Z.of_nat i) f w =
    Ok (tt, {| self := {| m_pShaderManager := m_pShaderManager (self w);
                          m_loadedTextures := m_loadedTextures (self w);
                          m_textureIDs := <[i := f e]> (m_textureIDs (self w));
                          m_objectMaterials := m_objectMaterials (self w) |};
               host := host w;
               names_generated := names_generated w;
               calls := calls w |}).
Proof.
  intros H. unfold set_texture_at.
  rewrite (bind_Ok _ _ _ _ _ (texture_at_Some w i e H)).
  unfold bind, get_self, put_self. now rewrite Nat2Z.id.
Qed.

Lemma CreateGLTexture_missing w filename t :
  image_files (host w) filename = None ->
  CreateGLTexture filename t w =
    Ok (false, add_calls [stbi_set_flip_vertically_on_load true;
                          cout_could_not_load filename] w).
Proof.
  intros H. unfold CreateGLTexture, bind, emit, stbi_load, get_host, ret.
  simpl. rewrite H. now rewrite add_calls_app.
Qed.

Lemma CreateGLTexture_channels w filename t img :
  image_files (host w) filename = Some img ->
  colorChannels img <> 3 -> colorChannels img <> 4 ->
  exists w',
    CreateGLTexture filename t w = Ok (false, w')
    /\ self w' = self w
    /\ last (new_calls w w') = Some (cout_not_implemented (colorChannels img))
    /\ host w' = host w
    /\ exists cs, calls w' = calls w ++ cs.
Proof.
  intros H H3 H4.
  apply Z.eqb_neq in H3, H4.
  unfold CreateGLTexture, bind, emit, stbi_load, get_host, ret, glGenTextures_1.
  simpl. rewrite H, H3, H4. eexists. split; [reflexivity|]. split; [reflexivity|].
  unfold new_calls. simpl. rewrite <- !app_assoc. rewrite drop_app_length.
  split; [reflexivity|]. split; [reflexivity|]. eexists. reflexivity.
Qed.

Lemma CreateGLTexture_registers w filename t img :
  image_files (host w) filename = Some img ->
  colorChannels img = 3 \/ colorChannels img = 4 ->
  0 <= m_loadedTextures (self w) < Z.of_nat (length (m_textureIDs (self w))) ->
  exists w',
    CreateGLTexture filename t w = Ok (true, w')
    /\ self w' =
       {| m_pShaderManager := m_pShaderManager (self w);
          m_loadedTextures := m_loadedTextures (self w) + 1;
          m_textureIDs :=
            <[Z.to_nat (m_loadedTextures (self w)) :=
                {| ID := texture_names (host w) (names_generated w); tag := t |}]>
              (m_textureIDs (self w));
          m_objectMaterials := m_objectMaterials (self w) |}
    /\ host w' = host w
    /\ exists cs, calls w' = calls w ++ cs.
Proof.
  intros H Hc Hn.
  destruct (lookup_lt_is_Some_2 (m_textureIDs (self w))
              (Z.to_nat (m_loadedTextures (self w)))) as [e He]; [lia|].
  set (n := Z.to_nat (m_loadedTextures (self w))) in *.
  assert (Hn' : m_loadedTextures (self w) = Z.of_nat n) by lia.
  unfold CreateGLTexture.
  unfold bind at 1. unfold emit at 1.
  unfold bind at 1. unfold stbi_load, bind at 1, get_host, ret at 1. simpl.
  rewrite H.
  assert (Hreg : forall w1 name,
    self w1 = self w ->
    exists w',
      (emit (glGenerateMipmap GL_TEXTURE_2D) ;;
       emit (stbi_image_free img) ;;
       emit (glBindTexture GL_TEXTURE_2D 0) ;;
       s <- get_self ;;
       set_texture_at (m_loadedTextures s) (with_ID name) ;;
       set_texture_at (m_loadedTextures s) (with_tag t) ;;
       set_loadedTextures (m_loadedTextures s + 1) ;;
       ret true) w1 = Ok (true, w')
      /\ self w' =
         {| m_pShaderManager := m_pShaderManager (self w);
            m_loadedTextures := m_loadedTextures (self w) + 1;
            m_textureIDs := <[n := {| ID := name; tag := t |}]> (m_textureIDs (self w));
            m_objectMaterials := m_objectMaterials (self w) |}
      /\ host w' = host w1
      /\ exists cs, calls w' = calls w1 ++ cs).
  { intros w1 name Hself.
    unfold bind at 1. unfold emit at 1.
    unfold bind at 1. unfold emit at 1.
    unfold bind at 1. unfold emit at 1.
    unfold bind at 1. unfold get_self at 1. simpl self.
    rewrite Hself, Hn'.
    erewrite bind_Ok.
    2:{ apply set_texture_at_run with (e := e). simpl. now rewrite Hself. }
    erewrite bind_Ok.
    2:{ apply set_texture_at_run with (e := with_ID name e). simpl.
        rewrite Hself. apply list_lookup_insert_eq.
        now apply lookup_lt_Some in He. }
    unfold set_loadedTextures, bind, get_self, put_self, ret. simpl.
    eexists. split; [reflexivity|]. simpl.
    split; [|split; [reflexivity|]].
    - rewrite Hself, list_insert_insert_eq. reflexivity.
    - rewrite <- !app_assoc. eexists. reflexivity. }
  unfold bind at 1. unfold emit at 1.
  unfold bind at 1. unfold glGenTextures_1 at 1. simpl.
  do 5 (unfold bind at 1; unfold emit at 1).
  destruct Hc as [Hc|Hc]; rewrite Hc; simpl;
    unfold bind at 1; unfold emit at 1;
    match goal with
    | |- context [bind _ _ ?w1] =>
        destruct (Hreg w1 (texture_names (host w) (names_generated w)) eq_refl)
          as (w' & Hrun & Hself & Hhost & cs & Hcalls)
    end;
    exists w'; (split; [exact Hrun | split; [exact Hself | split; [exact Hhost|]]]);
    rewrite Hcalls; simpl; rewrite <- !app_assoc; eexists; reflexivity.
Qed.

(** C1, as the code has it.  [CreateGLTexture] returns false, after a message
    on [std::cout] and without touching the object, when the image cannot be
    loaded or has neither three nor four colour channels; when it is loaded
    with three or four channels and the next slot lies in the array, it
    returns true, the entry with the new texture name and the tag is written
    at index [m_loadedTextures], and [m_loadedTextures] grows by one. *)
Theorem CreateGLTexture_outcome (w : World) (filename t : string) :
  (usable_image (image_files (host w) filename) = false ->
   exists w',
     CreateGLTexture filename t w = Ok (false, w')
     /\ self w' = self w
     /\ exists msg, last (new_calls w w') = Some msg /\ is_failure_message msg)
  /\ (usable_image (image_files (host w) filename) = true ->
      0 <= m_loadedTextures (self w) < Z.of_nat (length (m_textureIDs (self w))) ->
      exists w',
        CreateGLTexture filename t w = Ok (true, w')
        /\ m_loadedTextures (self w') = m_loadedTextures (self w) + 1
        /\ m_textureIDs (self w') =
           <[Z.to_nat (m_loadedTextures (self w)) :=
               {| ID := texture_names (host w) (names_generated w); tag := t |}]>
             (m_textureIDs (self w))
        /\ registered (self w') =
           registered (self w)
           ++ [{| ID := texture_names (host w) (names_generated w); tag := t |}]).
Proof.
  split.
  - intros Hu. destruct (image_files (host w) filename) as [img|] eqn:Himg.
    + simpl in Hu. apply orb_false_elim in Hu as [H3 H4].
      apply Z.eqb_neq in H3, H4.
      destruct (CreateGLTexture_channels w filename t img Himg H3 H4)
        as (w' & Hrun & Hself & Hlast & _).
      exists w'. repeat split; try assumption.
      eexists. split; [exact Hlast | exact I].
    + rewrite (CreateGLTexture_missing w filename t Himg).
      eexists. split; [reflexivity|]. split; [reflexivity|].
      rewrite new_calls_add. eexists. split; [reflexivity | exact I].
  - intros Hu Hn. destruct (image_files (host w) filename) as [img|] eqn:Himg;
      [|discriminate].
    simpl in Hu. apply orb_true_iff in Hu.
    rewrite !Z.eqb_eq in Hu.
    destruct (CreateGLTexture_registers w filename t img Himg Hu Hn)
      as (w' & Hrun & Hself & _).
    exists w'. split; [exact Hrun|]. rewrite Hself. simpl.
    split; [reflexivity|]. split; [reflexivity|].
    unfold registered. simpl.
    replace (Z.to_nat (m_loadedTextures (self w) + 1))
      with (S (Z.to_nat (m_loadedTextures (self w)))) by lia.
    erewrite take_S_r.
    2:{ apply list_lookup_insert_eq. lia. }
    now rewrite take_insert_ge by lia.
Qed.

Lemma CreateGLTexture_outcome_witness :
  exists w',
    CreateGLTexture "../../Utilities/textures/ceramic.jpg" "mug" sample_world
      = Ok (true, w')
    /\ m_loadedTextures (self w') = 1
    /\ m_textureIDs (self w')
       = <[0%nat := {| ID := 1; tag := "mug" |}]> (m_textureIDs sample_manager)
    /\ registered (self w') = [{| ID := 1; tag := "mug" |}].
Proof.
  apply (proj2 (CreateGLTexture_outcome sample_world
                  "../../Utilities/textures/ceramic.jpg" "mug")).
  - reflexivity.
  - simpl. lia.
Defined.

(** C1 as stated fails: an image that is loaded but has one colour channel
    makes [CreateGLTexture] return false. *)
Lemma CreateGLTexture_false_on_loaded_image :
  image_files (host sample_world) "gray.png"
    = Some {| width := 8; height := 8; colorChannels := 1 |}
  /\ returned (CreateGLTexture "gray.png" "gray" sample_world) = Some false.
Proof. split; reflexivity. Qed.

(** ** Shader state *)

Lemma shader_run w c :
  m_pShaderManager (self w) = Object -> shader c w = Ok (tt, add_calls [c] w).
Proof. intros H. unfold shader, bind, get_self. now rewrite H. Qed.

Lemma shader_null w c :
  m_pShaderManager (self w) = NULL -> shader c w = Undefined.
Proof. intros H. unfold shader, bind, get_self. now rewrite H. Qed.

Lemma if_shader_run w body :
  m_pShaderManager (self w) = Object -> if_shader body w = body w.
Proof. intros H. unfold if_shader, bind, get_self. now rewrite H. Qed.

Lemma if_shader_null w body :
  m_pShaderManager (self w) = NULL -> if_shader body w = Ok (tt, w).
Proof. intros H. unfold if_shader, bind, get_self. now rewrite H. Qed.

(** Runs the next call of a sequence with the lemma [H] on it. *)
Ltac step_with H :=
  erewrite bind_Ok; [| apply H; simpl; try assumption ].

Lemma SetTransformations_run w scaleXYZ X Y Z positionXYZ :
  m_pShaderManager (self w) = Object ->
  SetTransformations scaleXYZ X Y Z positionXYZ w =
    Ok (tt, add_calls
              [setMat4Value g_ModelName (modelView scaleXYZ X Y Z positionXYZ)] w).
Proof.
  intros H. unfold SetTransformations.
  rewrite if_shader_run by assumption. now apply shader_run.
Qed.

Lemma SetShaderColor_run w r g b a :
  m_pShaderManager (self w) = Object ->
  SetShaderColor r g b a w =
    Ok (tt, add_calls [setIntValue g_UseTextureName 0;
                       setVec4Value g_ColorValueName (Vec4 r g b a)] w).
Proof.
  intros H. unfold SetShaderColor.
  rewrite if_shader_run by assumption.
  step_with shader_run.
  rewrite shader_run by assumption. now rewrite add_calls_app.
Qed.

Lemma SetShaderTexture_run w t :
  ready (self w) ->
  SetShaderTexture t w =
    Ok (tt, add_calls [setIntValue g_UseTextureName 1;
                       setSampler2DValue g_TextureValueName
                                         (texture_slot (self w) t)] w).
Proof.
  intros [H Hwf]. unfold SetShaderTexture.
  rewrite if_shader_run by assumption.
  step_with shader_run.
  step_with FindTextureSlot_run.
  rewrite shader_run by assumption. now rewrite add_calls_app.
Qed.

Lemma SetTextureUVScale_run w u v :
  m_pShaderManager (self w) = Object ->
  SetTextureUVScale u v w =
    Ok (tt, add_calls [setVec2Value "UVscale" (Vec2 u v)] w).
Proof.
  intros H. unfold SetTextureUVScale.
  rewrite if_shader_run by assumption. now apply shader_run.
Qed.

Lemma SetShaderMaterial_run w t :
  m_pShaderManager (self w) = Object ->
  SetShaderMaterial t w =
    Ok (tt, add_calls (look_calls (self w) (host w) (Material t)) w).
Proof.
  intros H. unfold SetShaderMaterial, bind at 1, get_self.
  unfold look_calls, material_for, materials_size.
  destruct (m_objectMaterials (self w)) as [|e0 mats] eqn:Hmats.
  { simpl. unfold ret. now rewrite add_calls_nil. }
  replace (0 <? Z.of_nat (length (e0 :: mats))) with true
    by (symmetry; apply Z.ltb_lt; simpl; lia).
  unfold bind at 1, get_host.
  rewrite (bind_Ok _ _ _ _ _ (FindMaterial_run w t _)).
  rewrite Hmats. cbv beta iota.
  do 4 step_with shader_run.
  rewrite shader_run by assumption.
  rewrite !add_calls_app. reflexivity.
Qed.

(** ** Sequences of calls that leave the object alone *)

Lemma emits_bind m n f g :
  emits m f -> emits n g -> emits (m ;; n) (fun s h => f s h ++ g s h).
Proof.
  intros Hm Hn w Hw. unfold bind. rewrite (Hm w Hw).
  rewrite (Hn (add_calls (f (self w) (host w)) w)) by exact Hw.
  now rewrite add_calls_app.
Qed.

Lemma emits_ext m f g :
  emits m f -> (forall s h, f s h = g s h) -> emits m g.
Proof. intros Hm Hfg w Hw. rewrite <- Hfg. now apply Hm. Qed.

Lemma emits_SetTransformations scaleXYZ X Y Z positionXYZ :
  emits (SetTransformations scaleXYZ X Y Z positionXYZ)
        (fun _ _ =>
           [setMat4Value g_ModelName (modelView scaleXYZ X Y Z positionXYZ)]).
Proof. intros w [H _]. now apply SetTransformations_run. Qed.

Lemma emits_SetShaderTexture t :
  emits (SetShaderTexture t) (fun s h => look_calls s h (Texture t)).
Proof. intros w H. now apply SetShaderTexture_run. Qed.

Lemma emits_SetShaderMaterial t :
  emits (SetShaderMaterial t) (fun s h => look_calls s h (Material t)).
Proof. intros w [H _]. now apply SetShaderMaterial_run. Qed.

Lemma emits_SetShaderColor r g b a :
  emits (SetShaderColor r g b a) (fun s h => look_calls s h (Color r g b a)).
Proof. intros w [H _]. now apply SetShaderColor_run. Qed.

Lemma emits_SetTextureUVScale u v :
  emits (SetTextureUVScale u v) (fun s h => look_calls s h (UVScale u v)).
Proof. intros w [H _]. now apply SetTextureUVScale_run. Qed.

Lemma emits_DrawMesh m : emits (emit (DrawMesh m)) (fun _ _ => [DrawMesh m]).
Proof. intros w _. reflexivity. Qed.

Create HintDb scene discriminated.
#[local] Hint Resolve emits_SetTransformations emits_SetShaderTexture
  emits_SetShaderMaterial emits_SetShaderColor emits_SetTextureUVScale
  emits_DrawMesh : scene.

(** Follows a script call by call, then compares the calls collected with the
    steps of the scene. *)
Ltac follow_script :=
  eapply emits_ext;
  [ repeat (eapply emits_bind; [solve [auto with scene] |]);
    solve [auto with scene]
  | intros s h; unfold step_calls; simpl flat_map;
    rewrite ?app_nil_r, <- ?app_assoc; reflexivity ].

Lemma RenderCounter_emits :
  emits RenderCounter (fun s h => flat_map (step_calls s h) counter_steps).
Proof. unfold RenderCounter. follow_script. Qed.

Lemma RenderWall_emits :
  emits RenderWall (fun s h => flat_map (step_calls s h) wall_steps).
Proof. unfold RenderWall. follow_script. Qed.

Lemma RenderMug_emits :
  emits RenderMug (fun s h => flat_map (step_calls s h) mug_steps).
Proof. unfold RenderMug. follow_script. Qed.

Lemma RenderCandle_emits :
  emits RenderCandle (fun s h => flat_map (step_calls s h) candle_steps).
Proof. unfold RenderCandle. follow_script. Qed.

Lemma RenderBag_emits :
  emits RenderBag (fun s h => flat_map (step_calls s h) bag_steps).
Proof. unfold RenderBag. follow_script. Qed.

Lemma RenderRubiks_emits :
  emits RenderRubiks (fun s h => flat_map (step_calls s h) rubiks_steps).
Proof. unfold RenderRubiks. follow_script. Qed.

Lemma RenderScene_emits : emits RenderScene scene_calls.
Proof.
  unfold RenderScene. eapply emits_ext.
  - eapply emits_bind; [apply RenderCounter_emits|].
    eapply emits_bind; [apply RenderWall_emits|].
    eapply emits_bind; [apply RenderMug_emits|].
    eapply emits_bind; [apply RenderCandle_emits|].
    eapply emits_bind; [apply RenderBag_emits|].
    apply RenderRubiks_emits.
  - intros s h. unfold scene_calls, scene_script.
    now rewrite !flat_map_app.
Qed.

(** ** Claims on the material registry *)

Lemma no_match_find {E} (P : E -> Prop) `{!forall e, Decision (P e)} (l : list E) :
  (forall e, e ∈ l -> ~ P e) -> list_find P l = None.
Proof. intros Hno. apply list_find_None, Forall_forall. exact Hno. Qed.

(** C3.  [FindMaterial] returns true exactly when the material list is not
    empty, whether or not a tag matches; when no entry matches, the output
    parameter comes back as it was passed in, so that [SetShaderMaterial],
    called with an unknown tag on a non-empty list, hands the five fields of
    its uninitialised local [OBJECT_MATERIAL] to the shader. *)
Theorem FindMaterial_true_without_match (w : World) (t : string) :
  (forall m, exists b m',
      FindMaterial t m w = Ok ((b, m'), w)
      /\ (b = true <-> m_objectMaterials (self w) <> [])
      /\ ((forall e, e ∈ m_objectMaterials (self w) -> material_tag e <> t) ->
          m' = m))
  /\ (m_objectMaterials (self w) <> [] ->
      m_pShaderManager (self w) = Object ->
      (forall e, e ∈ m_objectMaterials (self w) -> material_tag e <> t) ->
      SetShaderMaterial t w =
        Ok (tt, add_calls
                  (material_calls (uninitialised_material (host w))) w)).
Proof.
  split.
  - intros m. rewrite FindMaterial_run.
    destruct (m_objectMaterials (self w)) as [|e0 mats] eqn:Hmats.
    + exists false, m. repeat split; congruence.
    + eexists true, _. split; [reflexivity|]. split; [split; congruence|].
      intros Hno. now rewrite (no_match_find _ _ Hno).
  - intros Hne Hsh Hno. rewrite SetShaderMaterial_run by assumption.
    unfold look_calls, material_for.
    rewrite (no_match_find _ _ Hno).
    destruct (m_objectMaterials (self w)); [congruence | reflexivity].
Qed.

Lemma FindMaterial_true_without_match_witness :
  SetShaderMaterial "marble" prepared_world =
    Ok (tt, add_calls
              (material_calls (uninitialised_material (host prepared_world)))
              prepared_world).
Proof.
  apply (proj2 (FindMaterial_true_without_match prepared_world "marble")).
  - discriminate.
  - reflexivity.
  - intros e He. vm_compute in He.
    repeat (apply elem_of_cons in He as [->|He]; [discriminate|]).
    now apply elem_of_nil in He.
Defined.

Lemma DefineObjectMaterials_run w :
  DefineObjectMaterials w =
    Ok (tt, {| self := {| m_pShaderManager := m_pShaderManager (self w);
                          m_loadedTextures := m_loadedTextures (self w);
                          m_textureIDs := m_textureIDs (self w);
                          m_objectMaterials :=
                            m_objectMaterials (self w)
                            ++ [glassMaterial; ceramicMaterial; cardboardMaterial] |};
               host := host w;
               names_generated := names_generated w;
               calls := calls w |}).
Proof.
  unfold DefineObjectMaterials, push_back_material, bind, get_self, put_self.
  simpl. now rewrite <- !app_assoc.
Qed.

(** C6.  [DefineObjectMaterials] appends the three presets "glass",
    "ceramic" and "cardboard", in this order and with their literal colours,
    strength and shininess, so that a list that was empty holds exactly these
    three; and whenever [e] is the first entry of the list whose tag is the
    one asked for, [FindMaterial] returns true and the output parameter holds
    the five fields of [e], its own tag being left as it was. *)
Theorem DefineObjectMaterials_then_FindMaterial (w : World) :
  (exists w',
      DefineObjectMaterials w = Ok (tt, w')
      /\ m_objectMaterials (self w') =
         m_objectMaterials (self w)
         ++ [glassMaterial; ceramicMaterial; cardboardMaterial]
      /\ (m_objectMaterials (self w) = [] ->
          m_objectMaterials (self w') =
            [ {| ambientColor := Vec3 0.7 0.7 0.7; ambientStrength := 0.4%Q;
                 diffuseColor := Vec3 0.8 0.8 0.8;
                 specularColor := Vec3 0.7 0.7 0.7;
                 shininess := 85.0%Q; material_tag := "glass" |};
              {| ambientColor := Vec3 0.3 0.3 0.3; ambientStrength := 0.5%Q;
                 diffuseColor := Vec3 0.4 0.4 0.4;
                 specularColor := Vec3 0.2 0.2 0.2;
                 shininess := 25.0%Q; material_tag := "ceramic" |};
              {| ambientColor := Vec3 0.2 0.2 0.2; ambientStrength := 0.2%Q;
                 diffuseColor := Vec3 0.1 0.1 0.1;
                 specularColor := Vec3 0.0 0.0 0.0;
                 shininess := 0.0%Q; material_tag := "cardboard" |} ]))
  /\ (forall t m i e,
        first_at (fun e => material_tag e = t) (m_objectMaterials (self w)) i e ->
        exists m',
          FindMaterial t m w = Ok ((true, m'), w)
          /\ ambientColor m' = ambientColor e
          /\ ambientStrength m' = ambientStrength e
          /\ diffuseColor m' = diffuseColor e
          /\ specularColor m' = specularColor e
          /\ shininess m' = shininess e
          /\ material_tag m' = material_tag m).
Proof.
  split.
  - eexists. split; [apply DefineObjectMaterials_run|]. simpl.
    split; [reflexivity|]. intros ->. reflexivity.
  - intros t m i e (Hi & Ht & Hleast).
    assert (Hfind : list_find (fun e => material_tag e = t)
                      (m_objectMaterials (self w)) = Some (i, e)).
    { apply list_find_Some. repeat split; try assumption.
      intros j e' Hj Hlt. now apply (Hleast j e'). }
    rewrite FindMaterial_run, Hfind.
    destruct (m_objectMaterials (self w)); [discriminate|].
    eexists. split; [reflexivity|]. repeat split.
Qed.

Lemma DefineObjectMaterials_then_FindMaterial_witness :
  (exists w',
      DefineObjectMaterials sample_world = Ok (tt, w')
      /\ m_objectMaterials (self w')
         = [glassMaterial; ceramicMaterial; cardboardMaterial])
  /\ exists m',
       FindMaterial "ceramic" (uninitialised_material sample_host) prepared_world
         = Ok ((true, m'), prepared_world)
       /\ ambientColor m' = ambientColor ceramicMaterial
       /\ ambientStrength m' = ambientStrength ceramicMaterial
       /\ diffuseColor m' = diffuseColor ceramicMaterial
       /\ specularColor m' = specularColor ceramicMaterial
       /\ shininess m' = shininess ceramicMaterial
       /\ material_tag m' = material_tag (uninitialised_material sample_host).
Proof.
  split.
  - destruct (proj1 (DefineObjectMaterials_then_FindMaterial sample_world))
      as (w' & Hrun & _ & Hthree).
    exists w'. split; [exact Hrun | exact (Hthree eq_refl)].
  - apply (proj2 (DefineObjectMaterials_then_FindMaterial prepared_world)
             "ceramic" _ 1%nat ceramicMaterial).
    split; [reflexivity|]. split; [reflexivity|].
    intros j e' Hj He'. destruct j as [|j]; [|lia].
    vm_compute in He'. injection He' as <-. discriminate.
Defined.

(** ** Claims on the shader state *)

(** C10.  With a shader manager attached, [SetShaderTexture] on a tag that no
    registered entry carries first sets [bUseTexture] to true and then passes
    the slot -1 as the sampler value; it makes no other call: nothing is
    written to [std::cout] and [bUseTexture] is not set back. *)
Theorem SetShaderTexture_unknown_tag (w : World) (t : string) :
  m_pShaderManager (self w) = Object ->
  within_array (self w) ->
  (forall e, e ∈ registered (self w) -> tag e <> t) ->
  FindTextureSlot t w = Ok (-1, w)
  /\ SetShaderTexture t w =
       Ok (tt, add_calls [setIntValue g_UseTextureName 1;
                          setSampler2DValue g_TextureValueName (-1)] w).
Proof.
  intros Hsh Hwf Hno.
  assert (Hslot : texture_slot (self w) t = -1).
  { unfold texture_slot. now rewrite (no_match_find _ _ Hno). }
  split.
  - rewrite FindTextureSlot_run by assumption. now rewrite Hslot.
  - rewrite SetShaderTexture_run by (split; assumption). now rewrite Hslot.
Qed.

Lemma SetShaderTexture_unknown_tag_witness :
  FindTextureSlot "marble" prepared_world = Ok (-1, prepared_world)
  /\ SetShaderTexture "marble" prepared_world =
       Ok (tt, add_calls [setIntValue g_UseTextureName 1;
                          setSampler2DValue g_TextureValueName (-1)]
                         prepared_world).
Proof.
  apply (SetShaderTexture_unknown_tag prepared_world "marble").
  - reflexivity.
  - vm_compute. discriminate.
  - intros e He. vm_compute in He.
    repeat (apply elem_of_cons in He as [->|He]; [discriminate|]).
    now apply elem_of_nil in He.
Defined.

Lemma SetupSceneLights_run w :
  m_pShaderManager (self w) = Object ->
  SetupSceneLights w =
    Ok (tt, add_calls
      [ setBoolValue g_UseLightingName true;
        setVec3Value "lightSources[0].position" (Vec3 0.0 10.0 6.0);
        setVec3Value "lightSources[0].ambientColor" (Vec3 0.2 0.2 0.2);
        setVec3Value "lightSources[0].diffuseColor" (Vec3 1.0 1.0 1.0);
        setVec3Value "lightSources[0].specularColor" (Vec3 1.0 1.0 1.0);
        setFloatValue "lightSources[0].focalStrength" 5.0%Q;
        setFloatValue "lightSources[0].specularIntensity" 5.0%Q;
        setVec3Value "lightSources[1].position" (Vec3 (-10.0) 10.0 6.0);
        setVec3Value "lightSources[1].ambientColor" (Vec3 0.2 0.2 0.2);
        setVec3Value "lightSources[1].diffuseColor" (Vec3 1.0 0.95 0.6);
        setVec3Value "lightSources[1].specularColor" (Vec3 1.0 0.95 0.6);
        setFloatValue "lightSources[1].focalStrength" 15.0%Q;
        setFloatValue "lightSources[1].specularIntensity" 5.0%Q;
        setVec3Value "lightSources[2].position" (Vec3 10.0 10.0 6.0);
        setVec3Value "lightSources[2].ambientColor" (Vec3 0.2 0.2 0.2);
        setVec3Value "lightSources[2].diffuseColor" (Vec3 1.0 0.95 0.6);
        setVec3Value "lightSources[2].specularColor" (Vec3 1.0 0.95 0.6);
        setFloatValue "lightSources[2].focalStrength" 15.0%Q;
        setFloatValue "lightSources[2].specularIntensity" 5.0%Q ] w).
Proof.
  intros H. unfold SetupSceneLights.
  do 18 step_with shader_run.
  rewrite shader_run by assumption.
  rewrite !add_calls_app. reflexivity.
Qed.

(** C5.  With a shader manager attached, [SetupSceneLights] sets
    [bUseLighting] to true and configures the light sources 0, 1 and 2 and no
    other: light 0 at (0, 10, 6) with diffuse and specular colour (1, 1, 1),
    lights 1 and 2 at (-10, 10, 6) and (10, 10, 6) with diffuse and specular
    colour (1, 0.95, 0.6), all three with ambient colour (0.2, 0.2, 0.2). *)
Theorem SetupSceneLights_three_lights (w : World) :
  m_pShaderManager (self w) = Object ->
  exists w',
    SetupSceneLights w = Ok (tt, w')
    /\ self w' = self w
    /\ let cs := new_calls w w' in
       bool_uniform cs g_UseLightingName = Some true
       /\ sets_vec3 cs "lightSources[0].position" (Vec3 0 10 6)
       /\ sets_vec3 cs "lightSources[0].diffuseColor" (Vec3 1 1 1)
       /\ sets_vec3 cs "lightSources[0].specularColor" (Vec3 1 1 1)
       /\ sets_vec3 cs "lightSources[1].position" (Vec3 (-10) 10 6)
       /\ sets_vec3 cs "lightSources[1].diffuseColor" (Vec3 1 0.95 0.6)
       /\ sets_vec3 cs "lightSources[1].specularColor" (Vec3 1 0.95 0.6)
       /\ sets_vec3 cs "lightSources[2].position" (Vec3 10 10 6)
       /\ sets_vec3 cs "lightSources[2].diffuseColor" (Vec3 1 0.95 0.6)
       /\ sets_vec3 cs "lightSources[2].specularColor" (Vec3 1 0.95 0.6)
       /\ sets_vec3 cs "lightSources[0].ambientColor" (Vec3 0.2 0.2 0.2)
       /\ sets_vec3 cs "lightSources[1].ambientColor" (Vec3 0.2 0.2 0.2)
       /\ sets_vec3 cs "lightSources[2].ambientColor" (Vec3 0.2 0.2 0.2)
       /\ omap uniform_name cs =
          [ g_UseLightingName;
            "lightSources[0].position"; "lightSources[0].ambientColor";
            "lightSources[0].diffuseColor"; "lightSources[0].specularColor";
            "lightSources[0].focalStrength"; "lightSources[0].specularIntensity";
            "lightSources[1].position"; "lightSources[1].ambientColor";
            "lightSources[1].diffuseColor"; "lightSources[1].specularColor";
            "lightSources[1].focalStrength"; "lightSources[1].specularIntensity";
            "lightSources[2].position"; "lightSources[2].ambientColor";
            "lightSources[2].diffuseColor"; "lightSources[2].specularColor";
            "lightSources[2].focalStrength"; "lightSources[2].specularIntensity" ]
       /\ length cs = 19%nat.
Proof.
  intros H. eexists. split; [now apply SetupSceneLights_run|].
  split; [reflexivity|]. cbv zeta. rewrite new_calls_add.
  repeat split;
    try (eexists; split; [reflexivity | repeat split; reflexivity]).
Qed.

Lemma SetupSceneLights_three_lights_witness :
  exists w',
    SetupSceneLights sample_world = Ok (tt, w')
    /\ self w' = self sample_world
    /\ bool_uniform (new_calls sample_world w') g_UseLightingName = Some true
    /\ sets_vec3 (new_calls sample_world w') "lightSources[0].position" (Vec3 0 10 6)
    /\ sets_vec3 (new_calls sample_world w') "lightSources[1].position" (Vec3 (-10) 10 6)
    /\ sets_vec3 (new_calls sample_world w') "lightSources[2].position" (Vec3 10 10 6).
Proof.
  destruct (SetupSceneLights_three_lights sample_world eq_refl)
    as (w' & Hrun & Hself & Hb & H0 & _ & _ & H1 & _ & _ & H2 & _).
  exists w'. repeat split; assumption.
Defined.

(** ** Claims on the rendered scene *)

Lemma look_calls_are_looks s h l : Forall is_look_call (look_calls s h l).
Proof.
  destruct l; simpl; try (repeat constructor).
  destruct (m_objectMaterials s); repeat constructor.
Qed.

Lemma material_calls_copy e m1 m2 :
  material_calls (copy_material e m1) = material_calls (copy_material e m2).
Proof. reflexivity. Qed.

Lemma material_look_any_host s h1 h2 t :
  (exists e, e ∈ m_objectMaterials s /\ material_tag e = t) ->
  look_calls s h1 (Material t) = look_calls s h2 (Material t).
Proof.
  intros (e & He & Ht). simpl. unfold material_for.
  destruct (list_find_elem_of (fun e => material_tag e = t) _ e He Ht)
    as [[i e'] Hfind].
  rewrite Hfind. destruct (m_objectMaterials s); [reflexivity|].
  apply material_calls_copy.
Qed.

Lemma flat_map_ext_Forall {A B} (f g : A -> list B) (l : list A) :
  Forall (fun a => f a = g a) l -> flat_map f l = flat_map g l.
Proof.
  induction 1 as [|a l Ha _ IH]; [reflexivity|].
  simpl. now rewrite Ha, IH.
Qed.

Lemma scene_calls_any_host s h1 h2 :
  prepared s -> scene_calls s h1 = scene_calls s h2.
Proof.
  intros [_ Hmat].
  assert (Hc := material_look_any_host s h1 h2 "ceramic"
                  (Hmat "ceramic" ltac:(repeat constructor))).
  assert (Hg := material_look_any_host s h1 h2 "glass"
                  (Hmat "glass" ltac:(repeat constructor))).
  assert (Hb := material_look_any_host s h1 h2 "cardboard"
                  (Hmat "cardboard" ltac:(repeat constructor))).
  unfold scene_calls. apply flat_map_ext_Forall.
  cbv [scene_script counter_steps wall_steps mug_steps candle_steps bag_steps
       rubiks_steps app].
  repeat (apply Forall_cons; split); try apply Forall_nil;
    unfold step_calls; cbn [step_look flat_map];
    rewrite ?Hc, ?Hg, ?Hb; reflexivity.
Qed.

(** C4, as the code has it.  In a ready state [RenderScene] makes the calls
    of one fixed script of twenty steps, those of the counter, the wall, the
    mug, the candle, the bag and the box in this order.  Every step is one
    [setMat4Value] call of [SetTransformations] with the literal scale,
    rotations and position of the mesh, then the calls that set its literal
    texture, colour, material and UV scale, and no other call, then the draw
    call of its mesh; the meshes drawn are planes, cylinders, tapered
    cylinders, tori, boxes and a prism. *)
Theorem RenderScene_script (w : World) :
  ready (self w) ->
  RenderScene w =
    Ok (tt, add_calls
      (flat_map
         (fun st =>
            setMat4Value g_ModelName
              (modelView (step_scale st) (step_X st) (step_Y st) (step_Z st)
                         (step_position st))
            :: flat_map (look_calls (self w) (host w)) (step_look st)
            ++ [DrawMesh (step_mesh st)])
         (counter_steps ++ wall_steps ++ mug_steps ++ candle_steps
          ++ bag_steps ++ rubiks_steps)) w)
  /\ (forall st,
        Forall is_look_call
               (flat_map (look_calls (self w) (host w)) (step_look st)))
  /\ map step_mesh (counter_steps ++ wall_steps ++ mug_steps ++ candle_steps
                    ++ bag_steps ++ rubiks_steps) =
     [ PlaneMesh; PlaneMesh;
       TaperedCylinderMesh; TorusMesh; TorusMesh;
       CylinderMesh; CylinderMesh; CylinderMesh; TaperedCylinderMesh;
       CylinderMesh; TaperedCylinderMesh; TorusMesh;
       BoxMesh; PrismMesh; PlaneMesh; PlaneMesh; PlaneMesh;
       BoxMesh; PlaneMesh; PlaneMesh ].
Proof.
  intros Hw. split; [exact (RenderScene_emits w Hw)|]. split; [|reflexivity].
  intros st. induction (step_look st) as [|l ls IH]; simpl.
  - constructor.
  - apply Forall_app. split; [apply look_calls_are_looks | exact IH].
Qed.

Lemma RenderScene_script_witness :
  ready (self prepared_world)
  /\ RenderScene prepared_world =
       Ok (tt, add_calls
                 (scene_calls (self prepared_world) (host prepared_world))
                 prepared_world).
Proof.
  assert (H : ready (self prepared_world)).
  { split; [reflexivity | vm_compute; discriminate]. }
  split; [exact H|].
  exact (proj1 (RenderScene_script prepared_world H)).
Defined.

(** C4 as stated fails: the call right before the first draw call sets the
    UV scale; the model matrix was set nine calls earlier. *)
Lemma draw_not_right_after_transform :
  ~ draws_right_after_transform
      (calls_of prepared_world (RenderScene prepared_world)).
Proof.
  intros H.
  assert (Hdraw : calls_of prepared_world (RenderScene prepared_world) !! 9%nat
                  = Some (DrawMesh PlaneMesh)) by (vm_compute; reflexivity).
  destruct (H 8%nat PlaneMesh Hdraw) as [T HT].
  vm_compute in HT. discriminate.
Qed.

(** C8.  Two runs of [RenderScene] from the same prepared object make the
    same sequence of calls, whatever was called before and whatever the host
    holds (image files, texture names, the content of uninitialised
    memory): the sequence is a function of the fields of the object alone.
    The run leaves the object as it is, so that rendering again repeats the
    sequence. *)
Theorem RenderScene_deterministic (w1 w2 : World) :
  self w1 = self w2 ->
  prepared (self w1) ->
  exists cs,
    RenderScene w1 = Ok (tt, add_calls cs w1)
    /\ RenderScene w2 = Ok (tt, add_calls cs w2)
    /\ (RenderScene ;; RenderScene) w1 = Ok (tt, add_calls (cs ++ cs) w1).
Proof.
  intros Hself Hw.
  exists (scene_calls (self w1) (host w1)). split; [|split].
  - apply RenderScene_emits, Hw.
  - rewrite (scene_calls_any_host _ _ (host w2) Hw), Hself.
    apply RenderScene_emits. rewrite <- Hself. apply Hw.
  - exact (emits_bind _ _ _ _ RenderScene_emits RenderScene_emits w1 (proj1 Hw)).
Qed.

Lemma prepared_world_prepared : prepared (self prepared_world).
Proof.
  split; [split; [reflexivity | vm_compute; discriminate]|].
  intros t Ht.
  apply elem_of_cons in Ht as [->|Ht];
    [exists ceramicMaterial; split; [repeat constructor | reflexivity]|].
  apply elem_of_cons in Ht as [->|Ht];
    [exists glassMaterial; split; [repeat constructor | reflexivity]|].
  apply elem_of_cons in Ht as [->|Ht];
    [exists cardboardMaterial; split; [repeat constructor | reflexivity]|].
  now apply elem_of_nil in Ht.
Defined.

Lemma RenderScene_deterministic_witness :
  exists cs,
    RenderScene prepared_world = Ok (tt, add_calls cs prepared_world)
    /\ RenderScene replayed_world = Ok (tt, add_calls cs replayed_world)
    /\ (RenderScene ;; RenderScene) prepared_world
       = Ok (tt, add_calls (cs ++ cs) prepared_world).
Proof.
  apply (RenderScene_deterministic prepared_world replayed_world).
  - reflexivity.
  - exact prepared_world_prepared.
Defined.

(** ** The loops over the registered slots *)

Lemma array_split s :
  within_array s ->
  m_textureIDs s =
    [] ++ registered s ++ drop (Z.to_nat (m_loadedTextures s)) (m_textureIDs s)
  /\ Z.to_nat (m_loadedTextures s) = (length (@nil TEXTURE_INFO) + length (registered s))%nat.
Proof.
  intros H. split.
  - simpl. unfold registered. now rewrite take_drop.
  - simpl. now rewrite length_registered.
Qed.

Lemma bind_loop rest : forall pre fuel w tail,
  m_textureIDs (self w) = pre ++ rest ++ tail ->
  Z.to_nat (m_loadedTextures (self w)) = (length pre + length rest)%nat ->
  (length rest < fuel)%nat ->
  exists i,
    while fuel (fun i s => i <? m_loadedTextures s)
      (fun i =>
         emit (glActiveTexture (GL_TEXTURE0 + i)) ;;
         e <- texture_at i ;;
         emit (glBindTexture GL_TEXTURE_2D (ID e)) ;;
         ret (i + 1))
      (Z.of_nat (length pre)) w
    = Ok (i, add_calls (binding_calls (Z.of_nat (length pre)) rest) w).
Proof.
  induction rest as [|e rest IH]; intros pre fuel w tail Harr Hcount Hfuel;
    (destruct fuel as [|fuel]; [simpl in Hfuel; lia|]).
  - eexists. rewrite while_exit.
    + simpl. now rewrite add_calls_nil.
    + apply Z.ltb_ge. simpl in Hcount. lia.
  - simpl in Hcount, Hfuel.
    rewrite while_step by (apply Z.ltb_lt; lia).
    unfold bind at 1. unfold bind at 1. unfold emit at 1.
    erewrite bind_Ok.
    2:{ apply texture_at_Some. simpl. rewrite Harr.
        apply list_lookup_middle. reflexivity. }
    unfold bind at 1. unfold emit at 1. unfold ret at 1.
    rewrite add_calls_app. simpl app.
    destruct (IH (pre ++ [e]) fuel
                (add_calls [glActiveTexture (GL_TEXTURE0 + Z.of_nat (length pre));
                            glBindTexture GL_TEXTURE_2D (ID e)] w) tail)
      as [i Hi].
    + simpl. rewrite Harr. now rewrite <- app_assoc.
    + simpl. rewrite Hcount, length_app. simpl. lia.
    + lia.
    + exists i. rewrite length_app in Hi. simpl in Hi.
      replace (Z.of_nat (length pre + 1)) with (Z.of_nat (length pre) + 1) in Hi
        by lia.
      rewrite Hi. now rewrite add_calls_app.
Qed.

Lemma BindGLTextures_run w :
  within_array (self w) ->
  BindGLTextures w = Ok (tt, add_calls (binding_calls 0 (registered (self w))) w).
Proof.
  intros Hwf. destruct (array_split _ Hwf) as [Harr Hcount].
  destruct (bind_loop (registered (self w)) [] (loop_fuel (m_loadedTextures (self w)))
              w _ Harr Hcount) as [i Hi].
  { unfold loop_fuel. rewrite length_registered by assumption. lia. }
  unfold BindGLTextures, bind at 1, get_self.
  erewrite bind_Ok by exact Hi. reflexivity.
Qed.

Lemma binding_calls_lookup l : forall start i e,
  l !! i = Some e ->
  binding_calls start l !! (2 * i)%nat
    = Some (glActiveTexture (GL_TEXTURE0 + (start + Z.of_nat i)))
  /\ binding_calls start l !! S (2 * i)
     = Some (glBindTexture GL_TEXTURE_2D (ID e)).
Proof.
  induction l as [|e0 l IH]; intros start i e Hi; [discriminate|].
  destruct i as [|i].
  - injection Hi as ->. simpl. now rewrite Z.add_0_r.
  - simpl in Hi. destruct (IH (start + 1) i e Hi) as [H1 H2].
    replace (2 * S i)%nat with (S (S (2 * i))) by lia.
    simpl binding_calls. split.
    + change (binding_calls (start + 1) l !! (2 * i)%nat = 
               Some (glActiveTexture (GL_TEXTURE0 + (start + Z.of_nat (S i))))).
      rewrite H1. do 2 f_equal. lia.
    + exact H2.
Qed.

(** The entries [l] with the names the driver hands out from its [g]-th. *)
Lemma destroy_loop rest : forall pre fuel w tail,
  m_textureIDs (self w) = pre ++ rest ++ tail ->
  Z.to_nat (m_loadedTextures (self w)) = (length pre + length rest)%nat ->
  (length rest < fuel)%nat ->
  exists i w',
    while fuel (fun i s => i <? m_loadedTextures s)
      (fun i =>
         texture_at i ;;
         name <- glGenTextures_1 ;;
         set_texture_at i (with_ID name) ;;
         ret (i + 1))
      (Z.of_nat (length pre)) w
    = Ok (i, w')
    /\ m_textureIDs (self w') =
       pre ++ imap (fun j e =>
                      with_ID (texture_names (host w) (names_generated w + j)) e)
                   rest ++ tail
    /\ m_loadedTextures (self w') = m_loadedTextures (self w)
    /\ m_pShaderManager (self w') = m_pShaderManager (self w)
    /\ m_objectMaterials (self w') = m_objectMaterials (self w)
    /\ host w' = host w
    /\ calls w' =
       calls w ++ imap (fun j _ =>
                          glGenTextures
                            (texture_names (host w) (names_generated w + j)))
                       rest.
Proof.
  induction rest as [|e rest IH]; intros pre fuel w tail Harr Hcount Hfuel;
    (destruct fuel as [|fuel]; [simpl in Hfuel; lia|]).
  - eexists _, w. rewrite while_exit.
    + simpl. rewrite app_nil_r. repeat split; assumption.
    + apply Z.ltb_ge. simpl in Hcount. lia.
  - simpl in Hcount, Hfuel.
    rewrite while_step by (apply Z.ltb_lt; lia).
    assert (He : m_textureIDs (self w) !! length pre = Some e).
    { rewrite Harr. apply list_lookup_middle. reflexivity. }
    unfold bind at 1. unfold bind at 1.
    rewrite (texture_at_Some w _ _ He).
    unfold bind at 1. unfold glGenTextures_1 at 1.
    erewrite bind_Ok.
    2:{ apply set_texture_at_run with (e := e). exact He. }
    unfold ret at 1. simpl.
    match goal with
    | |- context [while fuel _ _ _ ?w1] =>
        destruct (IH (pre ++ [with_ID (texture_names (host w) (names_generated w)) e])
                    fuel w1 tail) as (i & w' & Hrun & Ha & Hc & Hs & Hm & Hh & Hcs)
    end.
    + simpl. rewrite Harr.
      rewrite insert_app_r_alt by lia. rewrite Nat.sub_diag. simpl.
      now rewrite <- app_assoc.
    + simpl. rewrite Hcount, length_app. simpl. lia.
    + lia.
    + exists i, w'. simpl in *.
      rewrite length_app in Hrun. simpl in Hrun.
      replace (Z.of_nat (length pre + 1)) with (Z.of_nat (length pre) + 1) in Hrun
        by lia.
      split; [exact Hrun|].
      rewrite Ha, Hcs, Hc, Hs, Hm, Hh, <- !app_assoc. simpl.
      rewrite Nat.add_0_r.
      assert (Hnext : forall j, S (names_generated w + j) = (names_generated w + S j)%nat)
        by (intros; lia).
      repeat split.
      * do 3 f_equal. apply imap_ext. intros j x _. simpl. now rewrite Hnext.
      * do 2 f_equal. apply imap_ext. intros j x _. simpl. now rewrite Hnext.
Qed.

Lemma tag_imap_with_ID (l : list TEXTURE_INFO) : forall (name : nat -> GLuint),
  map tag (imap (fun j e => with_ID (name j) e) l) = map tag l.
Proof.
  induction l as [|e l IH]; intros name; [reflexivity|].
  simpl. f_equal. apply (IH (fun j => name (S j))).
Qed.

(** C9.  On a registry within its array, [DestroyGLTextures] keeps
    [m_loadedTextures], the size of the array and the tag of every entry; it
    overwrites the ID of every registered slot with a name it has just
    obtained from [glGenTextures], leaves the other slots alone, and calls
    nothing but [glGenTextures], once per registered slot: it never calls
    [glDeleteTextures]. *)
Theorem DestroyGLTextures_regenerates (w : World) :
  within_array (self w) ->
  exists w',
    DestroyGLTextures w = Ok (tt, w')
    /\ m_loadedTextures (self w') = m_loadedTextures (self w)
    /\ length (m_textureIDs (self w')) = length (m_textureIDs (self w))
    /\ map tag (m_textureIDs (self w')) = map tag (m_textureIDs (self w))
    /\ (forall i e,
          registered (self w) !! i = Some e ->
          m_textureIDs (self w') !! i =
            Some {| ID := texture_names (host w) (names_generated w + i);
                    tag := tag e |})
    /\ (forall i, (Z.to_nat (m_loadedTextures (self w)) <= i)%nat ->
          m_textureIDs (self w') !! i = m_textureIDs (self w) !! i)
    /\ new_calls w w' =
       imap (fun i _ =>
               glGenTextures (texture_names (host w) (names_generated w + i)))
            (registered (self w))
    /\ (forall name, glDeleteTextures name ∉ new_calls w w').
Proof.
  intros Hwf. destruct (array_split _ Hwf) as [Harr Hcount].
  destruct (destroy_loop (registered (self w)) []
              (loop_fuel (m_loadedTextures (self w))) w _ Harr Hcount)
    as (i & w' & Hrun & Ha & Hc & _ & _ & _ & Hcs).
  { unfold loop_fuel. rewrite length_registered by assumption. lia. }
  simpl in Ha, Hrun.
  assert (Hnew : new_calls w w' =
                 imap (fun i _ =>
                         glGenTextures
                           (texture_names (host w) (names_generated w + i)))
                      (registered (self w))).
  { unfold new_calls. rewrite Hcs. apply drop_app_length. }
  assert (Hlen : length (registered (self w))
                 = Z.to_nat (m_loadedTextures (self w)))
    by now apply length_registered.
  exists w'. split.
  { unfold DestroyGLTextures, bind at 1, get_self.
    erewrite bind_Ok by exact Hrun. reflexivity. }
  split; [exact Hc|]. rewrite Ha. split; [|split; [|split; [|split; [|split]]]].
  - rewrite length_app, length_imap, <- length_app.
    f_equal. unfold registered. apply take_drop.
  - rewrite map_app, tag_imap_with_ID, <- map_app.
    f_equal. unfold registered. apply take_drop.
  - intros j e He.
    rewrite lookup_app_l by (rewrite length_imap; now apply lookup_lt_Some in He).
    rewrite list_lookup_imap, He. reflexivity.
  - intros j Hj.
    rewrite lookup_app_r by (rewrite length_imap; lia).
    rewrite length_imap, Hlen, lookup_drop. f_equal. lia.
  - exact Hnew.
  - intros name Hin. rewrite Hnew in Hin.
    apply elem_of_lookup_imap in Hin as (j & e & Heq & _). discriminate.
Qed.

Lemma DestroyGLTextures_regenerates_witness :
  within_array (self prepared_world)
  /\ exists w',
       DestroyGLTextures prepared_world = Ok (tt, w')
       /\ m_loadedTextures (self w') = 10
       /\ m_textureIDs (self w') !! 9%nat = Some {| ID := 20; tag := "mug" |}
       /\ length (new_calls prepared_world w') = 10%nat.
Proof.
  split; [vm_compute; discriminate|].
  destruct (DestroyGLTextures_regenerates prepared_world)
    as (w' & Hrun & Hc & _ & _ & Hid & _ & Hnew & _).
  { vm_compute. discriminate. }
  exists w'. split; [exact Hrun|]. split; [exact Hc|]. split.
  - apply (Hid 9%nat {| ID := 10; tag := "mug" |}). reflexivity.
  - rewrite Hnew. reflexivity.
Defined.

(** ** The loading sequence *)

Lemma CreateGLTexture_next w0 n w filename t :
  loaded_up_to n w0 w -> n < Z.of_nat TEXTURE_SLOTS ->
  exists b w',
    CreateGLTexture filename t w = Ok (b, w') /\ loaded_up_to (n + 1) w0 w'.
Proof.
  intros (Hlen & Hn & Hsh & Hmat & cs & Hcs) Hslots.
  destruct (image_files (host w) filename) as [img|] eqn:Himg.
  - destruct (Z.eq_dec (colorChannels img) 3) as [H3|H3];
      [|destruct (Z.eq_dec (colorChannels img) 4) as [H4|H4]].
    1,2: destruct (CreateGLTexture_registers w filename t img Himg) as
           (w' & Hrun & Hself & _ & cs' & Hcs'); [tauto | lia |];
         exists true, w'; split; [exact Hrun|]; unfold loaded_up_to;
         rewrite Hself; simpl;
         split; [now rewrite length_insert|]; split; [lia|];
         split; [exact Hsh|]; split; [exact Hmat|];
         rewrite Hcs', Hcs, <- app_assoc; eexists; reflexivity.
    destruct (CreateGLTexture_channels w filename t img Himg H3 H4)
      as (w' & Hrun & Hself & _ & _ & cs' & Hcs').
    exists false, w'. split; [exact Hrun|]. unfold loaded_up_to. rewrite Hself.
    split; [exact Hlen|]. split; [lia|].
    split; [exact Hsh|]. split; [exact Hmat|].
    rewrite Hcs', Hcs, <- app_assoc. eexists. reflexivity.
  - rewrite (CreateGLTexture_missing w filename t Himg).
    eexists _, _. split; [reflexivity|]. unfold loaded_up_to. simpl.
    split; [exact Hlen|]. split; [lia|].
    split; [exact Hsh|]. split; [exact Hmat|].
    rewrite Hcs, <- app_assoc. eexists. reflexivity.
Qed.

(** The next load of the sequence. *)
Ltac next_load Hinv :=
  let b := fresh "b" in
  let w' := fresh "w" in
  let Hrun := fresh "Hrun" in
  match goal with
  | |- context [bind (CreateGLTexture ?f ?t) _ ?w] =>
      destruct (CreateGLTexture_next _ _ w f t Hinv) as (b & w' & Hrun & Hinv');
      [ unfold TEXTURE_SLOTS; lia
      | rewrite (bind_Ok _ _ _ _ _ Hrun); clear Hrun; clear Hinv;
        rename Hinv' into Hinv; simpl in Hinv ]
  end.

Lemma LoadSceneTextures_run w :
  m_loadedTextures (self w) = 0 ->
  length (m_textureIDs (self w)) = TEXTURE_SLOTS ->
  exists w' loading,
    LoadSceneTextures w = Ok (tt, w')
    /\ 0 <= m_loadedTextures (self w') <= 10
    /\ length (m_textureIDs (self w')) = TEXTURE_SLOTS
    /\ m_pShaderManager (self w') = m_pShaderManager (self w)
    /\ m_objectMaterials (self w') = m_objectMaterials (self w)
    /\ calls w' = calls w ++ loading ++ binding_calls 0 (registered (self w')).
Proof.
  intros Hzero Hlen.
  assert (Hinv : loaded_up_to 0 w w).
  { split; [exact Hlen|]. split; [lia|]. do 2 (split; [reflexivity|]).
    exists []. now rewrite app_nil_r. }
  revert Hinv. generalize w at 2 3 as w1. intros w1 Hinv.
  unfold LoadSceneTextures.
  do 10 next_load Hinv.
  destruct Hinv as (Hlen' & Hn & Hsh & Hmat & cs & Hcs).
  match goal with
  | |- context [BindGLTextures ?wc] =>
      assert (Hwf : within_array (self wc))
        by (unfold within_array; rewrite Hlen'; unfold TEXTURE_SLOTS; lia)
  end.
  rewrite BindGLTextures_run by exact Hwf.
  eexists _, cs. split; [reflexivity|]. simpl.
  split; [lia|]. split; [exact Hlen'|].
  split; [exact Hsh|]. split; [exact Hmat|].
  now rewrite Hcs, <- app_assoc.
Qed.

(** C7.  Started with an empty registry in an array of [TEXTURE_SLOTS] slots
    (the constructor assigns the two pointers only; the start value of
    [m_loadedTextures] and the array come with the declaration of the class),
    [LoadSceneTextures] returns: none of its ten loads writes outside the
    array (such a write is [Undefined] here).  Afterwards at most ten
    textures are registered, and the last calls made are those of
    [BindGLTextures], which for every registered slot [i] selects the texture
    unit [GL_TEXTURE0 + i] and binds the texture of slot [i] to it. *)
Theorem LoadSceneTextures_within_array (w : World) :
  m_loadedTextures (self w) = 0 ->
  length (m_textureIDs (self w)) = TEXTURE_SLOTS ->
  exists w' loading,
    LoadSceneTextures w = Ok (tt, w')
    /\ 0 <= m_loadedTextures (self w') <= 10
    /\ length (m_textureIDs (self w')) = TEXTURE_SLOTS
    /\ new_calls w w' = loading ++ binding_calls 0 (registered (self w'))
    /\ forall i e,
         registered (self w') !! i = Some e ->
         binding_calls 0 (registered (self w')) !! (2 * i)%nat
           = Some (glActiveTexture (GL_TEXTURE0 + Z.of_nat i))
         /\ binding_calls 0 (registered (self w')) !! S (2 * i)
            = Some (glBindTexture GL_TEXTURE_2D (ID e)).
Proof.
  intros Hzero Hlen.
  destruct (LoadSceneTextures_run w Hzero Hlen)
    as (w' & loading & Hrun & Hn & Hlen' & _ & _ & Hcs).
  exists w', loading. split; [exact Hrun|]. split; [exact Hn|].
  split; [exact Hlen'|]. split.
  - unfold new_calls. rewrite Hcs. apply drop_app_length.
  - intros i e He.
    destruct (binding_calls_lookup _ 0 i e He) as [H1 H2].
    split; [exact H1 | exact H2].
Qed.

Lemma LoadSceneTextures_within_array_witness :
  exists w' loading,
    LoadSceneTextures sample_world = Ok (tt, w')
    /\ 0 <= m_loadedTextures (self w') <= 10
    /\ length (m_textureIDs (self w')) = TEXTURE_SLOTS
    /\ new_calls sample_world w'
       = loading ++ binding_calls 0 (registered (self w'))
    /\ forall i e,
         registered (self w') !! i = Some e ->
         binding_calls 0 (registered (self w')) !! (2 * i)%nat
           = Some (glActiveTexture (GL_TEXTURE0 + Z.of_nat i))
         /\ binding_calls 0 (registered (self w')) !! S (2 * i)
            = Some (glBindTexture GL_TEXTURE_2D (ID e)).
Proof.
  apply (LoadSceneTextures_within_array sample_world); reflexivity.
Defined.

(** ** From construction to rendering *)

(** A load that would register a texture outside the array is undefined. *)
Lemma CreateGLTexture_outside_array w filename t :
  usable_image (image_files (host w) filename) = true ->
  ~ (0 <= m_loadedTextures (self w) < Z.of_nat (length (m_textureIDs (self w)))) ->
  CreateGLTexture filename t w = Undefined.
Proof.
  intros Hu Hout.
  destruct (image_files (host w) filename) as [img|] eqn:Himg; [|discriminate].
  assert (Hat : forall w1, self w1 = self w ->
            texture_at (m_loadedTextures (self w)) w1 = Undefined).
  { intros w1 Hself. unfold texture_at, bind, get_self. rewrite Hself.
    destruct (m_loadedTextures (self w) <? 0) eqn:Hneg; [reflexivity|].
    apply Z.ltb_ge in Hneg.
    rewrite (lookup_ge_None_2 (m_textureIDs (self w))) by lia. reflexivity. }
  simpl in Hu. unfold CreateGLTexture, bind at 1, emit at 1.
  unfold bind at 1, stbi_load, bind at 1, get_host, ret at 1. simpl.
  rewrite Himg.
  unfold bind at 1, emit at 1. unfold bind at 1, glGenTextures_1 at 1.
  do 5 (unfold bind at 1; unfold emit at 1).
  apply orb_true_iff in Hu. rewrite !Z.eqb_eq in Hu.
  destruct Hu as [Hc|Hc]; rewrite Hc; simpl;
    do 4 (unfold bind at 1; unfold emit at 1);
    unfold bind at 1, get_self at 1; simpl;
    unfold bind at 1, set_texture_at at 1, bind at 1;
    now rewrite Hat.
Qed.

(** [PrepareScene], run on a manager with a shader attached and an empty
    registry, leaves a prepared state. *)
Lemma PrepareScene_prepared w :
  m_pShaderManager (self w) = Object ->
  m_loadedTextures (self w) = 0 ->
  length (m_textureIDs (self w)) = TEXTURE_SLOTS ->
  exists w', PrepareScene w = Ok (tt, w') /\ prepared (self w').
Proof.
  intros Hsh Hzero Hlen.
  destruct (LoadSceneTextures_run w Hzero Hlen)
    as (w1 & loading & Hrun & Hn & Hlen1 & Hsh1 & Hmat1 & _).
  unfold PrepareScene.
  rewrite (bind_Ok _ _ _ _ _ Hrun).
  rewrite (bind_Ok _ _ _ _ _ (DefineObjectMaterials_run w1)).
  erewrite bind_Ok.
  2:{ apply SetupSceneLights_run. simpl. congruence. }
  unfold bind, emit. eexists. split; [reflexivity|]. simpl.
  split; [split|]; simpl.
  - congruence.
  - unfold within_array. simpl. rewrite Hlen1. unfold TEXTURE_SLOTS. lia.
  - intros t Ht.
    apply elem_of_cons in Ht as [->|Ht];
      [exists ceramicMaterial; split; [|reflexivity]|].
    2: apply elem_of_cons in Ht as [->|Ht];
      [exists glassMaterial; split; [|reflexivity]|].
    3: apply elem_of_cons in Ht as [->|Ht];
      [exists cardboardMaterial; split; [|reflexivity]|].
    4: now apply elem_of_nil in Ht.
    all: apply elem_of_app; right; repeat constructor.
Qed.

(** ** The fuel of the loops is never what stops them *)

Lemma while_fuel {L} (measure : L -> World -> nat)
    (cond : L -> SceneManager -> bool) (body : L -> M L) :
  (forall l w, body l w <> OutOfFuel) ->
  (forall l w l' w',
      cond l (self w) = true -> body l w = Ok (l', w') ->
      (measure l' w' < measure l w)%nat) ->
  forall fuel l w,
    (measure l w < fuel)%nat -> while fuel cond body l w <> OutOfFuel.
Proof.
  intros Hbody Hless. induction fuel as [|fuel IH]; intros l w Hm; [lia|].
  simpl. unfold bind at 1, get_self.
  destruct (cond l (self w)) eqn:Hc; [|discriminate].
  unfold bind. destruct (body l w) as [[l' w']| |] eqn:Hb.
  - apply IH. specialize (Hless l w l' w' Hc Hb). lia.
  - discriminate.
  - now apply Hbody in Hb.
Qed.

Lemma texture_at_cases i w :
  texture_at i w = Undefined \/ exists e, texture_at i w = Ok (e, w).
Proof.
  unfold texture_at, bind, get_self, undefined, ret.
  destruct (i <? 0); [now left|].
  destruct (m_textureIDs (self w) !! Z.to_nat i) as [e|]; [right; eauto | now left].
Qed.

Lemma material_at_cases i w :
  material_at i w = Undefined \/ exists e, material_at i w = Ok (e, w).
Proof.
  unfold material_at, bind, get_self, undefined, ret.
  destruct (i <? 0); [now left|].
  destruct (m_objectMaterials (self w) !! Z.to_nat i) as [e|];
    [right; eauto | now left].
Qed.

Lemma search_loop_fuel {E R} (size : SceneManager -> Z) (get : Z -> M E)
    (is_match : E -> bool) (hit : Z -> R -> E -> R) :
  (forall i w, get i w = Undefined \/ exists e, get i w = Ok (e, w)) ->
  forall r w,
    while (loop_fuel (size (self w))) (search_cond size)
          (search_body get is_match hit) (Search r 0 false) w <> OutOfFuel.
Proof.
  intros Hget r w.
  apply (while_fuel
           (fun l w => if bFound l then 0%nat
                       else Z.to_nat (size (self w) - index l))).
  - intros l w0. unfold search_body, bind.
    destruct (Hget (index l) w0) as [-> | [e ->]]; [discriminate|].
    destruct (is_match e); discriminate.
  - intros l w0 l' w' Hc Hb. unfold search_cond in Hc.
    apply andb_true_iff in Hc as [Hlt Hnot].
    apply Z.ltb_lt in Hlt. apply negb_true_iff in Hnot.
    unfold search_body, bind in Hb.
    destruct (Hget (index l) w0) as [Hu | [e He]]; rewrite ?Hu, ?He in Hb;
      [discriminate|].
    rewrite Hnot.
    destruct (is_match e); injection Hb as <- <-; simpl; [lia|].
    rewrite Hnot. lia.
  - simpl. unfold loop_fuel. lia.
Qed.

Lemma FindTextureSlot_fuel w t : FindTextureSlot t w <> OutOfFuel.
Proof.
  unfold FindTextureSlot, bind at 1, get_self.
  pose proof (search_loop_fuel m_loadedTextures texture_at
                (fun e => String.eqb (tag e) t) (fun i _ _ => i)
                texture_at_cases (-1) w) as H.
  unfold bind. unfold search_cond, search_body in H.
  destruct (while _ _ _ _ w) as [[l w']| |]; [discriminate.. | contradiction].
Qed.

Lemma FindTextureID_fuel w t : FindTextureID t w <> OutOfFuel.
Proof.
  unfold FindTextureID, bind at 1, get_self.
  pose proof (search_loop_fuel m_loadedTextures texture_at
                (fun e => String.eqb (tag e) t)
                (fun _ _ e => int_of_GLuint (ID e))
                texture_at_cases (-1) w) as H.
  unfold bind. unfold search_cond, search_body in H.
  destruct (while _ _ _ _ w) as [[l w']| |]; [discriminate.. | contradiction].
Qed.

Lemma FindMaterial_fuel w t m : FindMaterial t m w <> OutOfFuel.
Proof.
  unfold FindMaterial, bind at 1, get_self.
  destruct (materials_size (self w) =? 0); [discriminate|].
  pose proof (search_loop_fuel materials_size material_at
                (fun e => String.eqb (material_tag e) t)
                (fun _ r e => copy_material e r)
                material_at_cases m w) as H.
  unfold bind. unfold search_cond, search_body in H.
  destruct (while _ _ _ _ w) as [[l w']| |]; [discriminate.. | contradiction].
Qed.

Lemma BindGLTextures_fuel w : BindGLTextures w <> OutOfFuel.
Proof.
  unfold BindGLTextures, bind at 1, get_self.
  assert (H : while (loop_fuel (m_loadedTextures (self w)))
                (fun i s => i <? m_loadedTextures s)
                (fun i =>
                   emit (glActiveTexture (GL_TEXTURE0 + i)) ;;
                   e <- texture_at i ;;
                   emit (glBindTexture GL_TEXTURE_2D (ID e)) ;;
                   ret (i + 1)) 0 w <> OutOfFuel).
  { apply (while_fuel (fun i w => Z.to_nat (m_loadedTextures (self w) - i))).
    - intros i w0. unfold bind, emit.
      destruct (texture_at_cases i (add_calls [glActiveTexture (GL_TEXTURE0 + i)] w0))
        as [-> | [e ->]]; discriminate.
    - intros i w0 i' w' Hc Hb. apply Z.ltb_lt in Hc.
      unfold bind, emit in Hb.
      destruct (texture_at_cases i (add_calls [glActiveTexture (GL_TEXTURE0 + i)] w0))
        as [Hu | [e He]]; rewrite ?Hu, ?He in Hb; [discriminate|].
      injection Hb as <- <-. simpl. lia.
    - unfold loop_fuel. lia. }
  unfold bind. destruct (while _ _ _ _ w) as [[l w']| |];
    [discriminate.. | contradiction].
Qed.

Lemma DestroyGLTextures_fuel w : DestroyGLTextures w <> OutOfFuel.
Proof.
  unfold DestroyGLTextures, bind at 1, get_self.
  assert (H : while (loop_fuel (m_loadedTextures (self w)))
                (fun i s => i <? m_loadedTextures s)
                (fun i =>
                   texture_at i ;;
                   name <- glGenTextures_1 ;;
                   set_texture_at i (with_ID name) ;;
                   ret (i + 1)) 0 w <> OutOfFuel).
  { assert (Hbody : forall i w0,
              match (texture_at i ;;
                     name <- glGenTextures_1 ;;
                     set_texture_at i (with_ID name) ;;
                     ret (i + 1)) w0 with
              | Ok (i', w') =>
                  i' = i + 1
                  /\ m_loadedTextures (self w') = m_loadedTextures (self w0)
              | Undefined => True
              | OutOfFuel => False
              end).
    { intros i w0. unfold bind at 1.
      destruct (texture_at_cases i w0) as [-> | [e ->]]; [exact I|].
      unfold bind at 1, glGenTextures_1. unfold bind at 1, set_texture_at, bind at 1.
      match goal with |- context [texture_at i ?w1] =>
        destruct (texture_at_cases i w1) as [-> | [e' ->]] end; [exact I|].
      unfold bind, get_self, put_self, ret. simpl. auto. }
    apply (while_fuel (fun i w => Z.to_nat (m_loadedTextures (self w) - i))).
    - intros i w0 Hb. specialize (Hbody i w0). now rewrite Hb in Hbody.
    - intros i w0 i' w' Hc Hb. apply Z.ltb_lt in Hc.
      specialize (Hbody i w0). rewrite Hb in Hbody.
      destruct Hbody as [-> Hcount]. rewrite Hcount. lia.
    - unfold loop_fuel. lia. }
  unfold bind. destruct (while _ _ _ _ w) as [[l w']| |];
    [discriminate.. | contradiction].
Qed.

(** ** The functions on sample worlds *)

Example FindTextureSlot_mug :
  returned (FindTextureSlot "mug" prepared_world) = Some 9.
Proof. reflexivity. Qed.

Example FindTextureID_mug :
  returned (FindTextureID "mug" prepared_world) = Some 10.
Proof. reflexivity. Qed.

Example FindTextureSlot_marble :
  returned (FindTextureSlot "marble" prepared_world) = Some (-1).
Proof. reflexivity. Qed.

(** A count beyond the array makes the scan for an unknown tag read outside
    the array. *)
Example FindTextureSlot_beyond_array :
  FindTextureSlot "marble"
    {| self := {| m_pShaderManager := Object; m_loadedTextures := 17;
                  m_textureIDs := m_textureIDs (self prepared_world);
                  m_objectMaterials := [] |};
       host := sample_host; names_generated := 0; calls := [] |}
  = Undefined.
Proof. reflexivity. Qed.

(** Started with seven textures registered, the tenth load of
    [LoadSceneTextures] writes to slot 16. *)
Example LoadSceneTextures_from_seven :
  LoadSceneTextures
    {| self := {| m_pShaderManager := Object; m_loadedTextures := 7;
                  m_textureIDs := m_textureIDs sample_manager;
                  m_objectMaterials := [] |};
       host := sample_host; names_generated := 0; calls := [] |}
  = Undefined.
Proof. vm_compute. reflexivity. Qed.

(** Without a shader manager the lights cannot be set, while
    [SetShaderTexture] does nothing. *)
Example SetupSceneLights_without_shader :
  SetupSceneLights
    {| self := {| m_pShaderManager := NULL; m_loadedTextures := 0;
                  m_textureIDs := m_textureIDs sample_manager;
                  m_objectMaterials := [] |};
       host := sample_host; names_generated := 0; calls := [] |}
  = Undefined.
Proof. reflexivity. Qed.

Example SetShaderTexture_without_shader :
  calls_of sample_world
    (SetShaderTexture "mug"
       {| self := {| m_pShaderManager := NULL; m_loadedTextures := 0;
                     m_textureIDs := m_textureIDs sample_manager;
                     m_objectMaterials := [] |};
          host := sample_host; names_generated := 0; calls := [] |})
  = [].
Proof. reflexivity. Qed.

Example RenderScene_draws :
  omap drawn_mesh (calls_of prepared_world (RenderScene prepared_world))
  = map step_mesh scene_script.
Proof. vm_compute. reflexivity. Qed.

(** * Further properties of the code *)

(** ** What a function keeps on the object *)

Lemma preserves_ret {A} I (a : A) : preserves I (ret a).
Proof. intros w a' w' HI H. injection H as <- <-. exact HI. Qed.

Lemma preserves_undefined {A} I : preserves I (@undefined A).
Proof. intros w a w' _ H. discriminate. Qed.

Lemma preserves_bind {A B} I (m : M A) (f : A -> M B) :
  preserves I m -> (forall a, preserves I (f a)) -> preserves I (bind m f).
Proof.
  intros Hm Hf w b w' HI H. unfold bind in H.
  destruct (m w) as [[a w1]| |] eqn:Hmw; try discriminate.
  exact (Hf a w1 b w' (Hm w a w1 HI Hmw) H).
Qed.

Lemma preserves_emit I c : preserves I (emit c).
Proof. intros w a w' HI H. injection H as <- <-. exact HI. Qed.

Lemma preserves_get_self I : preserves I get_self.
Proof. intros w a w' HI H. injection H as <- <-. exact HI. Qed.

Lemma preserves_get_host I : preserves I get_host.
Proof. intros w a w' HI H. injection H as <- <-. exact HI. Qed.

Lemma preserves_glGenTextures_1 I : preserves I glGenTextures_1.
Proof. intros w a w' HI H. injection H as <- <-. exact HI. Qed.

Lemma preserves_while {L} I fuel (cond : L -> SceneManager -> bool) body :
  (forall l, preserves I (body l)) ->
  forall l, preserves I (while fuel cond body l).
Proof.
  intros Hbody. induction fuel as [|fuel IH]; intros l.
  - intros w a w' _ H. discriminate.
  - simpl. apply preserves_bind; [apply preserves_get_self|].
    intros s. destruct (cond l s); [|apply preserves_ret].
    apply preserves_bind; [apply Hbody | exact IH].
Qed.

Create HintDb frame discriminated.
#[local] Hint Resolve preserves_ret preserves_undefined preserves_emit
  preserves_get_self preserves_get_host preserves_glGenTextures_1 : frame.

(** Splits a function into its calls and closes the ones the hints know. *)
Ltac frame :=
  repeat first
    [ solve [auto with frame]
    | apply preserves_bind; [| intros ?]
    | apply preserves_while; intros ?
    | match goal with
      | |- preserves _ (if ?c then _ else _) => destruct c
      | |- preserves _ (match ?x with _ => _ end) => destruct x
      | |- preserves _ (let '(_, _) := ?x in _) => destruct x
      end ].

Lemma preserves_shader I c : preserves I (shader c).
Proof. unfold shader. frame. Qed.

Lemma preserves_if_shader I body :
  preserves I body -> preserves I (if_shader body).
Proof. intros H. unfold if_shader. frame. Qed.

Lemma preserves_texture_at I i : preserves I (texture_at i).
Proof. unfold texture_at. frame. Qed.

Lemma preserves_material_at I i : preserves I (material_at i).
Proof. unfold material_at. frame. Qed.

Lemma preserves_stbi_load I f : preserves I (stbi_load f).
Proof. unfold stbi_load. frame. Qed.

#[local] Hint Resolve preserves_shader preserves_texture_at
  preserves_material_at preserves_stbi_load : frame.

Lemma preserves_FindTextureID I t : preserves I (FindTextureID t).
Proof. unfold FindTextureID. frame. Qed.

Lemma preserves_FindTextureSlot I t : preserves I (FindTextureSlot t).
Proof. unfold FindTextureSlot. frame. Qed.

Lemma preserves_FindMaterial I t m : preserves I (FindMaterial t m).
Proof. unfold FindMaterial. frame. Qed.

Lemma preserves_BindGLTextures I : preserves I BindGLTextures.
Proof. unfold BindGLTextures. frame. Qed.

#[local] Hint Resolve preserves_FindTextureID preserves_FindTextureSlot
  preserves_FindMaterial preserves_BindGLTextures : frame.

Lemma preserves_SetTransformations I sc X Y Z p :
  preserves I (SetTransformations sc X Y Z p).
Proof. unfold SetTransformations. apply preserves_if_shader. frame. Qed.

Lemma preserves_SetShaderColor I r g b a : preserves I (SetShaderColor r g b a).
Proof. unfold SetShaderColor. apply preserves_if_shader. frame. Qed.

Lemma preserves_SetShaderTexture I t : preserves I (SetShaderTexture t).
Proof. unfold SetShaderTexture. apply preserves_if_shader. frame. Qed.

Lemma preserves_SetTextureUVScale I u v : preserves I (SetTextureUVScale u v).
Proof. unfold SetTextureUVScale. apply preserves_if_shader. frame. Qed.

Lemma preserves_SetShaderMaterial I t : preserves I (SetShaderMaterial t).
Proof. unfold SetShaderMaterial. frame. Qed.

Lemma preserves_SetupSceneLights I : preserves I SetupSceneLights.
Proof. unfold SetupSceneLights. frame. Qed.

#[local] Hint Resolve preserves_SetTransformations preserves_SetShaderColor
  preserves_SetShaderTexture preserves_SetTextureUVScale
  preserves_SetShaderMaterial preserves_SetupSceneLights : frame.

Lemma preserves_RenderScene I : preserves I RenderScene.
Proof.
  unfold RenderScene, RenderCounter, RenderWall, RenderMug, RenderCandle,
    RenderBag, RenderRubiks.
  frame.
Qed.

Lemma preserves_read_only {A} (m : M A) :
  (forall I, preserves I m) -> read_only m.
Proof.
  intros H w a w' Hrun.
  exact (H (fun s => s = self w) w a w' eq_refl Hrun).
Qed.

(** X1.  The two texture lookups, the material lookup, [BindGLTextures], the
    five functions that set shader state, [SetupSceneLights] and
    [RenderScene] never change a field of the object: whenever one of them
    returns, in whatever state it was called, the shader pointer, the
    registry and the material list are as before. *)
Theorem lookups_and_rendering_read_only :
  (forall t, read_only (FindTextureID t))
  /\ (forall t, read_only (FindTextureSlot t))
  /\ (forall t m, read_only (FindMaterial t m))
  /\ read_only BindGLTextures
  /\ (forall sc X Y Z p, read_only (SetTransformations sc X Y Z p))
  /\ (forall r g b a, read_only (SetShaderColor r g b a))
  /\ (forall t, read_only (SetShaderTexture t))
  /\ (forall u v, read_only (SetTextureUVScale u v))
  /\ (forall t, read_only (SetShaderMaterial t))
  /\ read_only SetupSceneLights
  /\ read_only RenderScene.
Proof.
  repeat split; intros; apply preserves_read_only; intros I;
    auto using preserves_RenderScene with frame.
Qed.

Lemma preserves_set_texture_at_bounds n i f :
  preserves (registry_in_bounds n) (set_texture_at i f).
Proof.
  intros w a w' [Hlen Hb] H. unfold set_texture_at, bind in H.
  destruct (texture_at i w) as [[e w1]| |] eqn:He; try discriminate.
  destruct (texture_at_cases i w) as [Hu | [e' He']]; rewrite ?Hu, ?He' in He;
    [discriminate|].
  injection He as <- <-. unfold get_self, put_self in H.
  injection H as <- <-. split; simpl; [now rewrite length_insert | exact Hb].
Qed.

Lemma preserves_DestroyGLTextures_bounds n :
  preserves (registry_in_bounds n) DestroyGLTextures.
Proof.
  unfold DestroyGLTextures.
  pose proof (preserves_set_texture_at_bounds n) as Hset.
  frame.
Qed.

Lemma preserves_CreateGLTexture_bounds n filename t :
  preserves (registry_in_bounds n) (CreateGLTexture filename t).
Proof.
  intros w b w' [Hlen Hb] H.
  destruct (image_files (host w) filename) as [img|] eqn:Himg.
  - destruct (usable_image (Some img)) eqn:Hu.
    + destruct (Z_lt_dec (m_loadedTextures (self w)) (Z.of_nat n)) as [Hlt|Hge].
      * simpl in Hu. apply orb_true_iff in Hu. rewrite !Z.eqb_eq in Hu.
        destruct (CreateGLTexture_registers w filename t img Himg Hu)
          as (w1 & Hrun & Hself & _); [lia|].
        rewrite Hrun in H. injection H as <- <-. rewrite Hself.
        split; simpl; [now rewrite length_insert | lia].
      * rewrite CreateGLTexture_outside_array in H;
          [discriminate | now rewrite Himg | lia].
    + simpl in Hu. apply orb_false_elim in Hu as [H3 H4].
      apply Z.eqb_neq in H3, H4.
      destruct (CreateGLTexture_channels w filename t img Himg H3 H4)
        as (w1 & Hrun & Hself & _).
      rewrite Hrun in H. injection H as <- <-. rewrite Hself. now split.
  - rewrite (CreateGLTexture_missing w filename t Himg) in H.
    injection H as <- <-. now split.
Qed.

Lemma preserves_push_back_material_bounds n m :
  preserves (registry_in_bounds n) (push_back_material m).
Proof.
  intros w a w' HI H. unfold push_back_material, bind, get_self, put_self in H.
  injection H as <- <-. exact HI.
Qed.

Lemma preserves_LoadSceneTextures_bounds n :
  preserves (registry_in_bounds n) LoadSceneTextures.
Proof.
  unfold LoadSceneTextures.
  pose proof (preserves_CreateGLTexture_bounds n) as Hc.
  frame.
Qed.

Lemma preserves_PrepareScene_bounds n :
  preserves (registry_in_bounds n) PrepareScene.
Proof.
  unfold PrepareScene, DefineObjectMaterials.
  pose proof (preserves_LoadSceneTextures_bounds n) as Hl.
  pose proof (preserves_push_back_material_bounds n) as Hp.
  frame.
Qed.

Lemma lookups_and_rendering_read_only_witness :
  match RenderScene prepared_world with
  | Ok (_, w') => self w' = self prepared_world
  | _ => False
  end.
Proof.
  destruct (RenderScene prepared_world) as [[a w']| |] eqn:Hrun.
  - exact (proj2 (proj2 (proj2 (proj2 (proj2 (proj2 (proj2 (proj2 (proj2 (proj2
             lookups_and_rendering_read_only)))))))))
             prepared_world a w' Hrun).
  - vm_compute in Hrun. discriminate.
  - vm_compute in Hrun. discriminate.
Defined.

(** ** The calls and the world of one load *)

Lemma CreateGLTexture_registers_exact w filename t img :
  image_files (host w) filename = Some img ->
  colorChannels img = 3 \/ colorChannels img = 4 ->
  0 <= m_loadedTextures (self w) < Z.of_nat (length (m_textureIDs (self w))) ->
  CreateGLTexture filename t w =
    Ok (true,
        {| self :=
             {| m_pShaderManager := m_pShaderManager (self w);
                m_loadedTextures := m_loadedTextures (self w) + 1;
                m_textureIDs :=
                  <[Z.to_nat (m_loadedTextures (self w)) :=
                      {| ID := texture_names (host w) (names_generated w);
                         tag := t |}]> (m_textureIDs (self w));
                m_objectMaterials := m_objectMaterials (self w) |};
           host := host w;
           names_generated := S (names_generated w);
           calls :=
             calls w
             ++ decode_calls filename img
                  (texture_names (host w) (names_generated w))
             ++ [ upload_call img;
                  glGenerateMipmap GL_TEXTURE_2D;
                  stbi_image_free img;
                  glBindTexture GL_TEXTURE_2D 0 ] |}).
Proof.
  intros H Hc Hn.
  destruct (lookup_lt_is_Some_2 (m_textureIDs (self w))
              (Z.to_nat (m_loadedTextures (self w)))) as [e He]; [lia|].
  set (n := Z.to_nat (m_loadedTextures (self w))) in *.
  assert (Hn' : m_loadedTextures (self w) = Z.of_nat n) by lia.
  assert (Hup : upload_call img =
                if colorChannels img =? 3
                then glTexImage2D GL_TEXTURE_2D 0 GL_RGB8 (width img) (height img) 0
                       GL_RGB GL_UNSIGNED_BYTE img
                else glTexImage2D GL_TEXTURE_2D 0 GL_RGBA8 (width img) (height img) 0
                       GL_RGBA GL_UNSIGNED_BYTE img) by reflexivity.
  unfold CreateGLTexture, bind, emit, stbi_load, get_host, ret, glGenTextures_1,
    get_self, set_loadedTextures, put_self.
  simpl. rewrite H.
  assert (Hset : forall cs name,
    set_texture_at (Z.of_nat n) (with_ID name)
      {| self := self w; host := host w;
         names_generated := S (names_generated w); calls := cs |}
    = Ok (tt, {| self := {| m_pShaderManager := m_pShaderManager (self w);
                            m_loadedTextures := m_loadedTextures (self w);
                            m_textureIDs := <[n := with_ID name e]> (m_textureIDs (self w));
                            m_objectMaterials := m_objectMaterials (self w) |};
                 host := host w;
                 names_generated := S (names_generated w);
                 calls := cs |})).
  { intros cs name. now rewrite (set_texture_at_run _ n e) by exact He. }
  assert (Hset2 : forall cs name,
    set_texture_at (Z.of_nat n) (with_tag t)
      {| self := {| m_pShaderManager := m_pShaderManager (self w);
                    m_loadedTextures := m_loadedTextures (self w);
                    m_textureIDs := <[n := with_ID name e]> (m_textureIDs (self w));
                    m_objectMaterials := m_objectMaterials (self w) |};
         host := host w;
         names_generated := S (names_generated w); calls := cs |}
    = Ok (tt, {| self := {| m_pShaderManager := m_pShaderManager (self w);
                            m_loadedTextures := m_loadedTextures (self w);
                            m_textureIDs := <[n := {| ID := name; tag := t |}]>
                                              (m_textureIDs (self w));
                            m_objectMaterials := m_objectMaterials (self w) |};
                 host := host w;
                 names_generated := S (names_generated w);
                 calls := cs |})).
  { intros cs name.
    rewrite (set_texture_at_run _ n (with_ID name e)).
    - simpl. now rewrite list_insert_insert_eq.
    - simpl. apply list_lookup_insert_eq. now apply lookup_lt_Some in He. }
  rewrite Hup.
  destruct Hc as [Hc|Hc]; rewrite Hc; unfold add_calls; simpl;
    rewrite Hn', Hset, Hset2; simpl; rewrite <- !app_assoc; reflexivity.
Qed.

Lemma CreateGLTexture_channels_exact w filename t img :
  image_files (host w) filename = Some img ->
  colorChannels img <> 3 -> colorChannels img <> 4 ->
  CreateGLTexture filename t w =
    Ok (false,
        {| self := self w;
           host := host w;
           names_generated := S (names_generated w);
           calls :=
             calls w
             ++ decode_calls filename img
                  (texture_names (host w) (names_generated w))
             ++ [cout_not_implemented (colorChannels img)] |}).
Proof.
  intros H H3 H4. apply Z.eqb_neq in H3, H4.
  unfold CreateGLTexture, bind, emit, stbi_load, get_host, ret, glGenTextures_1.
  simpl. rewrite H, H3, H4. unfold add_calls. simpl.
  rewrite <- !app_assoc. reflexivity.
Qed.

(** X3.  [CreateGLTexture] does not test [m_loadedTextures] against the size
    of the array: called with an image it can register while the index
    [m_loadedTextures] lies outside the array (a full array, or a negative
    count), it writes outside the array, which is undefined behaviour. *)
Theorem CreateGLTexture_full_array_undefined (w : World) (filename t : string) :
  usable_image (image_files (host w) filename) = true ->
  ~ (0 <= m_loadedTextures (self w) < Z.of_nat (length (m_textureIDs (self w)))) ->
  CreateGLTexture filename t w = Undefined.
Proof. apply CreateGLTexture_outside_array. Qed.

Lemma CreateGLTexture_full_array_undefined_witness :
  CreateGLTexture "../../Utilities/textures/wax.jpg" "wax"
    {| self := {| m_pShaderManager := Object; m_loadedTextures := 16;
                  m_textureIDs := m_textureIDs sample_manager;
                  m_objectMaterials := [] |};
       host := sample_host; names_generated := 16; calls := [] |}
  = Undefined.
Proof.
  apply CreateGLTexture_full_array_undefined.
  - reflexivity.
  - simpl. lia.
Defined.

(** X4.  Once the image is decoded, [CreateGLTexture] has a texture name
    generated before it looks at the channels.  When it then registers the
    texture it frees the image and ends by unbinding the texture; when it
    gives up on the channels it returns with the name used up, and neither
    frees the image nor deletes the texture. *)
Theorem CreateGLTexture_frees_image_only_on_success
    (w : World) (filename t : string) (img : Image) :
  image_files (host w) filename = Some img ->
  0 <= m_loadedTextures (self w) < Z.of_nat (length (m_textureIDs (self w))) ->
  exists b w',
    CreateGLTexture filename t w = Ok (b, w')
    /\ names_generated w' = S (names_generated w)
    /\ (glGenTextures (texture_names (host w) (names_generated w))
        ∈ new_calls w w')
    /\ (b = true ->
        (stbi_image_free img ∈ new_calls w w')
        /\ last (new_calls w w') = Some (glBindTexture GL_TEXTURE_2D 0))
    /\ (b = false ->
        (stbi_image_free img ∉ new_calls w w')
        /\ (forall name, glDeleteTextures name ∉ new_calls w w')
        /\ last (new_calls w w')
           = Some (cout_not_implemented (colorChannels img))).
Proof.
  intros Himg Hn.
  destruct (Z.eq_dec (colorChannels img) 3) as [H3|H3];
    [|destruct (Z.eq_dec (colorChannels img) 4) as [H4|H4]].
  1,2: eexists true, _; split;
       [apply (CreateGLTexture_registers_exact w filename t img Himg);
        [tauto | exact Hn]|];
       split; [reflexivity|]; unfold new_calls; simpl;
       rewrite drop_app_length; split; [|split; [|discriminate]];
       [ unfold decode_calls; simpl; repeat constructor
       | intros _; split; [ simpl; repeat constructor | reflexivity ] ].
  eexists false, _. split;
    [apply (CreateGLTexture_channels_exact w filename t img Himg H3 H4)|].
  split; [reflexivity|]. unfold new_calls. simpl. rewrite drop_app_length.
  split; [unfold decode_calls; simpl; repeat constructor|].
  split; [discriminate|]. intros _. split; [|split; [|reflexivity]].
  - unfold decode_calls. simpl. intros Hin.
    repeat (apply elem_of_cons in Hin as [Hin|Hin]; [discriminate|]).
    now apply elem_of_nil in Hin.
  - unfold decode_calls. simpl. intros name Hin.
    repeat (apply elem_of_cons in Hin as [Hin|Hin]; [discriminate|]).
    now apply elem_of_nil in Hin.
Qed.

Lemma CreateGLTexture_frees_image_only_on_success_witness :
  exists b w',
    CreateGLTexture "gray.png" "gray" sample_world = Ok (b, w')
    /\ names_generated w' = 1%nat
    /\ b = false
    /\ (stbi_image_free {| width := 8; height := 8; colorChannels := 1 |}
        ∉ new_calls sample_world w').
Proof.
  destruct (CreateGLTexture_frees_image_only_on_success sample_world
              "gray.png" "gray" {| width := 8; height := 8; colorChannels := 1 |})
    as (b & w' & Hrun & Hnames & _ & _ & Hfalse).
  - reflexivity.
  - simpl. lia.
  - exists b, w'. split; [exact Hrun|]. split; [exact Hnames|].
    assert (Hb : b = false).
    { assert (Hr : returned (CreateGLTexture "gray.png" "gray" sample_world)
                   = Some false) by reflexivity.
      rewrite Hrun in Hr. now injection Hr. }
    split; [exact Hb|]. exact (proj1 (Hfalse Hb)).
Defined.

(** ** Registering and finding *)

Lemma registered_after_register s x :
  0 <= m_loadedTextures s < Z.of_nat (length (m_textureIDs s)) ->
  registered {| m_pShaderManager := m_pShaderManager s;
                m_loadedTextures := m_loadedTextures s + 1;
                m_textureIDs := <[Z.to_nat (m_loadedTextures s) := x]> (m_textureIDs s);
                m_objectMaterials := m_objectMaterials s |}
  = registered s ++ [x].
Proof.
  intros Hn. unfold registered. simpl.
  replace (Z.to_nat (m_loadedTextures s + 1))
    with (S (Z.to_nat (m_loadedTextures s))) by lia.
  erewrite take_S_r.
  2:{ apply list_lookup_insert_eq. lia. }
  now rewrite take_insert_ge by lia.
Qed.

Lemma in_bounds_within_array n s : registry_in_bounds n s -> within_array s.
Proof. intros [Hlen Hb]. unfold within_array. rewrite Hlen. lia. Qed.

Lemma CreateGLTexture_registered n w filename t b w' :
  registry_in_bounds n (self w) ->
  CreateGLTexture filename t w = Ok (b, w') ->
  registry_in_bounds n (self w')
  /\ host w' = host w
  /\ registered (self w') =
     registered (self w)
     ++ (if b then [{| ID := texture_names (host w) (names_generated w);
                       tag := t |}]
         else []).
Proof.
  intros Hin H.
  split; [exact (preserves_CreateGLTexture_bounds n filename t w b w' Hin H)|].
  destruct Hin as [Hlen Hb].
  destruct (image_files (host w) filename) as [img|] eqn:Himg.
  - destruct (usable_image (Some img)) eqn:Hu.
    + destruct (Z_lt_dec (m_loadedTextures (self w)) (Z.of_nat n)) as [Hlt|Hge].
      * simpl in Hu. apply orb_true_iff in Hu. rewrite !Z.eqb_eq in Hu.
        rewrite (CreateGLTexture_registers_exact w filename t img Himg Hu) in H
          by lia.
        injection H as <- <-. simpl. split; [reflexivity|].
        apply registered_after_register. lia.
      * rewrite CreateGLTexture_outside_array in H;
          [discriminate | now rewrite Himg | lia].
    + simpl in Hu. apply orb_false_elim in Hu as [H3 H4].
      apply Z.eqb_neq in H3, H4.
      rewrite (CreateGLTexture_channels_exact w filename t img Himg H3 H4) in H.
      injection H as <- <-. simpl. now rewrite app_nil_r.
  - rewrite (CreateGLTexture_missing w filename t Himg) in H.
    injection H as <- <-. simpl. now rewrite app_nil_r.
Qed.

(** X5.  A texture that was registered is found: when [CreateGLTexture]
    returns true for a tag that no registered entry carried, [FindTextureSlot]
    on that tag returns the value [m_loadedTextures] had before the call, and
    [FindTextureID] the name the driver gave the texture (as an [int]). *)
Theorem CreateGLTexture_then_find (n : nat) (w w' : World) (filename t : string) :
  registry_in_bounds n (self w) ->
  (forall e, e ∈ registered (self w) -> tag e <> t) ->
  CreateGLTexture filename t w = Ok (true, w') ->
  FindTextureSlot t w' = Ok (m_loadedTextures (self w), w')
  /\ FindTextureID t w' =
     Ok (int_of_GLuint (texture_names (host w) (names_generated w)), w').
Proof.
  intros Hin Hfresh Hrun.
  destruct (CreateGLTexture_registered n w filename t true w' Hin Hrun)
    as (Hin' & _ & Hreg).
  pose proof (in_bounds_within_array _ _ Hin') as Hwf'.
  assert (Hfind : list_find (fun e => tag e = t) (registered (self w'))
                  = Some (Z.to_nat (m_loadedTextures (self w)),
                          {| ID := texture_names (host w) (names_generated w);
                             tag := t |})).
  { rewrite Hreg, list_find_app_r by now apply no_match_find.
    simpl. rewrite decide_True by reflexivity. simpl.
    rewrite length_registered by exact (in_bounds_within_array _ _ Hin).
    reflexivity. }
  split.
  - rewrite FindTextureSlot_run by exact Hwf'. unfold texture_slot.
    rewrite Hfind. destruct Hin as [_ Hb]. now rewrite Z2Nat.id by lia.
  - rewrite FindTextureID_run by exact Hwf'. now rewrite Hfind.
Qed.

Lemma prepared_world_in_bounds :
  registry_in_bounds TEXTURE_SLOTS (self prepared_world).
Proof. split; [reflexivity|]. vm_compute. split; discriminate. Defined.

Lemma CreateGLTexture_then_find_witness :
  exists w',
    CreateGLTexture "../../Utilities/textures/wax.jpg" "wax" prepared_world
      = Ok (true, w')
    /\ FindTextureSlot "wax" w' = Ok (10, w')
    /\ FindTextureID "wax" w' = Ok (11, w').
Proof.
  assert (Hrun : exists w', CreateGLTexture "../../Utilities/textures/wax.jpg"
                              "wax" prepared_world = Ok (true, w')).
  { eexists. vm_compute. reflexivity. }
  destruct Hrun as [w' Hrun]. exists w'. split; [exact Hrun|].
  apply (CreateGLTexture_then_find TEXTURE_SLOTS prepared_world w'
           "../../Utilities/textures/wax.jpg" "wax").
  - exact prepared_world_in_bounds.
  - intros e He. vm_compute in He.
    repeat (apply elem_of_cons in He as [->|He]; [discriminate|]).
    now apply elem_of_nil in He.
  - exact Hrun.
Defined.

(** X6.  Registering never changes what a lookup of an already registered
    tag returns, whatever the outcome of the load and even when the new
    texture carries the same tag: the earlier entry stays the first match. *)
Theorem CreateGLTexture_keeps_lookups
    (n : nat) (w w' : World) (filename t t' : string) (b : bool)
    (i : nat) (e : TEXTURE_INFO) :
  registry_in_bounds n (self w) ->
  first_at (fun e => tag e = t') (registered (self w)) i e ->
  CreateGLTexture filename t w = Ok (b, w') ->
  FindTextureSlot t' w' = Ok (Z.of_nat i, w')
  /\ FindTextureID t' w' = Ok (int_of_GLuint (ID e), w').
Proof.
  intros Hin (Hi & Ht & Hleast) Hrun.
  destruct (CreateGLTexture_registered n w filename t b w' Hin Hrun)
    as (Hin' & _ & Hreg).
  pose proof (in_bounds_within_array _ _ Hin') as Hwf'.
  assert (Hfind : list_find (fun e => tag e = t') (registered (self w'))
                  = Some (i, e)).
  { rewrite Hreg. apply list_find_app_l, list_find_Some.
    repeat split; try assumption.
    intros j e' Hj Hlt. now apply (Hleast j e'). }
  split.
  - rewrite FindTextureSlot_run by exact Hwf'. unfold texture_slot.
    now rewrite Hfind.
  - rewrite FindTextureID_run by exact Hwf'. now rewrite Hfind.
Qed.

Lemma CreateGLTexture_keeps_lookups_witness :
  exists w',
    CreateGLTexture "../../Utilities/textures/wax.jpg" "mug" prepared_world
      = Ok (true, w')
    /\ FindTextureSlot "mug" w' = Ok (9, w')
    /\ FindTextureID "mug" w' = Ok (10, w').
Proof.
  assert (Hrun : exists w', CreateGLTexture "../../Utilities/textures/wax.jpg"
                              "mug" prepared_world = Ok (true, w')).
  { eexists. vm_compute. reflexivity. }
  destruct Hrun as [w' Hrun]. exists w'. split; [exact Hrun|].
  apply (CreateGLTexture_keeps_lookups TEXTURE_SLOTS prepared_world w'
           "../../Utilities/textures/wax.jpg" "mug" "mug" true 9%nat
           {| ID := 10; tag := "mug" |}).
  - exact prepared_world_in_bounds.
  - split; [reflexivity|]. split; [reflexivity|].
    intros j e' Hj He'.
    do 9 (destruct j as [|j]; [vm_compute in He'; injection He' as <-; discriminate|]).
    lia.
  - exact Hrun.
Defined.

(** ** The ten loads as a table *)

Lemma LoadSceneTextures_table :
  LoadSceneTextures = load_then scene_textures BindGLTextures.
Proof. reflexivity. Qed.

Lemma loaded_entries_length h table : forall g,
  (length (loaded_entries h g table) <= length table)%nat.
Proof.
  induction table as [|[f t] rest IH]; intros g; simpl; [lia|].
  destruct (image_files h f) as [img|]; [|specialize (IH g); lia].
  destruct (_ || _); simpl; specialize (IH (S g)); lia.
Qed.

Lemma load_then_fits n table : forall w k,
  registry_in_bounds n (self w) ->
  m_loadedTextures (self w)
  + Z.of_nat (length (loaded_entries (host w) (names_generated w) table))
  <= Z.of_nat n ->
  exists w1,
    load_then table k w = k w1
    /\ registry_in_bounds n (self w1)
    /\ registered (self w1) =
       registered (self w) ++ loaded_entries (host w) (names_generated w) table
    /\ m_pShaderManager (self w1) = m_pShaderManager (self w)
    /\ m_objectMaterials (self w1) = m_objectMaterials (self w).
Proof.
  induction table as [|[f t] rest IH]; intros w k Hin Hfit.
  - exists w. simpl. rewrite app_nil_r. repeat split; try assumption; apply Hin.
  - cbn [load_then loaded_entries] in Hfit |- *. pose proof Hin as [Hlen Hb].
    destruct (image_files (host w) f) as [img|] eqn:Himg.
    + destruct (usable_image (Some img)) eqn:Hu.
      * simpl in Hfit. simpl in Hu. apply orb_true_iff in Hu.
        rewrite !Z.eqb_eq in Hu.
        erewrite bind_Ok.
        2:{ apply (CreateGLTexture_registers_exact w f t img Himg Hu). lia. }
        match goal with
        | |- context [load_then rest k ?w1] =>
            destruct (IH w1 k) as (w2 & Hrun & Hin2 & Hreg & Hsh & Hmat)
        end.
        { split; simpl; [now rewrite length_insert | lia]. }
        { simpl. lia. }
        exists w2. split; [exact Hrun|]. split; [exact Hin2|].
        simpl in Hreg, Hsh, Hmat.
        rewrite registered_after_register in Hreg by lia.
        rewrite <- app_assoc in Hreg. simpl in Hreg.
        repeat split; assumption.
      * simpl in Hu. apply orb_false_elim in Hu as [H3 H4].
        apply Z.eqb_neq in H3, H4.
        rewrite (bind_Ok _ _ _ _ _
                   (CreateGLTexture_channels_exact w f t img Himg H3 H4)).
        match goal with
        | |- context [load_then rest k ?w1] =>
            destruct (IH w1 k) as (w2 & Hrun & Hin2 & Hreg & Hsh & Hmat)
        end; [exact Hin | exact Hfit |].
        exists w2. repeat split; try assumption; apply Hin2.
    + rewrite (bind_Ok _ _ _ _ _ (CreateGLTexture_missing w f t Himg)).
      destruct (IH (add_calls [stbi_set_flip_vertically_on_load true;
                               cout_could_not_load f] w) k)
        as (w2 & Hrun & Hin2 & Hreg & Hsh & Hmat); [exact Hin | exact Hfit |].
      exists w2. repeat split; try assumption; apply Hin2.
Qed.

Lemma load_then_overflows n table : forall w k,
  registry_in_bounds n (self w) ->
  Z.of_nat n
  < m_loadedTextures (self w)
    + Z.of_nat (length (loaded_entries (host w) (names_generated w) table)) ->
  load_then table k w = Undefined.
Proof.
  induction table as [|[f t] rest IH]; intros w k Hin Hover.
  - destruct Hin as [_ Hb]. simpl in Hover. lia.
  - cbn [load_then loaded_entries] in Hover |- *. pose proof Hin as [Hlen Hb].
    destruct (image_files (host w) f) as [img|] eqn:Himg.
    + destruct (usable_image (Some img)) eqn:Hu.
      * destruct (Z_lt_dec (m_loadedTextures (self w)) (Z.of_nat n)) as [Hlt|Hge].
        -- simpl in Hover. simpl in Hu. apply orb_true_iff in Hu.
           rewrite !Z.eqb_eq in Hu.
           erewrite bind_Ok.
           2:{ apply (CreateGLTexture_registers_exact w f t img Himg Hu). lia. }
           apply IH.
           ++ split; simpl; [now rewrite length_insert | lia].
           ++ simpl. lia.
        -- unfold bind. rewrite CreateGLTexture_outside_array;
             [reflexivity | now rewrite Himg | lia].
      * simpl in Hu. apply orb_false_elim in Hu as [H3 H4].
        apply Z.eqb_neq in H3, H4.
        rewrite (bind_Ok _ _ _ _ _
                   (CreateGLTexture_channels_exact w f t img Himg H3 H4)).
        apply IH; [exact Hin | exact Hover].
    + rewrite (bind_Ok _ _ _ _ _ (CreateGLTexture_missing w f t Himg)).
      apply IH; [exact Hin | exact Hover].
Qed.

(** X7.  [LoadSceneTextures] with the registry in bounds.  Every image that
    decodes to three or four channels takes a slot, in the order of the
    calls, and the loads that fail are skipped without a trace in the
    registry (the return values are not looked at).  If the textures that
    can be registered fit into the free slots the function returns with
    exactly these entries appended; if they do not fit, it runs into the
    write outside the array and is undefined, as in a second run after ten
    textures were registered in sixteen slots. *)
Theorem LoadSceneTextures_capacity (n : nat) (w : World) :
  registry_in_bounds n (self w) ->
  (m_loadedTextures (self w)
   + Z.of_nat (length (loaded_entries (host w) (names_generated w) scene_textures))
   <= Z.of_nat n ->
   exists w',
     LoadSceneTextures w = Ok (tt, w')
     /\ registered (self w') =
        registered (self w)
        ++ loaded_entries (host w) (names_generated w) scene_textures)
  /\ (Z.of_nat n
      < m_loadedTextures (self w)
        + Z.of_nat (length (loaded_entries (host w) (names_generated w)
                                           scene_textures)) ->
      LoadSceneTextures w = Undefined).
Proof.
  intros Hin. rewrite LoadSceneTextures_table. split.
  - intros Hfit.
    destruct (load_then_fits n scene_textures w BindGLTextures Hin Hfit)
      as (w1 & Hrun & Hin1 & Hreg & _).
    rewrite Hrun, BindGLTextures_run by exact (in_bounds_within_array _ _ Hin1).
    eexists. split; [reflexivity|]. exact Hreg.
  - intros Hover. now apply (load_then_overflows n).
Qed.

Lemma LoadSceneTextures_capacity_witness :
  (exists w',
      LoadSceneTextures poor_world = Ok (tt, w')
      /\ map tag (registered (self w')) =
         ["counter"; "box_white"; "box_red"; "box_blue"; "paperbag";
          "bagclip"; "label"; "candlewax"])
  /\ LoadSceneTextures prepared_world = Undefined.
Proof.
  split.
  - destruct (proj1 (LoadSceneTextures_capacity TEXTURE_SLOTS poor_world
                       ltac:(split; [reflexivity | simpl; lia])))
      as (w' & Hrun & Hreg).
    + vm_compute. discriminate.
    + exists w'. split; [exact Hrun|]. rewrite Hreg. reflexivity.
  - apply (proj2 (LoadSceneTextures_capacity TEXTURE_SLOTS prepared_world
                    prepared_world_in_bounds)).
    vm_compute. reflexivity.
Defined.

Lemma LoadSceneTextures_registry n w :
  registry_in_bounds n (self w) ->
  m_loadedTextures (self w)
  + Z.of_nat (length (loaded_entries (host w) (names_generated w) scene_textures))
  <= Z.of_nat n ->
  exists w',
    LoadSceneTextures w = Ok (tt, w')
    /\ registry_in_bounds n (self w')
    /\ registered (self w') =
       registered (self w)
       ++ loaded_entries (host w) (names_generated w) scene_textures
    /\ m_pShaderManager (self w') = m_pShaderManager (self w)
    /\ m_objectMaterials (self w') = m_objectMaterials (self w).
Proof.
  intros Hin Hfit. rewrite LoadSceneTextures_table.
  destruct (load_then_fits n scene_textures w BindGLTextures Hin Hfit)
    as (w1 & Hrun & Hin1 & Hreg & Hsh & Hmat).
  rewrite Hrun, BindGLTextures_run by exact (in_bounds_within_array _ _ Hin1).
  eexists. split; [reflexivity|].
  exact (conj Hin1 (conj Hreg (conj Hsh Hmat))).
Qed.

Lemma loaded_entries_tag h table : forall g e,
  e ∈ loaded_entries h g table ->
  exists f, (f, tag e) ∈ table /\ usable_image (image_files h f) = true.
Proof.
  induction table as [|[f t] rest IH]; intros g e He;
    cbn [loaded_entries] in He.
  - now apply elem_of_nil in He.
  - destruct (image_files h f) as [img|] eqn:Himg.
    + destruct (usable_image (Some img)) eqn:Hu.
      * apply elem_of_cons in He as [-> | He].
        -- exists f. split; [left | now rewrite Himg].
        -- destruct (IH _ _ He) as (f' & Hin & Hus).
           exists f'. split; [now right | exact Hus].
      * destruct (IH _ _ He) as (f' & Hin & Hus).
        exists f'. split; [now right | exact Hus].
    + destruct (IH _ _ He) as (f' & Hin & Hus).
      exists f'. split; [now right | exact Hus].
Qed.

Lemma loaded_entries_usable h table f t : forall g,
  (f, t) ∈ table -> usable_image (image_files h f) = true ->
  exists e, e ∈ loaded_entries h g table /\ tag e = t.
Proof.
  induction table as [|[f' t'] rest IH]; intros g Hin Hus.
  - now apply elem_of_nil in Hin.
  - cbn [loaded_entries]. apply elem_of_cons in Hin as [Heq | Hin].
    + injection Heq as <- <-.
      destruct (image_files h f) as [img|]; [|discriminate].
      rewrite Hus. eexists. split; [left | reflexivity].
    + destruct (image_files h f') as [img|].
      * destruct (usable_image (Some img)).
        -- destruct (IH (S g) Hin Hus) as (e & He & Ht).
           exists e. split; [now right | exact Ht].
        -- exact (IH (S g) Hin Hus).
      * exact (IH g Hin Hus).
Qed.

Lemma one_file_per_tag (table : list (string * string)) f f' t :
  NoDup (snd <$> table) -> (f, t) ∈ table -> (f', t) ∈ table -> f = f'.
Proof.
  induction table as [|[f0 t0] rest IH]; intros Hnd Hin Hin'.
  - now apply elem_of_nil in Hin.
  - rewrite fmap_cons in Hnd. apply NoDup_cons in Hnd as [Hnot Hnd].
    assert (Hrest : forall x, (x, t0) ∈ rest -> False).
    { intros x Hx. apply Hnot.
      exact (list_elem_of_fmap_2 snd rest (x, t0) Hx). }
    apply elem_of_cons in Hin as [Heq | Hin];
      apply elem_of_cons in Hin' as [Heq' | Hin'].
    + congruence.
    + injection Heq as -> ->. now apply Hrest in Hin'.
    + injection Heq' as -> ->. now apply Hrest in Hin.
    + now apply IH.
Qed.

Lemma scene_tags_distinct : NoDup (snd <$> scene_textures).
Proof.
  apply (bool_decide_unpack (NoDup (snd <$> scene_textures))).
  vm_compute. exact I.
Qed.

(** X8.  After [LoadSceneTextures] on an empty registry, a tag of the scene
    has no slot ([FindTextureSlot] returns -1) exactly when its image did
    not decode to three or four channels: a texture whose load failed is
    simply missing from the registry, and the textures loaded after it move
    up one slot. *)
Theorem LoadSceneTextures_failed_load_unregistered
    (w w' : World) (filename t : string) :
  m_loadedTextures (self w) = 0 ->
  length (m_textureIDs (self w)) = TEXTURE_SLOTS ->
  (filename, t) ∈ scene_textures ->
  LoadSceneTextures w = Ok (tt, w') ->
  (FindTextureSlot t w' = Ok (-1, w')
   <-> usable_image (image_files (host w) filename) = false)
  /\ registered (self w') =
     loaded_entries (host w) (names_generated w) scene_textures.
Proof.
  intros Hzero Hlen Hrow Hrun.
  assert (Hin : registry_in_bounds TEXTURE_SLOTS (self w)).
  { split; [exact Hlen | rewrite Hzero; unfold TEXTURE_SLOTS; lia]. }
  pose proof (loaded_entries_length (host w) scene_textures
                (names_generated w)) as Hl.
  pose proof (fun e => loaded_entries_tag (host w) scene_textures
                         (names_generated w) e) as Htag.
  pose proof (loaded_entries_usable (host w) scene_textures filename t
                (names_generated w) Hrow) as Husable.
  pose proof (fun f' => one_file_per_tag scene_textures filename f' t
                          scene_tags_distinct Hrow) as Hone.
  destruct (LoadSceneTextures_registry TEXTURE_SLOTS w Hin)
    as (w1 & Hrun1 & Hin1 & Hreg & _).
  { rewrite Hzero. change (length scene_textures) with 10%nat in Hl.
    unfold TEXTURE_SLOTS. lia. }
  rewrite Hrun1 in Hrun. injection Hrun as <-.
  assert (Hempty : registered (self w) = []).
  { unfold registered. now rewrite Hzero. }
  rewrite Hempty, app_nil_l in Hreg.
  set (entries := loaded_entries (host w) (names_generated w) scene_textures) in *.
  clearbody entries.
  split; [|exact Hreg].
  rewrite FindTextureSlot_run by exact (in_bounds_within_array _ _ Hin1).
  unfold texture_slot. rewrite Hreg.
  destruct (list_find (fun e => tag e = t) entries) as [[i e]|] eqn:Hfind.
  - apply list_find_Some in Hfind as (Hi & Ht & _).
    apply list_elem_of_lookup_2 in Hi.
    destruct (Htag e Hi) as (f' & Hrow' & Hus).
    rewrite Ht in Hrow'. rewrite (Hone f' Hrow').
    split; [intros H; injection H; lia | congruence].
  - split; [|reflexivity]. intros _.
    destruct (usable_image (image_files (host w) filename)) eqn:Hus;
      [|reflexivity].
    destruct (Husable eq_refl) as (e & He & Ht).
    apply list_find_None in Hfind.
    exfalso. exact (proj1 (Forall_forall _ _) Hfind e He Ht).
Qed.

Lemma LoadSceneTextures_failed_load_unregistered_witness :
  exists w',
    LoadSceneTextures poor_world = Ok (tt, w')
    /\ FindTextureSlot "mug" w' = Ok (-1, w')
    /\ FindTextureSlot "wall" w' = Ok (-1, w')
    /\ map tag (registered (self w')) =
       ["counter"; "box_white"; "box_red"; "box_blue"; "paperbag";
        "bagclip"; "label"; "candlewax"].
Proof.
  assert (Hrun : exists w', LoadSceneTextures poor_world = Ok (tt, w')).
  { eexists. vm_compute. reflexivity. }
  destruct Hrun as [w' Hrun]. exists w'. split; [exact Hrun|].
  destruct (LoadSceneTextures_failed_load_unregistered poor_world w'
              "../../Utilities/textures/ceramic.jpg" "mug"
              eq_refl eq_refl ltac:(repeat constructor) Hrun) as [Hmug Hreg].
  destruct (LoadSceneTextures_failed_load_unregistered poor_world w'
              "../../Utilities/textures/tiles.jpg" "wall"
              eq_refl eq_refl ltac:(repeat constructor) Hrun) as [Hwall _].
  split; [apply Hmug; reflexivity|].
  split; [apply Hwall; reflexivity|].
  rewrite Hreg. reflexivity.
Defined.

(** ** Texture units and samplers *)

(** X9.  The sampler value is the texture unit.  For a tag whose first
    registered entry sits in slot [i], [SetShaderTexture] hands the shader
    the sampler value [i], and [BindGLTextures] binds the texture of that
    entry while unit [GL_TEXTURE0 + i] is the active one. *)
Theorem sampler_is_bound_unit (w : World) (t : string) (i : nat)
    (e : TEXTURE_INFO) :
  ready (self w) ->
  first_at (fun e => tag e = t) (registered (self w)) i e ->
  SetShaderTexture t w =
    Ok (tt, add_calls [setIntValue g_UseTextureName 1;
                       setSampler2DValue g_TextureValueName (Z.of_nat i)] w)
  /\ exists wb,
       BindGLTextures w = Ok (tt, wb)
       /\ new_calls w wb !! (2 * i)%nat
          = Some (glActiveTexture (GL_TEXTURE0 + Z.of_nat i))
       /\ new_calls w wb !! S (2 * i)
          = Some (glBindTexture GL_TEXTURE_2D (ID e)).
Proof.
  intros Hready (Hi & Ht & Hleast).
  assert (Hfind : list_find (fun e => tag e = t) (registered (self w))
                  = Some (i, e)).
  { apply list_find_Some. repeat split; try assumption.
    intros j e' Hj Hlt. now apply (Hleast j e'). }
  split.
  - rewrite SetShaderTexture_run by exact Hready.
    unfold texture_slot. now rewrite Hfind.
  - eexists. split; [apply BindGLTextures_run, Hready|].
    rewrite new_calls_add.
    destruct (binding_calls_lookup _ 0 i e Hi) as [H1 H2].
    split; [exact H1 | exact H2].
Qed.

Lemma sampler_is_bound_unit_witness :
  SetShaderTexture "mug" prepared_world =
    Ok (tt, add_calls [setIntValue g_UseTextureName 1;
                       setSampler2DValue g_TextureValueName 9] prepared_world)
  /\ exists wb,
       BindGLTextures prepared_world = Ok (tt, wb)
       /\ new_calls prepared_world wb !! 18%nat
          = Some (glActiveTexture (GL_TEXTURE0 + 9))
       /\ new_calls prepared_world wb !! 19%nat
          = Some (glBindTexture GL_TEXTURE_2D 10).
Proof.
  apply (sampler_is_bound_unit prepared_world "mug" 9%nat
           {| ID := 10; tag := "mug" |}).
  - exact (proj1 prepared_world_prepared).
  - split; [reflexivity|]. split; [reflexivity|].
    intros j e' Hj He'.
    do 9 (destruct j as [|j]; [vm_compute in He'; injection He' as <-; discriminate|]).
    lia.
Defined.

Lemma texture_slot_by_tags s s' t :
  tag <$> registered s = tag <$> registered s' ->
  texture_slot s t = texture_slot s' t.
Proof.
  intros H. unfold texture_slot.
  pose proof (list_find_fmap tag (fun x => x = t) (registered s)) as Hs.
  pose proof (list_find_fmap tag (fun x => x = t) (registered s')) as Hs'.
  rewrite H in Hs. rewrite Hs' in Hs. clear Hs'.
  unfold compose in Hs.
  destruct (list_find _ (registered s)) as [[i e]|],
           (list_find _ (registered s')) as [[i' e']|];
    simpl in Hs; congruence.
Qed.

(** X10.  [DestroyGLTextures] unregisters nothing: on a registry within its
    array it returns, and afterwards [FindTextureSlot] answers every tag as
    it did before, while [FindTextureID] answers a registered tag with the
    name that [glGenTextures] has just produced for its slot. *)
Theorem DestroyGLTextures_keeps_slots (w : World) :
  within_array (self w) ->
  exists w',
    DestroyGLTextures w = Ok (tt, w')
    /\ (forall t v, FindTextureSlot t w = Ok (v, w) ->
                    FindTextureSlot t w' = Ok (v, w'))
    /\ (forall t i e,
          first_at (fun e => tag e = t) (registered (self w)) i e ->
          FindTextureID t w' =
            Ok (int_of_GLuint
                  (texture_names (host w) (names_generated w + i)), w')).
Proof.
  intros Hwf. destruct (array_split _ Hwf) as [Harr Hcount].
  destruct (destroy_loop (registered (self w)) []
              (loop_fuel (m_loadedTextures (self w))) w _ Harr Hcount)
    as (i0 & w' & Hrun & Ha & Hc & _).
  { unfold loop_fuel. rewrite length_registered by assumption. lia. }
  simpl in Ha, Hrun.
  assert (Hreg : registered (self w') =
                 imap (fun j e =>
                         with_ID (texture_names (host w) (names_generated w + j)) e)
                      (registered (self w))).
  { unfold registered at 1. rewrite Hc, Ha.
    rewrite take_app_length'; [reflexivity|].
    now rewrite length_imap, length_registered. }
  assert (Hwf' : within_array (self w')).
  { unfold within_array. rewrite Hc, Ha, length_app, length_imap, <- length_app.
    unfold registered. now rewrite take_drop. }
  exists w'. split.
  { unfold DestroyGLTextures, bind at 1, get_self.
    erewrite bind_Ok by exact Hrun. reflexivity. }
  split.
  - intros t v Hv. rewrite FindTextureSlot_run in Hv by exact Hwf.
    injection Hv as <-. rewrite FindTextureSlot_run by exact Hwf'.
    do 2 f_equal. apply texture_slot_by_tags.
    rewrite Hreg. apply tag_imap_with_ID.
  - intros t i e (Hi & Ht & Hleast).
    rewrite FindTextureID_run by exact Hwf'.
    assert (Hfind : list_find (fun e => tag e = t) (registered (self w'))
                    = Some (i, with_ID (texture_names (host w)
                                          (names_generated w + i)) e)).
    { apply list_find_Some. rewrite Hreg. split; [|split].
      - now rewrite list_lookup_imap, Hi.
      - exact Ht.
      - intros j e' Hj Hlt. rewrite list_lookup_imap in Hj.
        destruct (registered (self w) !! j) as [e0|] eqn:Hj0; [|discriminate].
        injection Hj as <-. simpl. now apply (Hleast j e0). }
    now rewrite Hfind.
Qed.

Lemma DestroyGLTextures_keeps_slots_witness :
  exists w',
    DestroyGLTextures prepared_world = Ok (tt, w')
    /\ FindTextureSlot "mug" w' = Ok (9, w')
    /\ FindTextureID "mug" w' = Ok (20, w').
Proof.
  destruct (DestroyGLTextures_keeps_slots prepared_world)
    as (w' & Hrun & Hslot & Hid).
  - vm_compute. discriminate.
  - exists w'. split; [exact Hrun|]. split.
    + apply Hslot. reflexivity.
    + apply (Hid "mug" 9%nat {| ID := 10; tag := "mug" |}).
      split; [reflexivity|]. split; [reflexivity|].
      intros j e' Hj He'.
      do 9 (destruct j as [|j];
            [vm_compute in He'; injection He' as <-; discriminate|]).
      lia.
Defined.

(** ** Without a shader manager *)

Lemma SetShaderMaterial_empty w t :
  m_objectMaterials (self w) = [] -> SetShaderMaterial t w = Ok (tt, w).
Proof.
  intros H. unfold SetShaderMaterial, bind, get_self, materials_size.
  now rewrite H.
Qed.

Lemma SetShaderMaterial_null w t :
  m_pShaderManager (self w) = NULL -> m_objectMaterials (self w) <> [] ->
  SetShaderMaterial t w = Undefined.
Proof.
  intros Hsh Hne. unfold SetShaderMaterial, bind at 1, get_self.
  unfold materials_size.
  destruct (m_objectMaterials (self w)) as [|e0 mats] eqn:Hmats; [congruence|].
  replace (0 <? Z.of_nat (length (e0 :: mats))) with true
    by (symmetry; apply Z.ltb_lt; simpl; lia).
  unfold bind at 1, get_host.
  rewrite (bind_Ok _ _ _ _ _ (FindMaterial_run w t _)).
  rewrite Hmats. cbv beta iota.
  unfold bind. now rewrite shader_null.
Qed.

(** X11.  The null test on the shader manager is not made everywhere.
    Without a shader manager [SetTransformations], [SetShaderColor],
    [SetShaderTexture] and [SetTextureUVScale] return without a call and
    without a lookup; [SetShaderMaterial] does the same only as long as no
    material is defined, and is undefined once one is; [SetupSceneLights] is
    undefined. *)
Theorem null_shader_guards (w : World) :
  m_pShaderManager (self w) = NULL ->
  (forall sc X Y Z p, SetTransformations sc X Y Z p w = Ok (tt, w))
  /\ (forall r g b a, SetShaderColor r g b a w = Ok (tt, w))
  /\ (forall t, SetShaderTexture t w = Ok (tt, w))
  /\ (forall u v, SetTextureUVScale u v w = Ok (tt, w))
  /\ (forall t, m_objectMaterials (self w) = [] ->
                SetShaderMaterial t w = Ok (tt, w))
  /\ (forall t, m_objectMaterials (self w) <> [] ->
                SetShaderMaterial t w = Undefined)
  /\ SetupSceneLights w = Undefined.
Proof.
  intros H. repeat split; intros.
  - now apply if_shader_null.
  - now apply if_shader_null.
  - now apply if_shader_null.
  - now apply if_shader_null.
  - now apply SetShaderMaterial_empty.
  - now apply SetShaderMaterial_null.
  - unfold SetupSceneLights, bind. now rewrite shader_null.
Qed.

Lemma null_shader_guards_witness :
  SetShaderTexture "mug" detached_world = Ok (tt, detached_world)
  /\ SetShaderMaterial "glass" detached_world = Undefined
  /\ SetupSceneLights detached_world = Undefined.
Proof.
  destruct (null_shader_guards detached_world eq_refl)
    as (_ & _ & Htex & _ & _ & Hmat & Hlights).
  split; [apply Htex|]. split; [|exact Hlights].
  apply Hmat. discriminate.
Defined.

Lemma emits_in_bind C m n cs1 cs2 :
  emits_in C m cs1 -> emits_in C n cs2 -> emits_in C (m ;; n) (cs1 ++ cs2).
Proof.
  intros Hm Hn w Hw. unfold bind. rewrite (Hm w Hw).
  rewrite (Hn (add_calls cs1 w)) by exact Hw.
  now rewrite add_calls_app.
Qed.

Lemma bare_SetTransformations sc X Y Z p :
  emits_in bare (SetTransformations sc X Y Z p) [].
Proof.
  intros w [H _]. rewrite add_calls_nil. now apply if_shader_null.
Qed.

Lemma bare_SetShaderColor r g b a : emits_in bare (SetShaderColor r g b a) [].
Proof.
  intros w [H _]. rewrite add_calls_nil. now apply if_shader_null.
Qed.

Lemma bare_SetShaderTexture t : emits_in bare (SetShaderTexture t) [].
Proof.
  intros w [H _]. rewrite add_calls_nil. now apply if_shader_null.
Qed.

Lemma bare_SetTextureUVScale u v : emits_in bare (SetTextureUVScale u v) [].
Proof.
  intros w [H _]. rewrite add_calls_nil. now apply if_shader_null.
Qed.

Lemma bare_SetShaderMaterial t : emits_in bare (SetShaderMaterial t) [].
Proof.
  intros w [_ H]. rewrite add_calls_nil. now apply SetShaderMaterial_empty.
Qed.

Lemma bare_DrawMesh m : emits_in bare (emit (DrawMesh m)) [DrawMesh m].
Proof. intros w _. reflexivity. Qed.

Create HintDb bare_scene discriminated.
#[local] Hint Resolve bare_SetTransformations bare_SetShaderColor
  bare_SetShaderTexture bare_SetTextureUVScale bare_SetShaderMaterial
  bare_DrawMesh : bare_scene.

Lemma RenderScene_bare :
  emits_in bare RenderScene (map DrawMesh (map step_mesh scene_script)).
Proof.
  unfold RenderScene, RenderCounter, RenderWall, RenderMug, RenderCandle,
    RenderBag, RenderRubiks.
  assert (H : forall cs,
            emits_in bare
              (RenderCounter ;; RenderWall ;; RenderMug ;; RenderCandle ;;
               RenderBag ;; RenderRubiks) cs ->
            cs = map DrawMesh (map step_mesh scene_script) ->
            emits_in bare
              (RenderCounter ;; RenderWall ;; RenderMug ;; RenderCandle ;;
               RenderBag ;; RenderRubiks)
              (map DrawMesh (map step_mesh scene_script)))
    by (intros cs Hcs ->; exact Hcs).
  eapply H.
  - unfold RenderCounter, RenderWall, RenderMug, RenderCandle, RenderBag,
      RenderRubiks.
    repeat (eapply emits_in_bind;
            [ first [ solve [auto with bare_scene]
                    | repeat (eapply emits_in_bind;
                              [solve [auto with bare_scene]|]);
                      solve [auto with bare_scene] ] |]).
    repeat (eapply emits_in_bind; [solve [auto with bare_scene]|]).
    solve [auto with bare_scene].
  - reflexivity.
Qed.

(** X12.  [RenderScene] without a shader manager.  As long as no material is
    defined it still draws: it makes the twenty draw calls of the scene, in
    order, and no other call.  Once a material is defined it is undefined,
    before the first draw call: [RenderCounter] reaches the unguarded
    [SetShaderMaterial]. *)
Theorem RenderScene_without_shader (w : World) :
  m_pShaderManager (self w) = NULL ->
  (m_objectMaterials (self w) = [] ->
   RenderScene w =
     Ok (tt, add_calls
               (map DrawMesh
                  [ PlaneMesh; PlaneMesh;
                    TaperedCylinderMesh; TorusMesh; TorusMesh;
                    CylinderMesh; CylinderMesh; CylinderMesh;
                    TaperedCylinderMesh; CylinderMesh; TaperedCylinderMesh;
                    TorusMesh;
                    BoxMesh; PrismMesh; PlaneMesh; PlaneMesh; PlaneMesh;
                    BoxMesh; PlaneMesh; PlaneMesh ]) w))
  /\ (m_objectMaterials (self w) <> [] -> RenderScene w = Undefined).
Proof.
  intros Hsh. split.
  - intros Hmat. exact (RenderScene_bare w (conj Hsh Hmat)).
  - intros Hne.
    unfold RenderScene, RenderCounter, bind, SetTransformations,
      SetShaderTexture.
    rewrite !(if_shader_null w) by exact Hsh.
    now rewrite SetShaderMaterial_null.
Qed.

Lemma RenderScene_without_shader_witness :
  RenderScene detached_world = Undefined
  /\ length (calls_of sample_world
               (RenderScene
                  {| self := detached sample_manager; host := sample_host;
                     names_generated := 0; calls := [] |})) = 20%nat.
Proof.
  split.
  - apply (proj2 (RenderScene_without_shader detached_world eq_refl)).
    discriminate.
  - rewrite (proj1 (RenderScene_without_shader
                      {| self := detached sample_manager; host := sample_host;
                         names_generated := 0; calls := [] |} eq_refl) eq_refl).
    reflexivity.
Defined.

(** ** Defining and finding materials *)

(** X13.  With a shader manager attached, [SetShaderMaterial] on a tag that
    some material carries hands the shader the five values of the first
    material with that tag, in the order ambient colour, ambient strength,
    diffuse colour, specular colour, shininess; nothing of its uninitialised
    local reaches the shader. *)
Theorem SetShaderMaterial_known_tag (w : World) (t : string) (i : nat)
    (e : OBJECT_MATERIAL) :
  m_pShaderManager (self w) = Object ->
  first_at (fun e => material_tag e = t) (m_objectMaterials (self w)) i e ->
  SetShaderMaterial t w =
    Ok (tt, add_calls
              [ setVec3Value "material.ambientColor" (ambientColor e);
                setFloatValue "material.ambientStrength" (ambientStrength e);
                setVec3Value "material.diffuseColor" (diffuseColor e);
                setVec3Value "material.specularColor" (specularColor e);
                setFloatValue "material.shininess" (shininess e) ] w).
Proof.
  intros Hsh (Hi & Ht & Hleast).
  assert (Hfind : list_find (fun e => material_tag e = t)
                    (m_objectMaterials (self w)) = Some (i, e)).
  { apply list_find_Some. repeat split; try assumption.
    intros j e' Hj Hlt. now apply (Hleast j e'). }
  rewrite SetShaderMaterial_run by exact Hsh.
  unfold look_calls, material_for. rewrite Hfind.
  destruct (m_objectMaterials (self w)); [discriminate | reflexivity].
Qed.

Lemma SetShaderMaterial_known_tag_witness :
  SetShaderMaterial "glass" prepared_world =
    Ok (tt, add_calls
              [ setVec3Value "material.ambientColor" (Vec3 0.7 0.7 0.7);
                setFloatValue "material.ambientStrength" 0.4%Q;
                setVec3Value "material.diffuseColor" (Vec3 0.8 0.8 0.8);
                setVec3Value "material.specularColor" (Vec3 0.7 0.7 0.7);
                setFloatValue "material.shininess" 85.0%Q ] prepared_world).
Proof.
  apply (SetShaderMaterial_known_tag prepared_world "glass" 0%nat glassMaterial).
  - reflexivity.
  - split; [reflexivity|]. split; [reflexivity|]. intros j e' Hj. lia.
Defined.

(** X14.  [DefineObjectMaterials] appends and never replaces.  A tag that a
    material carried before the call is still answered by [FindMaterial]
    with that material afterwards, also when the tag is "glass", "ceramic"
    or "cardboard"; a tag among these three that no material carried is
    answered with the preset.  Run twice, the function leaves six
    materials. *)
Theorem DefineObjectMaterials_appends (w : World) :
  exists w',
    DefineObjectMaterials w = Ok (tt, w')
    /\ (forall t m i e,
          first_at (fun e => material_tag e = t) (m_objectMaterials (self w)) i e ->
          FindMaterial t m w' = Ok ((true, copy_material e m), w'))
    /\ (forall m p,
          p ∈ [glassMaterial; ceramicMaterial; cardboardMaterial] ->
          (forall e, e ∈ m_objectMaterials (self w) ->
                     material_tag e <> material_tag p) ->
          FindMaterial (material_tag p) m w' = Ok ((true, copy_material p m), w'))
    /\ exists w'',
         DefineObjectMaterials w' = Ok (tt, w'')
         /\ m_objectMaterials (self w'') =
            m_objectMaterials (self w)
            ++ [glassMaterial; ceramicMaterial; cardboardMaterial]
            ++ [glassMaterial; ceramicMaterial; cardboardMaterial].
Proof.
  eexists. split; [apply DefineObjectMaterials_run|]. split; [|split].
  - intros t m i e (Hi & Ht & Hleast).
    rewrite FindMaterial_run. simpl.
    assert (Hfind : list_find (fun e => material_tag e = t)
                      (m_objectMaterials (self w)) = Some (i, e)).
    { apply list_find_Some. repeat split; try assumption.
      intros j e' Hj Hlt. now apply (Hleast j e'). }
    rewrite (list_find_app_l _ _ _ _ _ Hfind).
    destruct (m_objectMaterials (self w)); [discriminate | reflexivity].
  - intros m p Hp Hfresh. rewrite FindMaterial_run. simpl.
    rewrite list_find_app_r by now apply no_match_find.
    assert (Hpre : list_find (fun e => material_tag e = material_tag p)
                     [glassMaterial; ceramicMaterial; cardboardMaterial]
                   = Some (match material_tag p with
                           | "glass" => 0 | "ceramic" => 1 | _ => 2
                           end%nat, p)).
    { repeat (apply elem_of_cons in Hp as [-> | Hp]; [reflexivity|]).
      now apply elem_of_nil in Hp. }
    rewrite Hpre. simpl.
    destruct (m_objectMaterials (self w)); reflexivity.
  - eexists. split; [apply DefineObjectMaterials_run|]. simpl.
    now rewrite <- app_assoc.
Qed.

Lemma DefineObjectMaterials_appends_witness :
  exists w',
    DefineObjectMaterials prepared_world = Ok (tt, w')
    /\ length (m_objectMaterials (self w')) = 6%nat
    /\ FindMaterial "ceramic" glassMaterial w'
       = Ok ((true, copy_material ceramicMaterial glassMaterial), w').
Proof.
  destruct (DefineObjectMaterials_appends prepared_world)
    as (w' & Hrun & Hold & _ & _).
  exists w'. split; [exact Hrun|]. split.
  - rewrite DefineObjectMaterials_run in Hrun. injection Hrun as <-. reflexivity.
  - apply (Hold "ceramic" glassMaterial 1%nat ceramicMaterial).
    split; [reflexivity|]. split; [reflexivity|].
    intros j e' Hj He'. destruct j as [|j]; [|lia].
    vm_compute in He'. injection He' as <-. discriminate.
Defined.

(** ** From [PrepareScene] to [RenderScene] *)

Lemma PrepareScene_result w :
  m_pShaderManager (self w) = Object ->
  m_loadedTextures (self w) = 0 ->
  length (m_textureIDs (self w)) = TEXTURE_SLOTS ->
  exists w1,
    PrepareScene w = Ok (tt, w1)
    /\ prepared (self w1)
    /\ registered (self w1) =
       loaded_entries (host w) (names_generated w) scene_textures
    /\ m_objectMaterials (self w1) =
       m_objectMaterials (self w)
       ++ [glassMaterial; ceramicMaterial; cardboardMaterial].
Proof.
  intros Hsh Hzero Hlen.
  assert (Hin : registry_in_bounds TEXTURE_SLOTS (self w)).
  { split; [exact Hlen | rewrite Hzero; unfold TEXTURE_SLOTS; lia]. }
  pose proof (loaded_entries_length (host w) scene_textures
                (names_generated w)) as Hl.
  destruct (LoadSceneTextures_registry TEXTURE_SLOTS w Hin)
    as (w1 & Hrun & Hin1 & Hreg & Hsh1 & Hmat1).
  { rewrite Hzero. change (length scene_textures) with 10%nat in Hl.
    unfold TEXTURE_SLOTS. lia. }
  assert (Hempty : registered (self w) = []).
  { unfold registered. now rewrite Hzero. }
  rewrite Hempty, app_nil_l in Hreg.
  set (entries := loaded_entries (host w) (names_generated w) scene_textures) in *.
  clearbody entries.
  unfold PrepareScene.
  rewrite (bind_Ok _ _ _ _ _ Hrun).
  rewrite (bind_Ok _ _ _ _ _ (DefineObjectMaterials_run w1)).
  erewrite bind_Ok.
  2:{ apply SetupSceneLights_run. simpl. congruence. }
  unfold bind, emit. eexists. split; [reflexivity|].
  split; [|split; [exact Hreg | simpl; now rewrite Hmat1]].
  split; [split|]; simpl.
  - congruence.
  - exact (in_bounds_within_array _ _ Hin1).
  - intros t Ht.
    apply elem_of_cons in Ht as [->|Ht];
      [exists ceramicMaterial; split; [|reflexivity]|].
    2: apply elem_of_cons in Ht as [->|Ht];
      [exists glassMaterial; split; [|reflexivity]|].
    3: apply elem_of_cons in Ht as [->|Ht];
      [exists cardboardMaterial; split; [|reflexivity]|].
    4: now apply elem_of_nil in Ht.
    all: apply elem_of_app; right; repeat constructor.
Qed.

Lemma omap_cons {A B} (f : A -> option B) (x : A) (l : list A) :
  omap f (x :: l) =
    match f x with
    | Some y => y :: omap f l
    | None => omap f l
    end.
Proof. reflexivity. Qed.

Lemma omap_looks (cs : list Call) :
  Forall is_look_call cs -> omap drawn_mesh cs = [].
Proof.
  induction 1 as [|c cs Hc _ IH]; [reflexivity|].
  destruct c; try contradiction; exact IH.
Qed.

Lemma drawn_meshes s h (script : list Step) :
  omap drawn_mesh (flat_map (step_calls s h) script) = map step_mesh script.
Proof.
  induction script as [|st script IH]; [reflexivity|].
  cbn [flat_map map]. rewrite omap_app, IH. f_equal.
  unfold step_calls. rewrite omap_cons, omap_app. simpl.
  rewrite omap_looks; [reflexivity|].
  induction (step_look st) as [|l ls IHl]; simpl; [constructor|].
  apply Forall_app. split; [apply look_calls_are_looks | exact IHl].
Qed.

(** X15.  [PrepareScene] makes [RenderScene] safe, whatever the images do.
    Run on a manager with a shader attached and an empty registry of
    [TEXTURE_SLOTS] slots, [PrepareScene] returns, also when image files are
    missing or unusable, and [RenderScene] run next returns as well, leaves
    the object as [PrepareScene] left it and draws the twenty meshes of the
    scene. *)
Theorem PrepareScene_then_RenderScene (w : World) :
  m_pShaderManager (self w) = Object ->
  m_loadedTextures (self w) = 0 ->
  length (m_textureIDs (self w)) = TEXTURE_SLOTS ->
  exists w1 cs,
    PrepareScene w = Ok (tt, w1)
    /\ (PrepareScene ;; RenderScene) w = Ok (tt, add_calls cs w1)
    /\ registered (self w1) =
       loaded_entries (host w) (names_generated w) scene_textures
    /\ m_objectMaterials (self w1) =
       m_objectMaterials (self w)
       ++ [glassMaterial; ceramicMaterial; cardboardMaterial]
    /\ omap drawn_mesh cs =
       [ PlaneMesh; PlaneMesh;
         TaperedCylinderMesh; TorusMesh; TorusMesh;
         CylinderMesh; CylinderMesh; CylinderMesh; TaperedCylinderMesh;
         CylinderMesh; TaperedCylinderMesh; TorusMesh;
         BoxMesh; PrismMesh; PlaneMesh; PlaneMesh; PlaneMesh;
         BoxMesh; PlaneMesh; PlaneMesh ].
Proof.
  intros Hsh Hzero Hlen.
  destruct (PrepareScene_result w Hsh Hzero Hlen)
    as (w1 & Hrun & Hprep & Hreg & Hmat).
  exists w1, (scene_calls (self w1) (host w1)).
  split; [exact Hrun|]. split; [|split; [exact Hreg|split; [exact Hmat|]]].
  - rewrite (bind_Ok _ _ _ _ _ Hrun). apply RenderScene_emits, Hprep.
  - unfold scene_calls. now rewrite drawn_meshes.
Qed.

Lemma PrepareScene_then_RenderScene_witness :
  exists w1 cs,
    PrepareScene poor_world = Ok (tt, w1)
    /\ (PrepareScene ;; RenderScene) poor_world = Ok (tt, add_calls cs w1)
    /\ length (registered (self w1)) = 8%nat
    /\ length (omap drawn_mesh cs) = 20%nat.
Proof.
  destruct (PrepareScene_then_RenderScene poor_world eq_refl eq_refl eq_refl)
    as (w1 & cs & Hrun & Hboth & Hreg & _ & Hdraw).
  exists w1, cs. split; [exact Hrun|]. split; [exact Hboth|].
  split; [rewrite Hreg | rewrite Hdraw]; reflexivity.
Defined.

Lemma sampler_values_look s h l :
  omap sampler_value (look_calls s h l) =
    match texture_look l with
    | Some t => [texture_slot s t]
    | None => []
    end.
Proof.
  destruct l; simpl; try reflexivity.
  destruct (m_objectMaterials s); reflexivity.
Qed.

Lemma sampler_values_looks s h (ls : list Look) :
  omap sampler_value (flat_map (look_calls s h) ls) =
    map (texture_slot s) (omap texture_look ls).
Proof.
  induction ls as [|l ls IH]; [reflexivity|].
  cbn [flat_map]. rewrite omap_app, IH, sampler_values_look.
  rewrite omap_cons. now destruct (texture_look l).
Qed.

Lemma sampler_values_script s h (script : list Step) :
  omap sampler_value (flat_map (step_calls s h) script) =
    map (texture_slot s) (script_tags script).
Proof.
  induction script as [|st script IH]; [reflexivity|].
  unfold script_tags in *. cbn [flat_map].
  rewrite omap_app, IH, map_app. f_equal.
  unfold step_calls. rewrite omap_cons, omap_app, sampler_values_looks.
  simpl. now rewrite app_nil_r.
Qed.

Lemma scene_uses_every_tag t :
  t ∈ script_tags scene_script <-> t ∈ snd <$> scene_textures.
Proof.
  split; intros H; vm_compute in H;
    repeat (apply elem_of_cons in H as [-> | H];
            [vm_compute; repeat constructor|]);
    now apply elem_of_nil in H.
Qed.

Lemma slot_of_scene_tag s h g filename t :
  registered s = loaded_entries h g scene_textures ->
  (filename, t) ∈ scene_textures ->
  texture_slot s t = -1 <-> usable_image (image_files h filename) = false.
Proof.
  intros Hreg Hrow.
  pose proof (fun e => loaded_entries_tag h scene_textures g e) as Htag.
  pose proof (loaded_entries_usable h scene_textures filename t g Hrow)
    as Husable.
  pose proof (fun f' => one_file_per_tag scene_textures filename f' t
                          scene_tags_distinct Hrow) as Hone.
  unfold texture_slot. rewrite Hreg.
  set (entries := loaded_entries h g scene_textures) in *. clearbody entries.
  destruct (list_find (fun e => tag e = t) entries) as [[i e]|] eqn:Hfind.
  - apply list_find_Some in Hfind as (Hi & Ht & _).
    apply list_elem_of_lookup_2 in Hi.
    destruct (Htag e Hi) as (f' & Hrow' & Hus).
    rewrite Ht in Hrow'. rewrite (Hone f' Hrow').
    split; [lia | congruence].
  - split; [|reflexivity]. intros _.
    destruct (usable_image (image_files h filename)) eqn:Hus; [|reflexivity].
    destruct (Husable eq_refl) as (e & He & Ht).
    apply list_find_None in Hfind.
    exfalso. exact (proj1 (Forall_forall _ _) Hfind e He Ht).
Qed.

(** X16.  A failed load shows as the sampler value -1, and only so.  After
    [PrepareScene] on a manager with a shader attached and an empty
    registry, [RenderScene] hands some sampler the value -1 exactly when one
    of the ten images of [LoadSceneTextures] did not decode to three or four
    channels: every texture the scene asks for is one that function loads,
    and every texture it loads is asked for. *)
Theorem RenderScene_sampler_minus_one (w : World) :
  m_pShaderManager (self w) = Object ->
  m_loadedTextures (self w) = 0 ->
  length (m_textureIDs (self w)) = TEXTURE_SLOTS ->
  exists w1 cs,
    PrepareScene w = Ok (tt, w1)
    /\ RenderScene w1 = Ok (tt, add_calls cs w1)
    /\ ((exists name, setSampler2DValue name (-1) ∈ cs)
        <-> exists filename t,
              (filename, t) ∈ scene_textures
              /\ usable_image (image_files (host w) filename) = false).
Proof.
  intros Hsh Hzero Hlen.
  destruct (PrepareScene_result w Hsh Hzero Hlen)
    as (w1 & Hrun & Hprep & Hreg & _).
  exists w1, (scene_calls (self w1) (host w1)).
  split; [exact Hrun|]. split; [apply RenderScene_emits, Hprep|].
  assert (Hsamplers :
            (exists name, setSampler2DValue name (-1)
                          ∈ scene_calls (self w1) (host w1))
            <-> -1 ∈ map (texture_slot (self w1)) (script_tags scene_script)).
  { rewrite <- sampler_values_script with (h := host w1).
    fold (scene_calls (self w1) (host w1)).
    rewrite list_elem_of_omap. split.
    - intros [name Hin]. exists (setSampler2DValue name (-1)).
      split; [exact Hin | reflexivity].
    - intros (c & Hin & Hc). destruct c; try discriminate.
      injection Hc as ->. exists name. exact Hin. }
  rewrite Hsamplers. change map with (@fmap list _). rewrite list_elem_of_fmap.
  split.
  - intros (t & Hslot & Ht). apply scene_uses_every_tag in Ht.
    apply list_elem_of_fmap in Ht as ([f t'] & -> & Hrow).
    exists f, t'. split; [exact Hrow|].
    now apply (slot_of_scene_tag (self w1) (host w) (names_generated w) f t' Hreg Hrow).
  - intros (f & t & Hrow & Hus). exists t. split.
    + symmetry.
      now apply (slot_of_scene_tag (self w1) (host w) (names_generated w) f t Hreg Hrow).
    + apply scene_uses_every_tag.
      exact (list_elem_of_fmap_2 snd scene_textures (f, t) Hrow).
Qed.

Lemma RenderScene_sampler_minus_one_witness :
  exists w1 cs,
    PrepareScene poor_world = Ok (tt, w1)
    /\ RenderScene w1 = Ok (tt, add_calls cs w1)
    /\ exists name, setSampler2DValue name (-1) ∈ cs.
Proof.
  destruct (RenderScene_sampler_minus_one poor_world eq_refl eq_refl eq_refl)
    as (w1 & cs & Hrun & Hrender & Hiff).
  exists w1, cs. split; [exact Hrun|]. split; [exact Hrender|].
  apply Hiff. exists "../../Utilities/textures/ceramic.jpg", "mug".
  split; [repeat constructor | reflexivity].
Defined.

(** ** The writers return with the registry in bounds *)

Lemma CreateGLTexture_returns w filename t :
  0 <= m_loadedTextures (self w) < Z.of_nat (length (m_textureIDs (self w))) ->
  exists b w', CreateGLTexture filename t w = Ok (b, w').
Proof.
  intros Hn.
  destruct (image_files (host w) filename) as [img|] eqn:Himg.
  - destruct (Z.eq_dec (colorChannels img) 3) as [H3|H3];
      [|destruct (Z.eq_dec (colorChannels img) 4) as [H4|H4]].
    + eexists _, _.
      apply (CreateGLTexture_registers_exact w filename t img Himg); tauto.
    + eexists _, _.
      apply (CreateGLTexture_registers_exact w filename t img Himg); tauto.
    + eexists _, _.
      exact (CreateGLTexture_channels_exact w filename t img Himg H3 H4).
  - eexists _, _. exact (CreateGLTexture_missing w filename t Himg).
Qed.

Lemma DestroyGLTextures_returns w :
  within_array (self w) ->
  exists w',
    DestroyGLTextures w = Ok (tt, w')
    /\ m_loadedTextures (self w') = m_loadedTextures (self w).
Proof.
  intros Hwf. destruct (array_split _ Hwf) as [Harr Hcount].
  destruct (destroy_loop (registered (self w)) []
              (loop_fuel (m_loadedTextures (self w))) w _ Harr Hcount)
    as (i & w' & Hrun & _ & Hc & _).
  { unfold loop_fuel. rewrite length_registered by assumption. lia. }
  exists w'. split; [|exact Hc].
  unfold DestroyGLTextures, bind at 1, get_self.
  erewrite bind_Ok by exact Hrun. reflexivity.
Qed.

(** X2.  The functions that write to the object return, with the registry
    still within its array, from every state in which the registry is within
    its array of [n] slots and the slots they may fill are free:
    [CreateGLTexture] when [m_loadedTextures < n]; [DestroyGLTextures] and
    [DefineObjectMaterials] always, the first with [m_loadedTextures]
    unchanged; [LoadSceneTextures] when [m_loadedTextures + 10 <= n], and
    [PrepareScene] when in addition a shader manager is attached. *)
Theorem writers_return_in_bounds (n : nat) (w : World) :
  registry_in_bounds n (self w) ->
  (forall filename t,
      m_loadedTextures (self w) < Z.of_nat n ->
      exists b w',
        CreateGLTexture filename t w = Ok (b, w')
        /\ registry_in_bounds n (self w'))
  /\ (exists w',
        DestroyGLTextures w = Ok (tt, w')
        /\ registry_in_bounds n (self w')
        /\ m_loadedTextures (self w') = m_loadedTextures (self w))
  /\ (exists w',
        DefineObjectMaterials w = Ok (tt, w')
        /\ registry_in_bounds n (self w'))
  /\ (m_loadedTextures (self w) + 10 <= Z.of_nat n ->
      exists w',
        LoadSceneTextures w = Ok (tt, w')
        /\ registry_in_bounds n (self w'))
  /\ (m_loadedTextures (self w) + 10 <= Z.of_nat n ->
      m_pShaderManager (self w) = Object ->
      exists w',
        PrepareScene w = Ok (tt, w')
        /\ registry_in_bounds n (self w')).
Proof.
  intros Hin. pose proof Hin as [Hlen Hb].
  pose proof (loaded_entries_length (host w) scene_textures
                (names_generated w)) as Hl.
  change (length scene_textures) with 10%nat in Hl.
  split; [|split; [|split; [|split]]].
  - intros filename t Hlt.
    destruct (CreateGLTexture_returns w filename t) as (b & w' & Hrun); [lia|].
    exists b, w'. split; [exact Hrun|].
    exact (preserves_CreateGLTexture_bounds n filename t w b w' Hin Hrun).
  - destruct (DestroyGLTextures_returns w (in_bounds_within_array _ _ Hin))
      as (w' & Hrun & Hc).
    exists w'. split; [exact Hrun|]. split; [|exact Hc].
    exact (preserves_DestroyGLTextures_bounds n w tt w' Hin Hrun).
  - eexists. split; [apply DefineObjectMaterials_run|]. exact Hin.
  - intros Hfree.
    destruct (LoadSceneTextures_registry n w Hin) as (w1 & Hrun & Hin1 & _);
      [lia|].
    exists w1. split; [exact Hrun | exact Hin1].
  - intros Hfree Hsh.
    destruct (LoadSceneTextures_registry n w Hin)
      as (w1 & Hrun & Hin1 & _ & Hsh1 & _); [lia|].
    unfold PrepareScene.
    rewrite (bind_Ok _ _ _ _ _ Hrun).
    rewrite (bind_Ok _ _ _ _ _ (DefineObjectMaterials_run w1)).
    erewrite bind_Ok.
    2:{ apply SetupSceneLights_run. simpl. congruence. }
    unfold bind, emit. eexists. split; [reflexivity|]. exact Hin1.
Qed.

Lemma writers_return_in_bounds_witness :
  registry_in_bounds TEXTURE_SLOTS (self sample_world)
  /\ (exists b w',
        CreateGLTexture "gray.png" "gray" sample_world = Ok (b, w')
        /\ registry_in_bounds TEXTURE_SLOTS (self w'))
  /\ exists w',
       PrepareScene sample_world = Ok (tt, w')
       /\ registry_in_bounds TEXTURE_SLOTS (self w').
Proof.
  assert (H0 : registry_in_bounds TEXTURE_SLOTS (self sample_world))
    by (split; [reflexivity | split; vm_compute; discriminate]).
  split; [exact H0|].
  destruct (writers_return_in_bounds TEXTURE_SLOTS sample_world H0)
    as (Hcreate & _ & _ & _ & Hprepare).
  split.
  - apply Hcreate. vm_compute. reflexivity.
  - apply Hprepare; [vm_compute; discriminate | reflexivity].
Defined.
